(** * BieniciScraper: a shallow embedding of the extraction and
    reconciliation pipeline (config.py, models.py, utils.py, scraper.py,
    main.py) and the properties of its specification.

    Python values are embedded as follows.
    - A [str] is the list of its Unicode code points ([list N]); literals
      are written [py "..."] and decoded from the UTF-8 bytes of the file.
    - An [int] is a [Z]; a [float] is an IEEE 754 binary64 value
      ([spec_float] with [prec = 53], [emax = 1024]).
    - A [dict] with string keys is a [gmap] from strings to values.
    - A raising computation returns [Raise e]; code that talks to the
      network or to the logger threads a trace of events.
    The Unicode tables of the interpreter, its limit on integer
    conversions, and the BeautifulSoup API are interfaces (type classes):
    every general theorem holds for all their implementations. *)

From Stdlib Require Import ZArith NArith QArith Qround Ascii String List Bool Lia.
From Stdlib Require Import Floats.SpecFloat.
From stdpp Require Import base option list list_numbers gmap fin_maps pretty.

Local Open Scope N_scope.

(** ** Strings *)

Abbreviation pystr := (list N).

(** Decoding of the UTF-8 bytes of a literal into code points. *)
Fixpoint utf8 (bs : list N) : pystr :=
  match bs with
  | [] => []
  | b :: r =>
    if b <? 128 then b :: utf8 r else
    match r with
    | [] => []
    | c1 :: r1 =>
      if b <? 224 then ((b - 192) * 64 + (c1 - 128)) :: utf8 r1 else
      match r1 with
      | [] => []
      | c2 :: r2 =>
        if b <? 240
        then ((b - 224) * 4096 + (c1 - 128) * 64 + (c2 - 128)) :: utf8 r2
        else
          match r2 with
          | [] => []
          | c3 :: r3 =>
            ((b - 240) * 262144 + (c1 - 128) * 4096 + (c2 - 128) * 64
             + (c3 - 128)) :: utf8 r3
          end
      end
    end
  end.

Definition py (s : string) : pystr :=
  utf8 (map N_of_ascii (list_ascii_of_string s)).

(** The interpreter's character database and settings, as the code
    consumes them through [re], [str] methods, [int()] and [float()]. *)
Class PyRuntime := {
  (** [Py_UNICODE_TODECIMAL]: the value of a decimal digit; decides [\d]
      and is what [int()] and [float()] read. *)
  to_decimal : N → option N;
  (** [Py_UNICODE_ISSPACE]: decides [\s] and what [str.strip()] removes. *)
  is_space : N → bool;
  (** [Py_UNICODE_ISALNUM]: [\w] is this or the underscore. *)
  is_alnum : N → bool;
  (** [str.lower()]. *)
  str_lower : pystr → pystr;
  (** [re.IGNORECASE]: a pattern character against a subject character,
      and a pattern range against a subject character. *)
  ci_char : N → N → bool;
  ci_range : N → N → N → bool;
  (** [sys.get_int_max_str_digits()]: [int(str)] raises [ValueError]
      beyond that many digits; [0] disables the limit (4300 by default
      since CPython 3.11, no limit before). *)
  int_max_str_digits : N;
  to_decimal_lt : ∀ c d, to_decimal c = Some d → d < 10;
  to_decimal_latin1 : ∀ c, c < 256 →
    to_decimal c = if (48 <=? c) && (c <=? 57) then Some (c - 48) else None;
  to_decimal_not_space : ∀ c d, to_decimal c = Some d → is_space c = false;
  str_lower_ascii : ∀ s, Forall (λ c, c < 128) s →
    str_lower s = map (λ c, if (65 <=? c) && (c <=? 90) then c + 32 else c) s;
}.

(** ** Values, truthiness, equality *)

Inductive value :=
| VNone
| VBool (b : bool)
| VInt (z : Z)
| VFloat (f : spec_float)
| VStr (s : pystr).

(** [bool(v)]. *)
Definition truthy (v : value) : bool :=
  match v with
  | VNone => false
  | VBool b => b
  | VInt z => negb (z =? 0)%Z
  | VFloat (S754_zero _) => false
  | VFloat _ => true
  | VStr [] => false
  | VStr _ => true
  end.

(** The exact number a numeric value denotes, in a unique form: an
    integer, or an odd mantissa with a negative binary exponent, or an
    infinity. NaN has none. *)
Inductive number :=
| NumInt (z : Z)
| NumFrac (neg : bool) (m : positive) (e : positive)
| NumInf (neg : bool).

Fixpoint dyadic (fuel : nat) (neg : bool) (m : positive) (e : Z) : number :=
  match e with
  | Zneg pe =>
    match fuel, m with
    | S fuel', xO m' => dyadic fuel' neg m' (e + 1)
    | _, _ => NumFrac neg m pe
    end
  | _ => NumInt ((if neg then -1 else 1) * Z.pos m * 2 ^ e)
  end.

Definition number_of (v : value) : option number :=
  match v with
  | VBool b => Some (NumInt (if b then 1 else 0))
  | VInt z => Some (NumInt z)
  | VFloat (S754_zero _) => Some (NumInt 0)
  | VFloat (S754_infinity s) => Some (NumInf s)
  | VFloat (S754_finite s m e) => Some (dyadic (Pos.to_nat (Pos.size m)) s m e)
  | _ => None
  end.

Global Instance number_eq_dec : EqDecision number.
Proof. solve_decision. Defined.

(** [v == w] on these values. *)
Definition py_eq (v w : value) : bool :=
  match v, w with
  | VNone, VNone => true
  | VStr a, VStr b => bool_decide (a = b)
  | _, _ =>
    match number_of v, number_of w with
    | Some a, Some b => bool_decide (a = b)
    | _, _ => false
    end
  end.

(** ** Exceptions

    The exception classes the code meets. [OSError] is raised by the
    file system only, to [export_to_csv] in main.py. *)

Inductive exn := ValueError | TypeError | AttributeError | OSError.

Global Instance exn_eq_dec : EqDecision exn.
Proof. solve_decision. Defined.

Inductive result (A : Type) :=
| Ok (a : A)
| Raise (e : exn).
Arguments Ok {A} a.
Arguments Raise {A} e.

Global Instance result_ret : MRet result := λ A a, Ok a.

Global Instance result_bind : MBind result := λ A B f m,
  match m with
  | Ok a => f a
  | Raise e => Raise e
  end.

(** ** Dictionaries *)

Abbreviation record := (gmap pystr value).

(** [d.get(key)]: [None] when the key is absent. *)
Definition dict_get (d : record) (key : pystr) : value :=
  default VNone (d !! key).

(** [d.update(other)]. *)
Definition dict_update (d other : record) : record := other ∪ d.

(** ** String methods *)

Fixpoint starts_with (p s : pystr) : bool :=
  match p, s with
  | [], _ => true
  | a :: p', b :: s' => (a =? b) && starts_with p' s'
  | _ :: _, [] => false
  end.

(** [needle in hay]. *)
Fixpoint str_in (needle hay : pystr) : bool :=
  starts_with needle hay ||
  match hay with
  | [] => false
  | _ :: t => str_in needle t
  end.

(** [s.replace(a, b)] for one-character [a] and [b]. *)
Definition replace_char (a b : N) (s : pystr) : pystr :=
  map (λ c, if c =? a then b else c) s.

(** [s.split(sep)] for a one-character separator: never empty. *)
Fixpoint split_char (sep : N) (s : pystr) : list pystr :=
  match s with
  | [] => [[]]
  | c :: t =>
    if c =? sep then [] :: split_char sep t
    else
      match split_char sep t with
      | [] => [[c]]
      | w :: ws => (c :: w) :: ws
      end
  end.

Fixpoint lstrip_by (p : N → bool) (s : pystr) : pystr :=
  match s with
  | [] => []
  | c :: t => if p c then lstrip_by p t else s
  end.

Definition rstrip_by (p : N → bool) (s : pystr) : pystr :=
  reverse (lstrip_by p (reverse s)).

(** [s.rstrip(c)] for a one-character argument. *)
Definition rstrip_char (c : N) (s : pystr) : pystr := rstrip_by (N.eqb c) s.

(** [s.strip()]. *)
Definition strip `{PyRuntime} (s : pystr) : pystr :=
  rstrip_by is_space (lstrip_by is_space s).

(** ** [int()] and [float()]

    The code applies [int] only to text made of decimal digits and
    white space, and [float] only to text made of decimal digits and
    dots; on such text the definitions below are the built-ins (signs,
    underscores, exponents and other bases cannot occur there). *)

Definition is_digit `{PyRuntime} (c : N) : bool := bool_decide (is_Some (to_decimal c)).

(** The integer denoted by a run of decimal digits, most significant
    first; [None] when a character is no decimal digit. *)
Fixpoint digits_value `{PyRuntime} (acc : Z) (s : pystr) : option Z :=
  match s with
  | [] => Some acc
  | c :: t =>
    match to_decimal c with
    | Some d => digits_value (10 * acc + Z.of_N d)%Z t
    | None => None
    end
  end.

Definition over_digit_limit `{PyRuntime} (s : pystr) : bool :=
  negb (int_max_str_digits =? 0) && (int_max_str_digits <? N.of_nat (length s)).

(** The white space [int()] ignores around the digits: that of
    [Py_UNICODE_ISSPACE] but for the separators U+001C to U+001F, which
    [str.strip()] removes and [int()] does not. *)
Definition int_space `{PyRuntime} (c : N) : bool :=
  is_space c && negb ((28 <=? c) && (c <=? 31)).

(** [int(s)]: white space around the digits is ignored; no digit, or
    anything else than digits inside, or too many digits, is a
    [ValueError]. *)
Definition py_int `{PyRuntime} (s : pystr) : result Z :=
  let digits := rstrip_by int_space (lstrip_by int_space s) in
  match digits with
  | [] => Raise ValueError
  | _ =>
    match digits_value 0 digits with
    | Some z => if over_digit_limit digits then Raise ValueError else Ok z
    | None => Raise ValueError
    end
  end.

Definition binary64_prec : Z := 53.
Definition binary64_emax : Z := 1024.

(** The binary64 nearest (ties to even) to [n / d]. *)
Definition float_of_ratio (n : Z) (d : positive) : spec_float :=
  match n with
  | Z0 => S754_zero false
  | _ =>
    let '(q, e, l) :=
      SFdiv_core_binary binary64_prec binary64_emax (Z.abs n) 0 (Z.pos d) 0 in
    binary_round_aux binary64_prec binary64_emax (n <? 0)%Z q e l
  end.

(** [float(n)] for an integer. *)
Definition float_of_int (n : Z) : spec_float := float_of_ratio n 1.

Definition float_mul (x y : spec_float) : spec_float :=
  SFmul binary64_prec binary64_emax x y.

(** [float(s)] for [s] made of decimal digits and dots: digits with at
    most one dot and at least one digit, else [ValueError]. *)
Definition py_float `{PyRuntime} (s : pystr) : result spec_float :=
  match split_char 46 s with
  | [ip] =>
    match ip, digits_value 0 ip with
    | _ :: _, Some n => Ok (float_of_int n)
    | _, _ => Raise ValueError
    end
  | [ip; fp] =>
    match ip ++ fp, digits_value 0 (ip ++ fp) with
    | _ :: _, Some n => Ok (float_of_ratio n (Z.to_pos (10 ^ Z.of_nat (length fp))))
    | _, _ => Raise ValueError
    end
  | _ => Raise ValueError
  end.

(** ** Regular expressions ([re])

    A backtracking matcher with the priorities of [re]: alternatives
    left to right, greedy repetition longest first, lazy repetition
    shortest first; [re.search] takes the leftmost start. *)

Inductive citem :=
| CChar (c : N)
| CRange (lo hi : N)
| CDigit
| CSpace
| CWord.

Inductive regex :=
| REps
| RSet (neg : bool) (items : list citem)
| RCat (r1 r2 : regex)
| RAlt (r1 r2 : regex)
| RStar (greedy : bool) (r : regex)
| RGroup (n : nat) (r : regex)
| RBol
| REol
| RWordB
| RNotAhead (r : regex).

Record mstate := {
  pos : nat;
  prev : option N;
  rest : pystr;
  groups : list (nat * (nat * nat));
}.

Definition is_word `{PyRuntime} (c : N) : bool := is_alnum c || (c =? 95).

Definition citem_match `{PyRuntime} (ignorecase : bool) (c : N) (i : citem) : bool :=
  match i with
  | CChar x => if ignorecase then ci_char x c else x =? c
  | CRange lo hi => if ignorecase then ci_range lo hi c else (lo <=? c) && (c <=? hi)
  | CDigit => is_digit c
  | CSpace => is_space c
  | CWord => is_word c
  end.

Definition set_match `{PyRuntime} (ignorecase neg : bool) (items : list citem) (c : N) : bool :=
  xorb neg (existsb (citem_match ignorecase c) items).

Definition advance (c : N) (t : pystr) (s : mstate) : mstate :=
  {| pos := S (pos s); prev := Some c; rest := t; groups := groups s |}.

Definition set_group (n : nat) (from : nat) (s : mstate) : mstate :=
  {| pos := pos s; prev := prev s; rest := rest s;
     groups := (n, (from, pos s)) :: groups s |}.

Definition or_else {A} (a b : option A) : option A :=
  match a with
  | Some x => Some x
  | None => b
  end.

Fixpoint rmatch `{PyRuntime} (ignorecase : bool) (r : regex)
    (k : mstate → option mstate) (s : mstate) {struct r} : option mstate :=
  match r with
  | REps => k s
  | RSet neg items =>
    match rest s with
    | c :: t => if set_match ignorecase neg items c then k (advance c t s) else None
    | [] => None
    end
  | RCat a b => rmatch ignorecase a (rmatch ignorecase b k) s
  | RAlt a b => or_else (rmatch ignorecase a k s) (rmatch ignorecase b k s)
  | RStar greedy a =>
    (fix loop (n : nat) (s : mstate) {struct n} : option mstate :=
       match n with
       | O => k s
       | S n' =>
         let more :=
           rmatch ignorecase a
             (λ s', if (pos s <? pos s')%nat then loop n' s' else None) s in
         if greedy then or_else more (k s) else or_else (k s) more
       end) (length (rest s)) s
  | RGroup n a => rmatch ignorecase a (λ s', k (set_group n (pos s) s')) s
  | RBol => if (pos s =? 0)%nat then k s else None
  | REol =>
    match rest s with
    | [] | [10] => k s
    | _ => None
    end
  | RWordB =>
    let before := from_option is_word false (prev s) in
    let after := from_option is_word false (head (rest s)) in
    if xorb before after then k s else None
  | RNotAhead a =>
    match rmatch ignorecase a Some s with
    | Some _ => None
    | None => k s
    end
  end.

(** A match object: the subject and the spans of the match and of its
    groups. *)
Record re_match := {
  m_string : pystr;
  m_start : nat;
  m_end : nat;
  m_groups : list (nat * (nat * nat));
}.

Definition slice (s : pystr) (from to : nat) : pystr :=
  take (to - from) (drop from s).

(** [m.group(0)]. *)
Definition group0 (m : re_match) : pystr := slice (m_string m) (m_start m) (m_end m).

Fixpoint assoc {A} (n : nat) (l : list (nat * A)) : option A :=
  match l with
  | [] => None
  | (i, a) :: t => if (i =? n)%nat then Some a else assoc n t
  end.

(** [m.group(n)] for [n >= 1]: [None] when the group took no part. *)
Definition group (m : re_match) (n : nat) : option pystr :=
  '(from, to) ← assoc n (m_groups m); Some (slice (m_string m) from to).

Fixpoint search_from `{PyRuntime} (ignorecase : bool) (r : regex) (whole : pystr)
    (at_ : nat) (before : option N) (s : pystr) {struct s} : option re_match :=
  match rmatch ignorecase r Some {| pos := at_; prev := before; rest := s; groups := [] |} with
  | Some e =>
    Some {| m_string := whole; m_start := at_; m_end := pos e; m_groups := groups e |}
  | None =>
    match s with
    | [] => None
    | c :: t => search_from ignorecase r whole (S at_) (Some c) t
    end
  end.

(** [re.search(r, s)], and with [re.IGNORECASE]. *)
Definition re_search `{PyRuntime} (r : regex) (s : pystr) : option re_match :=
  search_from false r s 0 None s.

Definition re_search_i `{PyRuntime} (r : regex) (s : pystr) : option re_match :=
  search_from true r s 0 None s.

(** [re.sub] of a pattern that is one character class by the empty
    string. *)
Definition re_sub_set `{PyRuntime} (neg : bool) (items : list citem) (s : pystr) : pystr :=
  filter (λ c, set_match false neg items c = false) s.

(** Pattern syntax. *)
Definition lit (c : N) : regex := RSet false [CChar c].
Definition digit : regex := RSet false [CDigit].
Definition space : regex := RSet false [CSpace].
Definition word : regex := RSet false [CWord].
Definition star (r : regex) : regex := RStar true r.
Definition plus (r : regex) : regex := RCat r (RStar true r).
Definition plus_lazy (r : regex) : regex := RCat r (RStar false r).
Definition opt (r : regex) : regex := RAlt r REps.

(** A literal text. *)
Definition text (s : string) : regex :=
  foldr (λ c r, RCat (lit c) r) REps (py s).

Definition cat (rs : list regex) : regex := foldr RCat REps rs.

(** ** A concrete runtime for evaluation

    CPython's tables restricted to Latin-1 (code points below 256), with
    the default integer-conversion limit. Beyond Latin-1 it knows no
    digit, space, letter or case; the closed examples below only use
    Latin-1 text, on which it is exact. *)

Definition in_ranges (c : N) (rs : list (N * N)) : bool :=
  existsb (λ '(lo, hi), (lo <=? c) && (c <=? hi)) rs.

Definition latin1_lower (c : N) : N :=
  if in_ranges c [(65, 90); (192, 214); (216, 222)] then c + 32 else c.

Definition latin1_upper (c : N) : N :=
  if in_ranges c [(97, 122); (224, 246); (248, 254)] then c - 32
  else if c =? 255 then 376
  else if c =? 181 then 924
  else c.

Definition latin1_decimal (c : N) : option N :=
  if (48 <=? c) && (c <=? 57) then Some (c - 48) else None.

#[refine] Global Instance latin1 : PyRuntime := {|
  to_decimal := latin1_decimal;
  is_space c := in_ranges c [(9, 13); (28, 32); (133, 133); (160, 160)];
  is_alnum c :=
    in_ranges c [(48, 57); (65, 90); (97, 122); (170, 170); (178, 179);
                 (181, 181); (185, 186); (188, 190); (192, 214); (216, 246);
                 (248, 255)];
  str_lower := map latin1_lower;
  ci_char p c := latin1_lower p =? latin1_lower c;
  ci_range lo hi c :=
    in_ranges (latin1_lower c) [(lo, hi)] || in_ranges (latin1_upper c) [(lo, hi)];
  int_max_str_digits := 4300;
|}.
Proof.
  - unfold latin1_decimal. intros c d Hd.
    destruct ((48 <=? c) && (c <=? 57)) eqn:E; [|discriminate].
    injection Hd as <-. apply andb_prop in E as [_ E2].
    apply N.leb_le in E2. lia.
  - reflexivity.
  - unfold latin1_decimal, in_ranges. intros c d Hd.
    destruct ((48 <=? c) && (c <=? 57)) eqn:E; [|discriminate].
    apply andb_prop in E as [E1 E2].
    apply N.leb_le in E1. apply N.leb_le in E2. simpl.
    repeat match goal with
           | |- context [?a <=? ?b] => destruct (N.leb_spec a b)
           end; simpl; try reflexivity; lia.
  - intros s Hs. apply map_ext_Forall. eapply list.Forall_impl; [exact Hs|].
    intros c Hc. cbv beta in Hc. unfold latin1_lower, in_ranges. simpl.
    repeat match goal with
           | |- context [?a <=? ?b] => destruct (N.leb_spec a b)
           end; simpl; try reflexivity; lia.
Defined.

(** [try: m except e: h]. *)
Definition try_except {A} (m : result A) (e : exn) (h : result A) : result A :=
  match m with
  | Ok a => Ok a
  | Raise e' => if bool_decide (e' = e) then h else Raise e'
  end.

(** ** config.py *)

Definition BASE_URL : pystr := py "https://www.bienici.com".
Definition SEARCH_URL : pystr := py "https://www.bienici.com/recherche".
Definition DEFAULT_TIMEOUT : Z := 120.
Definition MAX_RETRIES : nat := 3.
Definition DEFAULT_MAX_WORKERS : Z := 10.

Definition LOCATIONS : gmap pystr pystr :=
  list_to_map
    [ (py "paris", py "paris-75000");
      (py "lyon", py "lyon-69000");
      (py "marseille", py "marseille-13000");
      (py "toulouse", py "toulouse-31000");
      (py "nice", py "nice-06000");
      (py "nantes", py "nantes-44000");
      (py "montpellier", py "montpellier-34000");
      (py "strasbourg", py "strasbourg-67000");
      (py "bordeaux", py "bordeaux-33000");
      (py "lille", py "lille-59000");
      (py "rennes", py "rennes-35000");
      (py "reims", py "reims-51100");
      (py "saint-etienne", py "saint-etienne-42000");
      (py "le-havre", py "le-havre-76600");
      (py "toulon", py "toulon-83000");
      (py "grenoble", py "grenoble-38000");
      (py "dijon", py "dijon-21000");
      (py "angers", py "angers-49000");
      (py "nimes", py "nimes-30000");
      (py "aix-en-provence", py "aix-en-provence-13100") ].

Definition CONTRACT_TYPES : gmap pystr pystr :=
  list_to_map
    [ (py "buy", py "achat");
      (py "rent", py "location");
      (py "new", py "achat") ].

Definition PROPERTY_TYPES : gmap pystr pystr :=
  list_to_map
    [ (py "all", py "");
      (py "apartment", py "appartement");
      (py "house", py "maisonvilla");
      (py "land", py "terrain");
      (py "parking", py "parking");
      (py "commercial", py "commerce");
      (py "office", py "bureaux") ].

(** ** models.py *)

(** The fields of the [Property] dataclass in declaration order, each
    with its default; [None] stands for the [date_scraped] factory. *)
Definition Property_fields : list (pystr * option value) :=
  [ (py "url", Some (VStr []));
    (py "listing_id", Some (VStr []));
    (py "title", Some (VStr []));
    (py "property_type", Some (VStr []));
    (py "contract_type", Some (VStr []));
    (py "price", Some VNone);
    (py "price_per_sqm", Some VNone);
    (py "price_without_fees", Some VNone);
    (py "agency_fees_percent", Some VNone);
    (py "city", Some (VStr []));
    (py "district", Some (VStr []));
    (py "postal_code", Some (VStr []));
    (py "full_address", Some (VStr []));
    (py "living_area", Some VNone);
    (py "rooms", Some VNone);
    (py "bedrooms", Some VNone);
    (py "floor", Some (VStr []));
    (py "exposure", Some (VStr []));
    (py "heating_type", Some (VStr []));
    (py "energy_rating", Some (VStr []));
    (py "energy_consumption", Some VNone);
    (py "ges_rating", Some (VStr []));
    (py "ges_emission", Some VNone);
    (py "energy_bill_min", Some VNone);
    (py "energy_bill_max", Some VNone);
    (py "has_video", Some (VBool false));
    (py "is_exclusive", Some (VBool false));
    (py "price_drop", Some (VBool false));
    (py "agency_name", Some (VStr []));
    (py "agency_address", Some (VStr []));
    (py "mandate_type", Some (VStr []));
    (py "reference", Some (VStr []));
    (py "description", Some (VStr []));
    (py "published_date", Some (VStr []));
    (py "modified_date", Some (VStr []));
    (py "date_scraped", None) ].

Definition Property_field_names : list pystr := Property_fields.*1.

(** A [Property] instance: the values of its fields, in declaration
    order (what [to_dict] returns). *)
Record Property := { to_dict : list (pystr * value) }.

(** [Property] called with [kwargs] as keywords: the generated [__init__] takes the declared
    fields as keywords and raises [TypeError] on any other keyword;
    [now] is what [datetime.now().isoformat()] gives at that moment. *)
Definition Property_new (now : pystr) (kwargs : record) : result Property :=
  if bool_decide (map_Forall (λ k _, k ∈ Property_field_names) kwargs)
  then
    Ok {| to_dict :=
            map (λ '(name, dflt),
                   (name, default (default (VStr now) dflt) (kwargs !! name)))
                Property_fields |}
  else Raise TypeError.

Fixpoint field_lookup (name : pystr) (fs : list (pystr * value)) : option value :=
  match fs with
  | [] => None
  | (k, v) :: t => if bool_decide (k = name) then Some v else field_lookup name t
  end.

(** ** The BeautifulSoup API, as far as utils.py uses it *)

Class BS4 := {
  (** [Tag] (and the [BeautifulSoup] object), and [NavigableString]. *)
  tag : Type;
  navstr : Type;
  (** [BeautifulSoup(html, "lxml")]. *)
  BeautifulSoup : pystr → tag;
  (** [t.find(name)]. *)
  find : tag → pystr → option tag;
  (** [t.find_all(name)], [t.find_all([name, ...])]. *)
  find_all : tag → list pystr → list tag;
  (** [t.find(name, href=compiled)]: the predicate is [compiled.search]. *)
  find_href : tag → pystr → (pystr → bool) → option tag;
  (** [t.find(string=compiled)], [t.find_all(string=compiled)]. *)
  find_string : tag → (pystr → bool) → option navstr;
  find_all_string : tag → (pystr → bool) → list navstr;
  (** [t.get_text()], [t.get_text(strip=True)]. *)
  get_text : tag → pystr;
  get_text_strip : tag → pystr;
  (** [t.find_parent()], [s.find_parent()], [t.find_next_sibling()]. *)
  tag_parent : tag → option tag;
  string_parent : navstr → option tag;
  find_next_sibling : tag → option tag;
  (** A [NavigableString] read as the [str] it is. *)
  string_text : navstr → pystr;
  (** [t.get("href")]. *)
  get_href : tag → option pystr;
  (** [str(t.get("class", []))]. *)
  class_repr : tag → pystr;
}.

(** ** Events: what a run does to the outside world *)

Inductive level := DEBUG | INFO | WARNING | ERROR.

(** The log messages of utils.py and scraper.py, by template. *)
Inductive message :=
| FailedToParseListingCard (e : exn)
| RequestFailed (attempt retries : nat)
| WaitingBeforeRetry (seconds : Z)
| FailedToFetch (url : value) (retries : nat)
| FetchingPage (page : Z) (url : pystr)
| FetchingDetail (url : value)
| StartingScrape (property_type contract_type location : pystr)
| FetchingFirstPage (url : pystr)
| FailedToFetchFirstPage
| NoPropertiesOnFirstPage
| FoundProperties (total_count total_pages : Z)
| WillScrape (pages : Z)
| PageFound (page : Z) (n : nat)
| ErrorFetchingPage (page : Z) (e : exn)
| CollectedUnique (n : nat)
| FetchingDetailPages
| FailedToCreateProperty (e : exn)
| SuccessfullyScraped (n : nat)
| ErrorFetchingDetail (url : value) (e : exn).

Inductive event :=
| Request (url : value) (api_key : pystr) (timeout : Z)
| Sleep (seconds : Z)
| Pool (max_workers : Z)
| Log (lvl : level) (msg : message).

(** ** utils.py *)

Section utils.
Context `{PyRuntime} `{BS4}.

Definition some_int (o : option Z) : value :=
  match o with
  | Some z => VInt z
  | None => VNone
  end.

Definition some_float (o : option spec_float) : value :=
  match o with
  | Some f => VFloat f
  | None => VNone
  end.

Definition nonempty (s : pystr) : bool :=
  match s with
  | [] => false
  | _ => true
  end.

(** [m.group(n)] of a group that took part in the match. *)
Definition group_str (m : re_match) (n : nat) : pystr := default [] (group m n).

Definition any_char : regex := RSet true [].
Definition euro : regex := lit 8364.
Definition digits_spaces : regex := RSet false [CDigit; CSpace].
Definition digits_spaces_nbsp : regex := RSet false [CDigit; CSpace; CChar 160].
Definition digits_comma_dot : regex := RSet false [CDigit; CChar 44; CChar 46].

(** [parse_price]. *)
Definition parse_price (text : pystr) : result (option Z) :=
  if negb (nonempty text) then Ok None
  else
    let clean := re_sub_set true [CDigit] text in
    if nonempty clean
    then try_except (z ← py_int clean; Ok (Some z)) ValueError (Ok None)
    else Ok None.

(** r"([\d,\.]+)\s*k" and r"([\d\s\xa0]+)" *)
Definition k_pattern : regex :=
  cat [RGroup 1 (plus digits_comma_dot); star space; text "k"].
Definition num_pattern : regex := RGroup 1 (plus digits_spaces_nbsp).

(** [parse_price_per_sqm]. *)
Definition parse_price_per_sqm (text : pystr) : result (option spec_float) :=
  if negb (nonempty text) then Ok None
  else
    let standard :=
      match re_search num_pattern text with
      | Some num_match =>
        let clean := re_sub_set true [CDigit] (group_str num_match 1) in
        if nonempty clean
        then try_except (f ← py_float clean; Ok (Some f)) ValueError (Ok None)
        else Ok None
      | None => Ok None
      end in
    match re_search k_pattern (str_lower text) with
    | Some k_match =>
      let value := replace_char 44 46 (group_str k_match 1) in
      try_except
        (f ← py_float value; Ok (Some (float_mul f (float_of_int 1000))))
        ValueError standard
    | None => standard
    end.

(** The title vocabulary, in the order of the dict literal. *)
Definition property_types : list (pystr * pystr) :=
  [ (py "appartement", py "apartment");
    (py "maison", py "house");
    (py "studio", py "studio");
    (py "duplex", py "duplex");
    (py "loft", py "loft");
    (py "terrain", py "land");
    (py "parking", py "parking");
    (py "commerce", py "commercial");
    (py "bureaux", py "office");
    (py "villa", py "house");
    (py "immeuble", py "building") ].

(** r"(\d+)\s*pièces?" *)
Definition rooms_pattern : regex :=
  cat [RGroup 1 (plus digit); star space; text "pièce"; opt (text "s")].
(** r"(\d+(?:[,\.]\d+)?)\s*m²" *)
Definition area_pattern : regex :=
  cat [RGroup 1 (cat [plus digit; opt (cat [RSet false [CChar 44; CChar 46]; plus digit])]);
       star space; text "m²"].
(** r"(\d{5})\s+([^(]+?)(?:\s*\(|$)" *)
Definition postal_pattern : regex :=
  cat [RGroup 1 (cat [digit; digit; digit; digit; digit]); plus space;
       RGroup 2 (plus_lazy (RSet true [CChar 40]));
       RAlt (cat [star space; text "("]) REol].
(** r"\(([^)]+)\)" *)
Definition district_pattern : regex :=
  cat [text "("; RGroup 1 (plus (RSet true [CChar 41])); text ")"].

(** [parse_title_text]. *)
Definition parse_title_text (title : pystr) : result record :=
  let result0 : record := ∅ in
  let title_lower := str_lower title in
  let result1 :=
    match list_find (λ '(fr_type, _), str_in fr_type title_lower = true) property_types with
    | Some (_, (_, en_type)) => <[py "property_type" := VStr en_type]> result0
    | None => result0
    end in
  result2 ←
    match re_search rooms_pattern title with
    | Some rooms_match =>
      n ← py_int (group_str rooms_match 1);
      Ok (<[py "rooms" := VInt n]> result1)
    | None => Ok result1
    end;
  result3 ←
    match re_search area_pattern title with
    | Some area_match =>
      let area_str := replace_char 44 46 (group_str area_match 1) in
      f ← py_float area_str;
      Ok (<[py "living_area" := VFloat f]> result2)
    | None => Ok result2
    end;
  let result4 :=
    match re_search postal_pattern title with
    | Some postal_match =>
      <[py "city" := VStr (strip (group_str postal_match 2))]>
        (<[py "postal_code" := VStr (group_str postal_match 1)]> result3)
    | None => result3
    end in
  let result5 :=
    match re_search district_pattern title with
    | Some district_match =>
      <[py "district" := VStr (group_str district_match 1)]> result4
    | None => result4
    end in
  Ok result5.

(** The tags and the contract type, set the same way from a card and
    from a detail page. *)
Definition set_tags (text_ : pystr) (prop : record) : record :=
  <[py "price_drop" := VBool (str_in (py "Baisse de prix") text_)]>
    (<[py "is_exclusive" := VBool (str_in (py "Exclusivité") text_)]>
       (<[py "has_video" := VBool (str_in (py "Vidéo") text_)]> prop)).

Definition set_contract_type (href : pystr) (prop : record) : record :=
  if str_in (py "/vente/") href then <[py "contract_type" := VStr (py "buy")]> prop
  else if str_in (py "/location/") href then <[py "contract_type" := VStr (py "rent")]> prop
  else prop.

(** r"([\d\s\xa0]+)\s*biens?\s+(?:à\s+vendre|à\s+louer)" *)
Definition count_pattern : regex :=
  cat [RGroup 1 (plus digits_spaces_nbsp); star space; text "bien"; opt (text "s");
       plus space;
       RAlt (cat [text "à"; plus space; text "vendre"])
            (cat [text "à"; plus space; text "louer"])].

Fixpoint total_count_loop (headings : list tag) : result Z :=
  match headings with
  | [] => Ok 0%Z
  | h2 :: more =>
    match re_search count_pattern (get_text_strip h2) with
    | Some m =>
      let count_str :=
        filter (λ c, c ≠ 160) (filter (λ c, c ≠ 32) (group_str m 1)) in
      match py_int count_str with
      | Ok n => Ok n
      | Raise ValueError => total_count_loop more
      | Raise e => Raise e
      end
    | None => total_count_loop more
    end
  end.

(** [parse_total_count]. *)
Definition parse_total_count (html : pystr) : result Z :=
  let soup := BeautifulSoup html in
  total_count_loop (find_all soup [py "h2"]).

(** r"/annonce/", r"[\d\s]+\s*€", r"[\d\s,]+\s*€/m²" *)
Definition annonce_pattern : regex := text "/annonce/".
Definition card_price_pattern : regex := cat [plus digits_spaces; star space; euro].
Definition card_sqm_pattern : regex :=
  cat [plus (RSet false [CDigit; CSpace; CChar 44]); star space; text "€/m²"].

Definition searches (r : regex) (s : pystr) : bool :=
  bool_decide (is_Some (re_search r s)).

(** [parse_listing_urls]: the loop over the articles, with the URLs
    collected so far. A [Tag] is truthy; [link.get("href")] is truthy
    when the attribute is there and not empty. *)
Fixpoint listing_urls_loop (articles : list tag) (urls : list pystr) : list pystr :=
  match articles with
  | [] => urls
  | article :: more =>
    match find_href article (py "a") (searches annonce_pattern) with
    | Some link =>
      match get_href link with
      | Some (c :: h) =>
        let href := c :: h in
        let href := default [] (head (split_char 63 href)) in
        let href := if starts_with (py "/") href then BASE_URL ++ href else href in
        if bool_decide (href ∈ urls)
        then listing_urls_loop more urls
        else listing_urls_loop more (urls ++ [href])
      | _ => listing_urls_loop more urls
      end
    | None => listing_urls_loop more urls
    end
  end.

Definition parse_listing_urls (html : pystr) : list pystr :=
  let soup := BeautifulSoup html in
  listing_urls_loop (find_all soup [py "article"]) [].

(** The fallback scan of the card's [div]s for a price above 1000. *)
Fixpoint price_in_divs (divs : list tag) : result (option Z) :=
  match divs with
  | [] => Ok None
  | div :: more =>
    let text_ := get_text_strip div in
    if str_in (py "€") text_ && searches digit text_
    then
      price ← parse_price text_;
      match price with
      | Some p =>
        if negb (p =? 0)%Z && (1000 <? p)%Z then Ok (Some p) else price_in_divs more
      | None => price_in_divs more
      end
    else price_in_divs more
  end.

(** [extract_listing_card_data]. *)
Definition extract_listing_card_data (article : tag) : result (option record) :=
  match find_href article (py "a") (searches annonce_pattern) with
  | None => Ok None
  | Some link =>
    let href := default [] (get_href link) in
    let href := default [] (head (split_char 63 href)) in
    let prop : record :=
      if starts_with (py "/") href
      then {[ py "url" := VStr (BASE_URL ++ href) ]}
      else {[ py "url" := VStr href ]} in
    let parts := split_char 47 (rstrip_char 47 href) in
    let prop := <[py "listing_id" := VStr (default [] (last parts))]> prop in
    prop ←
      match find article (py "h3") with
      | Some h3 =>
        let title_text := get_text_strip h3 in
        parsed ← parse_title_text title_text;
        Ok (dict_update (<[py "title" := VStr title_text]> prop) parsed)
      | None => Ok prop
      end;
    prop ←
      match find_string article (searches card_price_pattern) with
      | Some price_elem =>
        if nonempty (string_text price_elem)
        then
          price ← parse_price (strip (string_text price_elem));
          Ok (<[py "price" := some_int price]> prop)
        else Ok prop
      | None => Ok prop
      end;
    prop ←
      (if truthy (dict_get prop (py "price")) then Ok prop
       else
         price ← price_in_divs (find_all article [py "div"]);
         match price with
         | Some p => Ok (<[py "price" := VInt p]> prop)
         | None => Ok prop
         end);
    prop ←
      match find_string article (searches card_sqm_pattern) with
      | Some sqm =>
        if nonempty (string_text sqm)
        then
          v ← parse_price_per_sqm (strip (string_text sqm));
          Ok (<[py "price_per_sqm" := some_float v]> prop)
        else Ok prop
      | None => Ok prop
      end;
    let prop := set_tags (get_text article) prop in
    Ok (Some (set_contract_type href prop))
  end.

(** [parse_listings_from_page]: the cards of a page, and the warnings
    logged for the cards that raised. *)
Fixpoint listings_loop (articles : list tag) : list record * list event :=
  match articles with
  | [] => ([], [])
  | article :: more =>
    let '(properties, logs) := listings_loop more in
    match extract_listing_card_data article with
    | Ok (Some prop) =>
      if bool_decide (prop ≠ ∅) && truthy (dict_get prop (py "url"))
      then (prop :: properties, logs)
      else (properties, logs)
    | Ok None => (properties, logs)
    | Raise e => (properties, Log WARNING (FailedToParseListingCard e) :: logs)
    end
  end.

Definition parse_listings_from_page (html : pystr) : list record * list event :=
  let soup := BeautifulSoup html in
  listings_loop (find_all soup [py "article"]).

(** The patterns of [parse_property_detail], in the order of the source. *)

(** r"(\d[\d\s\xa0]*" r")\s*€(?!\s*/\s*m)" (adjacent literals: one pattern) *)
Definition price_pattern : regex :=
  cat [RGroup 1 (cat [digit; star digits_spaces_nbsp]); star space; euro;
       RNotAhead (cat [star space; text "/"; star space; text "m"])].
(** r"(\d[\d\s\xa0,]*" r")\s*€\s*/\s*m²" *)
Definition sqm_pattern : regex :=
  cat [RGroup 1 (cat [digit; star (RSet false [CDigit; CSpace; CChar 160; CChar 44])]);
       star space; euro; star space; text "/"; star space; text "m²"].
(** r"Honoraires\s*:\s*([\d,\.]+)\s*%" *)
Definition fees_pattern : regex :=
  cat [text "Honoraires"; star space; text ":"; star space;
       RGroup 1 (plus digits_comma_dot); star space; text "%"].
(** r"\(([\d\s\xa0]+)\s*€\s*hors\s*honoraires\)" *)
Definition price_hors_pattern : regex :=
  cat [text "("; RGroup 1 (plus digits_spaces_nbsp); star space; euro; star space;
       text "hors"; star space; text "honoraires"; text ")"].
(** r"(\d+)(?:er|ème|e)?\s*étage|Rez-de-chaussée" *)
Definition floor_pattern : regex :=
  RAlt (cat [RGroup 1 (plus digit);
             opt (RAlt (text "er") (RAlt (text "ème") (text "e")));
             star space; text "étage"])
       (text "Rez-de-chaussée").
(** r"Exposé?\s+([\w\s]+?)(?:\n|$|\.)" *)
Definition exposure_pattern : regex :=
  cat [text "Expos"; opt (text "é"); plus space;
       RGroup 1 (plus_lazy (RSet false [CWord; CSpace]));
       RAlt (lit 10) (RAlt REol (lit 46))].
(** r"Chauffage\s*:\s*([^\.]+?)(?:\n|$|\.)" *)
Definition heating_pattern : regex :=
  cat [text "Chauffage"; star space; text ":"; star space;
       RGroup 1 (plus_lazy (RSet true [CChar 46]));
       RAlt (lit 10) (RAlt REol (lit 46))].
(** r"Date de réalisation du DPE\s*:\s*(\d+\s+\w+\s+\d+)" *)
Definition dpe_date_pattern : regex :=
  cat [text "Date de réalisation du DPE"; star space; text ":"; star space;
       RGroup 1 (cat [plus digit; plus space; plus word; plus space; plus digit])].
(** r"Performance énergétique" *)
Definition energy_heading : regex := text "Performance énergétique".
(** r"\b([A-G])\b.*?(\d+)\s*kWh" with [re.DOTALL] *)
Definition rating_pattern : regex :=
  cat [RWordB; RGroup 1 (RSet false [CRange 65 71]); RWordB; RStar false any_char;
       RGroup 2 (plus digit); star space; text "kWh"].
(** r"^\s*[A-G]\s*$" *)
Definition letter_pattern : regex :=
  cat [RBol; star space; RSet false [CRange 65 71]; star space; REol].
(** r"émissions.*?([A-G])\s*(\d+)\s*kg\s*CO" with
    [re.IGNORECASE | re.DOTALL] *)
Definition ges_pattern : regex :=
  cat [text "émissions"; RStar false any_char; RGroup 1 (RSet false [CRange 65 71]);
       star space; RGroup 2 (plus digit); star space; text "kg"; star space; text "CO"].
(** r"Entre\s*([\d\s]+)\s*€\s*et\s*([\d\s]+)\s*€\s*par\s*an" *)
Definition bill_pattern : regex :=
  cat [text "Entre"; star space; RGroup 1 (plus digits_spaces); star space; euro;
       star space; text "et"; star space; RGroup 2 (plus digits_spaces); star space;
       euro; star space; text "par"; star space; text "an"].
(** r"Réf\.\s*(?:de l'annonce\s*" r")?:\s*(\S+)" *)
Definition ref_pattern : regex :=
  cat [text "Réf."; star space; opt (cat [text "de l'annonce"; star space]);
       text ":"; star space; RGroup 1 (plus (RSet true [CSpace]))].
(** r"Publiée?\s+le\s+(\d+\s+\w+\.?\s+\d+)" and
    r"Modifiée?\s+le\s+(\d+\s+\w+\.?\s+\d+)" *)
Definition date_words : regex :=
  RGroup 1 (cat [plus digit; plus space; plus word; opt (text "."); plus space;
                 plus digit]).
Definition pub_pattern : regex :=
  cat [text "Publié"; opt (text "e"); plus space; text "le"; plus space; date_words].
Definition mod_pattern : regex :=
  cat [text "Modifié"; opt (text "e"); plus space; text "le"; plus space; date_words].
(** r"À propos de l'agence", r"\d{5}", r"Descriptif de ce" *)
Definition agency_heading : regex := text "À propos de l'agence".
Definition five_digits : regex := cat [digit; digit; digit; digit; digit].
Definition desc_heading : regex := text "Descriptif de ce".

(** The fallback scan for an energy letter in a node whose parent has a
    class mentioning "dpe". *)
Fixpoint letter_in_dpe (elems : list navstr) : option pystr :=
  match elems with
  | [] => None
  | elem :: more =>
    match string_parent elem with
    | Some parent =>
      if str_in (py "dpe") (str_lower (class_repr parent))
      then Some (strip (string_text elem))
      else letter_in_dpe more
    | None => letter_in_dpe more
    end
  end.

(** The first block of the agency section that holds a five-digit code
    in under 100 characters. *)
Fixpoint address_in (elems : list tag) : option pystr :=
  match elems with
  | [] => None
  | elem :: more =>
    let text_ := get_text_strip elem in
    if searches five_digits text_ && (length text_ <? 100)%nat
    then Some text_
    else address_in more
  end.

(** [parse_property_detail], one definition per field pass, in the
    order of the source. *)

Definition detail_identity (url : pystr) : record :=
  let prop : record := {[ py "url" := VStr url ]} in
  let parts := split_char 47 (rstrip_char 47 url) in
  <[py "listing_id" :=
      VStr (default [] (head (split_char 63 (default [] (last parts)))))]> prop.

Definition detail_title (soup : tag) (prop : record) : result record :=
  match find soup (py "h1") with
  | Some h1 =>
    let title := get_text_strip h1 in
    parsed ← parse_title_text title;
    Ok (dict_update (<[py "title" := VStr title]> prop) parsed)
  | None => Ok prop
  end.

Definition detail_price (page_text : pystr) (prop : record) : result record :=
  match re_search price_pattern page_text with
  | Some price_match =>
    price ← parse_price (group0 price_match);
    Ok (<[py "price" := some_int price]> prop)
  | None => Ok prop
  end.

Definition detail_price_per_sqm (page_text : pystr) (prop : record) : result record :=
  match re_search sqm_pattern page_text with
  | Some price_per_sqm_match =>
    v ← parse_price_per_sqm (group0 price_per_sqm_match);
    Ok (<[py "price_per_sqm" := some_float v]> prop)
  | None => Ok prop
  end.

Definition detail_fees (page_text : pystr) (prop : record) : result record :=
  match re_search fees_pattern page_text with
  | Some fees_match =>
    f ← py_float (replace_char 44 46 (group_str fees_match 1));
    Ok (<[py "agency_fees_percent" := VFloat f]> prop)
  | None => Ok prop
  end.

Definition detail_price_without_fees (page_text : pystr) (prop : record) : result record :=
  match re_search price_hors_pattern page_text with
  | Some price_hors_match =>
    price ← parse_price (group_str price_hors_match 1);
    Ok (<[py "price_without_fees" := some_int price]> prop)
  | None => Ok prop
  end.

Definition detail_floor (page_text : pystr) (prop : record) : record :=
  match re_search floor_pattern page_text with
  | Some floor_match =>
    if str_in (py "Rez-de-chaussée") (group0 floor_match)
    then <[py "floor" := VStr (py "0")]> prop
    else <[py "floor" := from_option VStr VNone (group floor_match 1)]> prop
  | None => prop
  end.

Definition detail_exposure (page_text : pystr) (prop : record) : record :=
  match re_search exposure_pattern page_text with
  | Some exposure_match =>
    <[py "exposure" := VStr (strip (group_str exposure_match 1))]> prop
  | None => prop
  end.

Definition detail_heating (page_text : pystr) (prop : record) : record :=
  match re_search heating_pattern page_text with
  | Some heating_match =>
    <[py "heating_type" := VStr (strip (group_str heating_match 1))]> prop
  | None => prop
  end.

Definition detail_dpe_date (page_text : pystr) (prop : record) : record :=
  match re_search dpe_date_pattern page_text with
  | Some dpe_date_match => <[py "dpe_date" := VStr (group_str dpe_date_match 1)]> prop
  | None => prop
  end.

Definition detail_energy (soup : tag) (prop : record) : result record :=
  match find_string soup (searches energy_heading) with
  | Some energy_section =>
    if nonempty (string_text energy_section)
    then
      match string_parent energy_section with
      | Some parent =>
        match re_search rating_pattern (get_text parent) with
        | Some rating_match =>
          n ← py_int (group_str rating_match 2);
          Ok (<[py "energy_consumption" := VInt n]>
                (<[py "energy_rating" := VStr (group_str rating_match 1)]> prop))
        | None => Ok prop
        end
      | None => Ok prop
      end
    else Ok prop
  | None => Ok prop
  end.

Definition detail_energy_letter (soup : tag) (prop : record) : record :=
  if truthy (dict_get prop (py "energy_rating")) then prop
  else
    match letter_in_dpe (find_all_string soup (searches letter_pattern)) with
    | Some letter => <[py "energy_rating" := VStr letter]> prop
    | None => prop
    end.

Definition detail_ges (page_text : pystr) (prop : record) : result record :=
  match re_search_i ges_pattern page_text with
  | Some ges_match =>
    n ← py_int (group_str ges_match 2);
    Ok (<[py "ges_emission" := VInt n]>
          (<[py "ges_rating" := VStr (group_str ges_match 1)]> prop))
  | None => Ok prop
  end.

Definition detail_energy_bill (page_text : pystr) (prop : record) : result record :=
  match re_search bill_pattern page_text with
  | Some bill_match =>
    lo ← parse_price (group_str bill_match 1);
    hi ← parse_price (group_str bill_match 2);
    Ok (<[py "energy_bill_max" := some_int hi]>
          (<[py "energy_bill_min" := some_int lo]> prop))
  | None => Ok prop
  end.

Definition detail_mandate (page_text : pystr) (prop : record) : record :=
  if str_in (py "exclusivité") (str_lower page_text)
  then <[py "mandate_type" := VStr (py "exclusive")]> prop
  else prop.

Definition detail_reference (page_text : pystr) (prop : record) : record :=
  match re_search ref_pattern page_text with
  | Some ref_match => <[py "reference" := VStr (group_str ref_match 1)]> prop
  | None => prop
  end.

Definition detail_dates (page_text : pystr) (prop : record) : record :=
  let prop :=
    match re_search pub_pattern page_text with
    | Some pub_match => <[py "published_date" := VStr (group_str pub_match 1)]> prop
    | None => prop
    end in
  match re_search mod_pattern page_text with
  | Some mod_match => <[py "modified_date" := VStr (group_str mod_match 1)]> prop
  | None => prop
  end.

Definition detail_agency (soup : tag) (prop : record) : record :=
  match find_string soup (searches agency_heading) with
  | Some agency_section =>
    if nonempty (string_text agency_section)
    then
      match string_parent agency_section with
      | Some parent =>
        let prop :=
          match find parent (py "h1") with
          | Some h1_agency => <[py "agency_name" := VStr (get_text_strip h1_agency)]> prop
          | None => prop
          end in
        match address_in (find_all parent [py "div"; py "span"; py "p"]) with
        | Some address => <[py "agency_address" := VStr address]> prop
        | None => prop
        end
      | None => prop
      end
    else prop
  | None => prop
  end.

Definition detail_description (soup : tag) (prop : record) : record :=
  match find_string soup (searches desc_heading) with
  | Some desc_section =>
    if nonempty (string_text desc_section)
    then
      match string_parent desc_section with
      | Some parent =>
        match or_else (find_next_sibling parent) (tag_parent parent) with
        | Some desc_div =>
          <[py "description" := VStr (take 2000 (get_text_strip desc_div))]> prop
        | None => prop
        end
      | None => prop
      end
    else prop
  | None => prop
  end.

Definition parse_property_detail (html url : pystr) : result record :=
  let soup := BeautifulSoup html in
  let prop := detail_identity url in
  prop ← detail_title soup prop;
  let page_text := get_text soup in
  prop ← detail_price page_text prop;
  prop ← detail_price_per_sqm page_text prop;
  prop ← detail_fees page_text prop;
  prop ← detail_price_without_fees page_text prop;
  let prop := detail_floor page_text prop in
  let prop := detail_exposure page_text prop in
  let prop := detail_heating page_text prop in
  let prop := detail_dpe_date page_text prop in
  prop ← detail_energy soup prop;
  let prop := detail_energy_letter soup prop in
  prop ← detail_ges page_text prop;
  prop ← detail_energy_bill page_text prop;
  let prop := detail_mandate page_text prop in
  let prop := detail_reference page_text prop in
  let prop := detail_dates page_text prop in
  let prop := detail_agency soup prop in
  let prop := detail_description soup prop in
  let prop := set_tags page_text prop in
  Ok (set_contract_type url prop).

End utils.

(** ** A concrete document model for evaluation

    A parsed document as a tree of tags and strings, with the
    navigation BeautifulSoup documents for such trees (tags and plain
    strings; no comments, scripts or entities). A handle is the tree and
    the path of child indices to the node. *)

Local Unset Elimination Schemes.
Inductive node :=
| Text (s : pystr)
| Elem (name : pystr) (attrs : list (pystr * pystr)) (children : list node).

Local Set Elimination Schemes.

Definition is_elem (n : node) : bool :=
  match n with
  | Elem _ _ _ => true
  | Text _ => false
  end.

Fixpoint node_at (n : node) (path : list nat) : option node :=
  match path with
  | [] => Some n
  | i :: p =>
    match n with
    | Elem _ _ cs => c ← cs !! i; node_at c p
    | Text _ => None
    end
  end.

(** The descendants of a node in document order, with their paths. *)
Fixpoint descendants (n : node) (path : list nat) : list (list nat * node) :=
  match n with
  | Text _ => []
  | Elem _ _ cs =>
    (fix go (cs : list node) (i : nat) : list (list nat * node) :=
       match cs with
       | [] => []
       | c :: t => (path ++ [i], c) :: descendants c (path ++ [i]) ++ go t (S i)
       end) cs 0%nat
  end.

Definition handle : Type := node * list nat.

Definition below (h : handle) : list (list nat * node) :=
  match node_at h.1 h.2 with
  | Some n => descendants n h.2
  | None => []
  end.

Definition tags_below (h : handle) (p : pystr → list (pystr * pystr) → bool) : list handle :=
  omap (λ '(path, n),
          match n with
          | Elem name attrs _ => if p name attrs then Some (h.1, path) else None
          | Text _ => None
          end) (below h).

Definition strings_below (h : handle) : list (handle * pystr) :=
  omap (λ '(path, n),
          match n with
          | Text s => Some ((h.1, path), s)
          | Elem _ _ _ => None
          end) (below h).

Fixpoint attr (name : pystr) (attrs : list (pystr * pystr)) : option pystr :=
  match attrs with
  | [] => None
  | (k, v) :: t => if bool_decide (k = name) then Some v else attr name t
  end.

Definition handle_attr (h : handle) (name : pystr) : option pystr :=
  match node_at h.1 h.2 with
  | Some (Elem _ attrs _) => attr name attrs
  | _ => None
  end.

Definition parent_of (h : handle) : option handle :=
  match h.2 with
  | [] => None
  | _ => Some (h.1, removelast h.2)
  end.

Definition next_sibling_tag (h : handle) : option handle :=
  up ← parent_of h;
  i ← last h.2;
  match node_at up.1 up.2 with
  | Some (Elem _ _ cs) =>
    '(j, _) ← list_find (λ c, is_elem c = true) (drop (S i) cs);
    Some (h.1, up.2 ++ [(S i + j)%nat])
  | _ => None
  end.

(** Words of a class attribute, and the [repr] of their list. *)
Fixpoint words_of `{PyRuntime} (s : pystr) (cur : pystr) : list pystr :=
  match s with
  | [] => if nonempty cur then [reverse cur] else []
  | c :: t =>
    if is_space c
    then (if nonempty cur then [reverse cur] else []) ++ words_of t []
    else words_of t (c :: cur)
  end.

Fixpoint join (sep : pystr) (l : list pystr) : pystr :=
  match l with
  | [] => []
  | [x] => x
  | x :: t => x ++ sep ++ join sep t
  end.

Definition list_repr (l : list pystr) : pystr :=
  py "[" ++ join (py ", ") (map (λ w, py "'" ++ w ++ py "'") l) ++ py "]".

Global Instance dom_bs4 `{PyRuntime} (parser : pystr → node) : BS4 := {|
  tag := handle;
  navstr := handle * pystr;
  BeautifulSoup html := (parser html, []);
  find h name := head (tags_below h (λ n _, bool_decide (n = name)));
  find_all h names := tags_below h (λ n _, bool_decide (n ∈ names));
  find_href h name p :=
    head (tags_below h (λ n attrs,
            bool_decide (n = name) && from_option p false (attr (py "href") attrs)));
  find_string h p := head (filter (λ hs, p hs.2 = true) (strings_below h));
  find_all_string h p := filter (λ hs, p hs.2 = true) (strings_below h);
  get_text h := concat (map snd (strings_below h));
  get_text_strip h :=
    concat (filter (λ s, s ≠ []) (map (λ hs, strip hs.2) (strings_below h)));
  tag_parent := parent_of;
  string_parent hs := parent_of hs.1;
  find_next_sibling := next_sibling_tag;
  string_text hs := hs.2;
  get_href h := handle_attr h (py "href");
  class_repr h := list_repr (words_of (default [] (handle_attr h (py "class"))) []);
|}.

(** What the lxml parser builds from text without markup: the text in
    one paragraph of the body. *)
Definition plain_text (html : pystr) : node :=
  Elem (py "[document]") []
    [Elem (py "html") [] [Elem (py "body") [] [Elem (py "p") [] [Text html]]]].

(** ** Effects

    A computation of scraper.py reads the trace of what happened so far
    and extends it; it returns a value or raises. *)

Definition M (A : Type) : Type := list event → result A * list event.

Global Instance M_ret : MRet M := λ A a tr, (Ok a, tr).

Global Instance M_bind : MBind M := λ A B f m tr,
  match m tr with
  | (Ok a, tr') => f a tr'
  | (Raise e, tr') => (Raise e, tr')
  end.

Definition emit (e : event) : M unit := λ tr, (Ok (), tr ++ [e]).

Definition emit_all (es : list event) : M unit := λ tr, (Ok (), tr ++ es).

Definition log (lvl : level) (msg : message) : M unit := emit (Log lvl msg).

Definition raise {A} (e : exn) : M A := λ tr, (Raise e, tr).

Definition lift {A} (r : result A) : M A := λ tr, (r, tr).

(** [try: m except Exception as e: h e]. *)
Definition except {A} (m : M A) (h : exn → M A) : M A := λ tr,
  match m tr with
  | (Ok a, tr') => (Ok a, tr')
  | (Raise e, tr') => h e tr'
  end.

(** A [for] loop over a list, threading an accumulator. *)
Fixpoint for_each {A S} (l : list A) (body : A → S → M S) (s : S) : M S :=
  match l with
  | [] => mret s
  | x :: t => s' ← body x s; for_each t body s'
  end.

(** A Python dict keyed by values, in insertion order. *)
Definition odict (V : Type) : Type := list (value * V).

Fixpoint odict_get {V} (k : value) (d : odict V) : option V :=
  match d with
  | [] => None
  | (k', v) :: t => if py_eq k' k then Some v else odict_get k t
  end.

Fixpoint odict_set {V} (k : value) (v : V) (d : odict V) : odict V :=
  match d with
  | [] => [(k, v)]
  | (k', v') :: t => if py_eq k' k then (k', v) :: t else (k', v') :: odict_set k v t
  end.

(** [l[:n]]. *)
Definition slice_to {A} (n : Z) (l : list A) : list A :=
  if (n <? 0)%Z then take (length l - Z.to_nat (- n)) l else take (Z.to_nat n) l.

(** [str(n)] for an integer. *)
Definition str_of_int (n : Z) : pystr := py (pretty n).

(** ** scraper.py *)

Record BieniciScraper := {
  api_key : pystr;
  max_workers : Z;
  timeout : Z;
}.

(** The fields for which detail data wins over index data. *)
Definition always_prefer_detail : list pystr :=
  [ py "description"; py "agency_name"; py "agency_address";
    py "energy_rating"; py "ges_rating"; py "floor"; py "exposure";
    py "heating_type"; py "published_date"; py "modified_date";
    py "reference"; py "mandate_type"; py "energy_consumption";
    py "ges_emission"; py "energy_bill_min"; py "energy_bill_max";
    py "price_without_fees"; py "agency_fees_percent" ].

(** The body of the merge loop of [_enrich_with_details]: one item of
    [detail.items()] against the copy of the index record. *)
Definition merge_item (key : pystr) (value_ : value) (merged : record) : record :=
  if truthy value_
     && (negb (truthy (dict_get merged key))
         || bool_decide (key ∈ always_prefer_detail))
  then <[key := value_]> merged
  else merged.

(** The merge of [_enrich_with_details]: [merged = index.copy()], then
    the loop over [detail.items()]. Each key occurs once in a dict and
    an item only touches its own key, so the order of the items does not
    show in the result. *)
Definition merge_detail (index detail : record) : record :=
  map_fold merge_item index detail.

(** [value in seen] for a Python set, kept as the list of its elements. *)
Definition set_mem (v : value) (seen : list value) : bool := existsb (py_eq v) seen.

(** The deduplication loop of [scrape]. *)
Fixpoint dedupe_loop (all_properties : list record) (seen : list value)
    (unique_properties : list record) : list record :=
  match all_properties with
  | [] => unique_properties
  | prop :: more =>
    let listing_id := dict_get prop (py "listing_id") in
    if truthy listing_id && negb (set_mem listing_id seen)
    then dedupe_loop more (listing_id :: seen) (unique_properties ++ [prop])
    else dedupe_loop more seen unique_properties
  end.

Definition dedupe (all_properties : list record) : list record :=
  dedupe_loop all_properties [] [].

(** [if limit: unique_properties = unique_properties[:limit]]. *)
Definition apply_limit (limit : option Z) (unique_properties : list record) : list record :=
  match limit with
  | Some n => if (n =? 0)%Z then unique_properties else slice_to n unique_properties
  | None => unique_properties
  end.

(** The page estimate of [scrape]. *)
Definition estimate_total_pages (total_count : Z) (first_page_properties : list record) : Z :=
  let listings_per_page := Z.max (Z.of_nat (length first_page_properties)) 24 in
  ((total_count + listings_per_page - 1) `div` listings_per_page)%Z.

Definition falsy_html (html : option pystr) : bool :=
  match html with
  | Some (_ :: _) => false
  | _ => true
  end.

Section scraper.
Context `{PyRuntime} `{BS4}.

(** [config.SCRAPINGANT_API_KEY]: the environment variable as read when
    the module is imported, the empty string when it is not set. *)
Variable SCRAPINGANT_API_KEY : pystr.

(** The transport: what [session.get], [raise_for_status] and
    [response.text] give for a request after the events so far; [None]
    stands for a [RequestException]. *)
Variable http : list event → value → pystr → Z → option pystr.

(** [datetime.now().isoformat()] after the events so far. *)
Variable clock : list event → pystr.

(** The order in which the pool completes a batch of tasks. The tasks
    of a batch are run one after the other in that order: how the
    requests of concurrent tasks interleave is not followed. *)
Variable as_completed : list event → ∀ A : Type, list A → list A.

(** [BieniciScraper.__init__]; an argument left out is [None]. *)
Definition BieniciScraper_init (api_key_ : option pystr) (max_workers_ : option Z)
    (timeout_ : option Z) : M BieniciScraper :=
  let key :=
    match api_key_ with
    | Some k => if nonempty k then k else SCRAPINGANT_API_KEY
    | None => SCRAPINGANT_API_KEY
    end in
  if negb (nonempty key) then raise ValueError
  else
    mret {| api_key := key;
            max_workers := default 5%Z max_workers_;
            timeout := default DEFAULT_TIMEOUT timeout_ |}.

Definition session_get (self : BieniciScraper) (url : value) : M (option pystr) :=
  λ tr, (Ok (http tr url (api_key self) (timeout self)),
         tr ++ [Request url (api_key self) (timeout self)]).

(** The attempts of [_fetch_page] from [attempt] on. *)
Fixpoint fetch_attempts (self : BieniciScraper) (url : value) (retries attempt todo : nat)
    : M (option pystr) :=
  match todo with
  | O => _ ← log ERROR (FailedToFetch url retries); mret None
  | S todo' =>
    response ← session_get self url;
    match response with
    | Some text_ => mret (Some text_)
    | None =>
      _ ← log WARNING (RequestFailed (attempt + 1) retries);
      _ ← (if (Z.of_nat attempt <? Z.of_nat retries - 1)%Z
           then
             let wait_time := (2 ^ Z.of_nat attempt + 5)%Z in
             _ ← log INFO (WaitingBeforeRetry wait_time);
             emit (Sleep wait_time)
           else mret ());
      fetch_attempts self url retries (S attempt) todo'
    end
  end.

Definition _fetch_page (self : BieniciScraper) (url : value) : M (option pystr) :=
  fetch_attempts self url MAX_RETRIES 0 MAX_RETRIES.

Definition _build_search_url (location contract_type property_type : pystr) (page : Z) : pystr :=
  let location_code := default location (LOCATIONS !! str_lower location) in
  let contract := default (py "achat") (CONTRACT_TYPES !! str_lower contract_type) in
  let url_parts := [SEARCH_URL; contract; location_code] in
  let prop_type := default [] (PROPERTY_TYPES !! str_lower property_type) in
  let url_parts := if nonempty prop_type then url_parts ++ [prop_type] else url_parts in
  let url := join (py "/") url_parts in
  if (1 <? page)%Z then url ++ py "?page=" ++ str_of_int page else url.

Definition scrape_page (self : BieniciScraper) (location contract_type property_type : pystr)
    (page : Z) : M (Z * list record) :=
  let url := _build_search_url location contract_type property_type page in
  _ ← log DEBUG (FetchingPage page url);
  html ← _fetch_page self (VStr url);
  if falsy_html html then mret (0%Z, [])
  else
    let html := default [] html in
    total_count ← (if (page =? 1)%Z then lift (parse_total_count html) else mret 0%Z);
    let '(properties, warnings) := parse_listings_from_page html in
    _ ← emit_all warnings;
    mret (total_count, properties).

(** [scrape_detail]. The URL comes from a record and may be any value;
    [parse_property_detail] calls [url.rstrip], an [AttributeError] on a
    value that is no [str]. *)
Definition scrape_detail (self : BieniciScraper) (url : value) : M (option record) :=
  _ ← log DEBUG (FetchingDetail url);
  html ← _fetch_page self url;
  if falsy_html html then mret None
  else
    match url with
    | VStr u => detail ← lift (parse_property_detail (default [] html) u); mret (Some detail)
    | _ => raise AttributeError
    end.

(** [ThreadPoolExecutor(max_workers=n)]: a [ValueError] unless [n] is
    positive. *)
Definition thread_pool (n : Z) : M unit :=
  if (n <=? 0)%Z then raise ValueError else emit (Pool n).

Definition completion {A} (tasks : list A) : M (list A) :=
  λ tr, (Ok (as_completed tr A tasks), tr).

(** One completed detail task of [_enrich_with_details]. *)
Definition enrich_one (self : BieniciScraper) (url : value) (prop_by_url : odict record)
    : M (odict record) :=
  except
    (detail ← scrape_detail self url;
     match detail, odict_get url prop_by_url with
     | Some detail, Some index =>
       if bool_decide (detail ≠ ∅)
       then mret (odict_set url (merge_detail index detail) prop_by_url)
       else mret prop_by_url
     | _, _ => mret prop_by_url
     end)
    (λ e, _ ← log WARNING (ErrorFetchingDetail url e); mret prop_by_url).

Definition _enrich_with_details (self : BieniciScraper) (properties : list record)
    : M (list record) :=
  let urls :=
    omap (λ p : record,
            let url := dict_get p (py "url") in
            if truthy url then Some url else None) properties in
  match urls with
  | [] => mret properties
  | _ =>
    let prop_by_url :=
      foldl (λ d (p : record), odict_set (dict_get p (py "url")) p d) [] properties in
    _ ← thread_pool (max_workers self);
    order ← completion urls;
    prop_by_url ← for_each order (enrich_one self) prop_by_url;
    mret (prop_by_url.*2)
  end.

(** One completed page task of [scrape]. *)
Definition page_task (self : BieniciScraper) (location contract_type property_type : pystr)
    (page : Z) (all_properties : list record) : M (list record) :=
  except
    ('(_, page_properties) ← scrape_page self location contract_type property_type page;
     _ ← log INFO (PageFound page (length page_properties));
     mret (all_properties ++ page_properties))
    (λ e, _ ← log ERROR (ErrorFetchingPage page e); mret all_properties).

(** The conversion loop of [scrape]. *)
Definition build_property (prop_dict : record) (properties : list Property)
    : M (list Property) :=
  λ tr,
    match Property_new (clock tr) prop_dict with
    | Ok p => (Ok (properties ++ [p]), tr)
    | Raise e => (Ok properties, tr ++ [Log WARNING (FailedToCreateProperty e)])
    end.

(** [scrape], first part: the first page, the estimate and the
    remaining pages. [None] stands for the early [return []]. *)
Definition collect_pages (self : BieniciScraper)
    (location contract_type property_type : pystr) (max_pages : option Z)
    : M (option (list record)) :=
  _ ← log INFO (StartingScrape property_type contract_type location);
  let url := _build_search_url location contract_type property_type 1 in
  _ ← log INFO (FetchingFirstPage url);
  html ← _fetch_page self (VStr url);
  if falsy_html html then _ ← log WARNING FailedToFetchFirstPage; mret None
  else
    let html := default [] html in
    total_count ← lift (parse_total_count html);
    let '(first_page_properties, warnings) := parse_listings_from_page html in
    _ ← emit_all warnings;
    match first_page_properties with
    | [] => _ ← log WARNING NoPropertiesOnFirstPage; mret None
    | _ =>
      let total_pages := estimate_total_pages total_count first_page_properties in
      _ ← log INFO (FoundProperties total_count total_pages);
      let pages_to_scrape :=
        match max_pages with
        | Some m => if (m =? 0)%Z then total_pages else Z.min total_pages m
        | None => total_pages
        end in
      _ ← log INFO (WillScrape pages_to_scrape);
      all_properties ←
        (if (1 <? pages_to_scrape)%Z
         then
           _ ← thread_pool (max_workers self);
           order ← completion (seqZ 2 (pages_to_scrape - 1));
           for_each order (page_task self location contract_type property_type)
             first_page_properties
         else mret first_page_properties);
      mret (Some all_properties)
    end.

(** [scrape], second part: deduplication, limit, details, records. *)
Definition reconcile (self : BieniciScraper) (all_properties : list record)
    (limit : option Z) (fetch_details : bool) : M (list Property) :=
  let unique_properties := apply_limit limit (dedupe all_properties) in
  _ ← log INFO (CollectedUnique (length unique_properties));
  unique_properties ←
    (if fetch_details
     then _ ← log INFO FetchingDetailPages; _enrich_with_details self unique_properties
     else mret unique_properties);
  properties ← for_each unique_properties build_property [];
  _ ← log INFO (SuccessfullyScraped (length properties));
  mret properties.

Definition scrape (self : BieniciScraper) (location contract_type property_type : pystr)
    (max_pages limit : option Z) (fetch_details : bool) : M (list Property) :=
  collected ← collect_pages self location contract_type property_type max_pages;
  match collected with
  | None => mret []
  | Some all_properties => reconcile self all_properties limit fetch_details
  end.

End scraper.

(** ** main.py

    [main] from the parsed arguments on: the parsing of the command
    line, the configuration of the logger and an interrupt from the
    keyboard are left out. The file system is a parameter: opening the
    CSV file, each write to it and its closing may raise. *)

(** The parsed command line, by destination. *)
Record Namespace := {
  args_location : pystr;
  args_contract : pystr;
  args_property : pystr;
  args_output : pystr;
  args_limit : option Z;
  args_max_pages : option Z;
  args_max_workers : Z;
  args_no_details : bool;
  args_api_key : option pystr;
  args_verbose : bool;
}.

(** The defaults of the parser's arguments. *)
Definition default_args : Namespace :=
  {| args_location := py "paris";
     args_contract := py "buy";
     args_property := py "all";
     args_output := py "properties.csv";
     args_limit := None;
     args_max_pages := None;
     args_max_workers := DEFAULT_MAX_WORKERS;
     args_no_details := false;
     args_api_key := None;
     args_verbose := false |}.

(** The log messages of main.py, by template. *)
Inductive cli_message :=
| NoPropertiesToExport
| Exported (n : nat) (output_path : pystr)
| ScrapedProperties (n : nat)
| NoPropertiesFound
| ConfigurationError (e : exn)
| UnexpectedError (e : exn).

(** The CSV file as handed to the writer: its path, the header and the
    rows of values in header order. *)
Record csv_file := {
  csv_path : pystr;
  csv_fieldnames : list pystr;
  csv_rows : list (list value);
}.

(** The file system as [export_to_csv] meets it. Each operation tells
    what it raises, if anything: [open(path, "w", ...)], the write of
    one line to the file at [path] after the lines already written, and
    the closing of the file when the [with] block is left. *)
Record file_system := {
  fs_open : pystr → option exn;
  fs_write : pystr → list (list value) → list value → option exn;
  fs_close : pystr → option exn;
}.

Definition raising (failure : option exn) : result () :=
  match failure with
  | Some e => Raise e
  | None => Ok ()
  end.

(** [csv.DictWriter.writerow], the check of the row: a [ValueError]
    when the row has a key that is no field name; a field name without
    a value is written as the empty string. *)
Definition writerow (fieldnames : list pystr) (rowdict : list (pystr * value))
    : result (list value) :=
  if forallb (λ kv : pystr * value, bool_decide (kv.1 ∈ fieldnames)) rowdict
  then Ok (map (λ key, default (VStr []) (field_lookup key rowdict)) fieldnames)
  else Raise ValueError.

(** [writer.writeheader()]: the field names, as a row. *)
Definition header (fieldnames : list pystr) : list value := map VStr fieldnames.

(** The loop over the properties: each row is checked, then written
    after the header and the rows written so far. *)
Fixpoint writerows (fs : file_system) (output_path : pystr) (fieldnames : list pystr)
    (rows : list (list value)) (properties : list Property)
    : result (list (list value)) :=
  match properties with
  | [] => Ok rows
  | prop :: more =>
    row ← writerow fieldnames (to_dict prop);
    _ ← raising (fs_write fs output_path (header fieldnames :: rows) row);
    writerows fs output_path fieldnames (rows ++ [row]) more
  end.

(** [with open(path, "w", ...) as f: block]: the block runs when the
    file opens; the file is closed however the block ends, and what the
    closing raises replaces what the block raised. *)
Definition with_open {A : Type} (fs : file_system) (output_path : pystr)
    (block : result A) : result A :=
  _ ← raising (fs_open fs output_path);
  match fs_close fs output_path with
  | Some e => Raise e
  | None => block
  end.

(** [export_to_csv]: what it logs and the file it has written. *)
Definition export_to_csv (fs : file_system) (properties : list Property)
    (output_path : pystr) : result (list (level * cli_message) * option csv_file) :=
  match properties with
  | [] => Ok ([(WARNING, NoPropertiesToExport)], None)
  | first :: _ =>
    let fieldnames := (to_dict first).*1 in
    rows ← with_open fs output_path
               (_ ← raising (fs_write fs output_path [] (header fieldnames));
                writerows fs output_path fieldnames [] properties);
    Ok ([(INFO, Exported (length properties) output_path)],
        Some {| csv_path := output_path; csv_fieldnames := fieldnames; csv_rows := rows |})
  end.

(** How a run of [main] ends: the exit status of the process, what
    [main] itself logged after the scraper's events, and the file it
    has written in full, if any. *)
Record outcome := {
  exit_status : Z;
  cli_log : list (level * cli_message);
  written : option csv_file;
}.

(** The handlers of [main]: [ValueError], then [Exception]. *)
Definition main_except (e : exn) : outcome :=
  {| exit_status := 1;
     cli_log := [(ERROR, if bool_decide (e = ValueError) then ConfigurationError e
                         else UnexpectedError e)];
     written := None |}.

Section main.
Context `{PyRuntime} `{BS4}.
Variable SCRAPINGANT_API_KEY : pystr.
Variable http : list event → value → pystr → Z → option pystr.
Variable clock : list event → pystr.
Variable as_completed : list event → ∀ A : Type, list A → list A.
Variable fs : file_system.

(** [main], from the parsed arguments on. *)
Definition main (args : Namespace) (tr : list event) : outcome * list event :=
  match BieniciScraper_init SCRAPINGANT_API_KEY (args_api_key args)
          (Some (args_max_workers args)) None tr with
  | (Raise e, tr) => (main_except e, tr)
  | (Ok scraper, tr) =>
    match scrape http clock as_completed scraper (args_location args)
            (args_contract args) (args_property args) (args_max_pages args)
            (args_limit args) (negb (args_no_details args)) tr with
    | (Raise e, tr) => (main_except e, tr)
    | (Ok [], tr) =>
      ({| exit_status := 1; cli_log := [(WARNING, NoPropertiesFound)];
          written := None |}, tr)
    | (Ok properties, tr) =>
      match export_to_csv fs properties (args_output args) with
      | Raise e => (main_except e, tr)
      | Ok (logged, file) =>
        ({| exit_status := 0;
            cli_log := logged ++ [(INFO, ScrapedProperties (length properties))];
            written := file |}, tr)
      end
    end
  end.

End main.

(** * Specification-side definitions and example data *)

(** Merge precedence: the records of the specification's example. *)
Definition example_index : record :=
  {[ py "price" := VInt 300000 ]}.

Definition example_detail : record :=
  <[ py "description" := VStr (py "x") ]> {[ py "price" := VInt 310000 ]}.

Definition listing_id_of (prop : record) : value := dict_get prop (py "listing_id").

(** Deduplication as the specification words it: the records whose
    listing_id is present and non-empty and is the listing_id of no
    earlier record, in their order. *)
Fixpoint first_occurrences (earlier records : list record) : list record :=
  match records with
  | [] => []
  | r :: more =>
    let first_time :=
      forallb (λ q, negb (py_eq (listing_id_of r) (listing_id_of q))) earlier in
    (if truthy (listing_id_of r) && first_time then [r] else [])
    ++ first_occurrences (earlier ++ [r]) more
  end.

(** Index records with listing_ids A, B, A, C; the two records of A
    differ in their title. *)
Definition listing (id title : string) : record :=
  <[ py "title" := VStr (py title) ]> {[ py "listing_id" := VStr (py id) ]}.

Definition example_pages : list record :=
  [listing "A" "first"; listing "B" "second"; listing "A" "third"; listing "C" "fourth"].

(** Price texts: ASCII digits, spaces and non-breaking spaces; the
    integer their digits denote, read in order; and whether their digits
    are within the interpreter's limit on integer conversions. *)
Definition ascii_digit (c : N) : bool := (48 <=? c) && (c <=? 57).

Definition digits_in_order (s : pystr) : Z :=
  foldl (λ acc c, if ascii_digit c then 10 * acc + Z.of_N (c - 48) else acc)%Z 0%Z s.

Definition price_text (s : pystr) : Prop :=
  Forall (λ c, ascii_digit c = true ∨ c = 32 ∨ c = 160) s.

Definition within_digit_limit `{PyRuntime} (s : pystr) : bool :=
  (int_max_str_digits =? 0)
  || (N.of_nat (length (filter (λ c, ascii_digit c = true) s)) <=? int_max_str_digits).

(** A price of 4301 digits. *)
Definition long_price : pystr := replicate 4301 49.

(** ** A concrete world for evaluation

    A scraper with the constructor's defaults, a transport that answers
    every request with the same page, a fixed clock, and a pool that
    completes its tasks last first. Pages are text without markup. *)

Definition example_self : BieniciScraper :=
  {| api_key := py "key"; max_workers := 5; timeout := 120 |}.

Definition example_clock (tr : list event) : pystr := py "2024-05-01T12:00:00".

Definition serve (page : pystr) (tr : list event) (url : value) (key : pystr)
    (seconds : Z) : option pystr :=
  Some page.

Definition last_first (tr : list event) (A : Type) (tasks : list A) : list A :=
  reverse tasks.

Definition listing_url (id : string) : pystr :=
  BASE_URL ++ py "/annonce/vente/paris/" ++ py id.

Definition index_record (id : string) : record :=
  <[ py "listing_id" := VStr (py id) ]> {[ py "url" := VStr (listing_url id) ]}.

Definition plain_page : pystr := py "Appartement 3 pièces".

Definition dpe_page : pystr := py "Date de réalisation du DPE : 12 janvier 2023".

Definition fees_page : pystr := py "Honoraires : 1.2.3 %".

Definition dpe_fees_page : pystr :=
  py "Honoraires : 1.2.3 % Date de réalisation du DPE : 12 janvier 2023".

Definition is_request_to (url : pystr) (e : event) : bool :=
  match e with
  | Request (VStr u) _ _ => bool_decide (u = url)
  | _ => false
  end.

(** ** What a run adds to the trace *)

(** What a computation adds to the trace, and what it returns. *)
Definition run_spec {A} (P : event → Prop) (Q : A → Prop) (m : M A) : Prop :=
  ∀ tr, ∃ new, (m tr).2 = tr ++ new ∧ Forall P new ∧ ∀ a, (m tr).1 = Ok a → Q a.

(** Requests go to the URLs of [U] only. *)
Definition requests_only (U : value → Prop) (e : event) : Prop :=
  match e with
  | Request u _ _ => U u
  | _ => True
  end.

(** The URLs of a list of records. *)
Definition url_of (properties : list record) (u : value) : Prop :=
  ∃ p, p ∈ properties ∧ dict_get p (py "url") = u.

(** A matcher state lies in the subject: its rest is the subject from
    its position on. *)
Definition in_subject (whole : pystr) (s : mstate) : Prop :=
  rest s = drop (pos s) whole.

(** Another key than "dpe_date". *)
Ltac other_key :=
  let Heq := fresh in intros Heq; vm_compute in Heq; discriminate Heq.

(** A pure pass leaves "dpe_date" as it is. *)
Ltac keeps_pure :=
  intros; repeat case_match; rewrite ?lookup_insert_ne by other_key; done.

(** The traces of the two runs over one listing, and three listings. *)
Definition dpe_trace : list event :=
  [ Log INFO (CollectedUnique 1); Log INFO FetchingDetailPages; Pool 5;
    Log DEBUG (FetchingDetail (VStr (listing_url "abc-1")));
    Request (VStr (listing_url "abc-1")) (py "key") 120;
    Log WARNING (FailedToCreateProperty TypeError);
    Log INFO (SuccessfullyScraped 0) ].

Definition dpe_fees_trace : list event :=
  [ Log INFO (CollectedUnique 1); Log INFO FetchingDetailPages; Pool 5;
    Log DEBUG (FetchingDetail (VStr (listing_url "abc-1")));
    Request (VStr (listing_url "abc-1")) (py "key") 120;
    Log WARNING (ErrorFetchingDetail (VStr (listing_url "abc-1")) ValueError);
    Log INFO (SuccessfullyScraped 1) ].

Definition three_listings : list record :=
  [index_record "a"; index_record "b"; index_record "c"].

Definition example_url : pystr := listing_url "abc-123".

(** The record a call returned, the empty one when it raised; and the
    record of the DPE page under the Latin-1 runtime and the plain-text
    parser. *)
Definition returned (r : result record) : record :=
  match r with
  | Ok d => d
  | Raise _ => ∅
  end.

Definition dpe_detail : record :=
  returned (parse_property_detail (H := latin1) (H0 := dom_bs4 plain_text) dpe_page
              (listing_url "abc-1")).

(** An index record with a floor, and a transport that never answers. *)
Definition floor_two : record := {[ py "floor" := VStr (py "2") ]}.

Definition never_answers (tr : list event) (url : value) (key : pystr) (seconds : Z)
    : option pystr := None.

(** The invariant of the deduplication loop: the set [seen] holds
    the listing_ids of the records gone through. *)
Definition seen_agrees (seen : list value) (earlier : list record) : Prop :=
  ∀ w, truthy w = true →
    set_mem w seen = existsb (λ q, py_eq w (listing_id_of q)) earlier.

(** ** Records and their keys *)

(** A record whose keys are all in [allowed]. *)
Definition keys_in (allowed : list pystr) (r : record) : Prop :=
  map_Forall (λ k _, k ∈ allowed) r.

(** The keys [parse_title_text] sets, and the keys a card record has. *)
Definition title_keys : list pystr :=
  map py ["property_type"; "rooms"; "living_area"; "postal_code"; "city"; "district"]%string.

Definition card_keys : list pystr :=
  map py ["url"; "listing_id"; "title"; "price"; "price_per_sqm"; "has_video";
          "is_exclusive"; "price_drop"; "contract_type"]%string
  ++ title_keys.

(** A text without a decimal digit. *)
Definition no_digit `{PyRuntime} (s : pystr) : Prop :=
  Forall (λ c, to_decimal c = None) s.

(** The href of a card's link without its query string, and the URL and
    the listing id the card gets from it. *)
Definition card_href (raw : pystr) : pystr := default [] (head (split_char 63 raw)).

Definition card_url (raw : pystr) : pystr :=
  if starts_with (py "/") (card_href raw) then BASE_URL ++ card_href raw else card_href raw.

Definition card_listing_id (raw : pystr) : pystr :=
  default [] (last (split_char 47 (rstrip_char 47 (card_href raw)))).

(** What every card record holds. *)
Definition card_record (raw : pystr) (prop : record) : Prop :=
  prop !! py "url" = Some (VStr (card_url raw))
  ∧ prop !! py "listing_id" = Some (VStr (card_listing_id raw))
  ∧ keys_in card_keys prop.

(** A record as [parse_listings_from_page] returns them: the record of a
    card, with a URL that is not empty. *)
Definition listing_card (p : record) : Prop :=
  ∃ raw, card_record raw p ∧ card_url raw ≠ [].

(** A URL without a query string that is not relative to the site. *)
Definition absolute_plain (u : pystr) : Prop :=
  (63 ∉ u) ∧ starts_with (py "/") u = false.

(** The listing id [parse_property_detail] reads off a URL. *)
Definition detail_listing_id (url : pystr) : pystr :=
  default [] (head (split_char 63 (default [] (last (split_char 47 (rstrip_char 47 url)))))).

(** What every pass of [parse_property_detail] keeps: the URL, the
    listing id, and keys among [allowed]. *)
Definition detail_record (allowed : list pystr) (url : pystr) (prop : record) : Prop :=
  prop !! py "url" = Some (VStr url)
  ∧ prop !! py "listing_id" = Some (VStr (detail_listing_id url))
  ∧ keys_in allowed prop.

(** The values of [f] on the elements of a list are pairwise different
    under [==]. *)
Fixpoint distinct_by {A} (f : A → value) (l : list A) : bool :=
  match l with
  | [] => true
  | p :: more => forallb (λ q, negb (py_eq (f p) (f q))) more && distinct_by f more
  end.

Definition url_of_record (p : record) : value := dict_get p (py "url").

(** A record with a url and a listing id that are truthy. *)
Definition has_identity (p : record) : Prop :=
  truthy (url_of_record p) = true ∧ truthy (listing_id_of p) = true.

(** [r] is [index] with details: the same url and listing id, and a
    truthy value wherever [index] has one. *)
Definition enriched (index r : record) : Prop :=
  r !! py "url" = index !! py "url"
  ∧ r !! py "listing_id" = index !! py "listing_id"
  ∧ ∀ k, truthy (dict_get index k) = true → truthy (dict_get r k) = true.

(** [P.name] of a [Property]. *)
Definition property_field (name : pystr) (P : Property) : value :=
  default VNone (field_lookup name (to_dict P)).

(** [P] is [Property] called with the record [p], at some moment. *)
Definition built_from (p : record) (P : Property) : Prop :=
  ∃ now, Property_new now p = Ok P.

(** [P] is the [Property] of the unique listing [index]: built from
    [index] with or without details. *)
Definition property_of (index : record) (P : Property) : Prop :=
  ∃ r, enriched index r ∧ built_from r P.

(** Membership in a list of keys, by evaluation. *)
Ltac in_keys := apply (bool_decide_unpack _); vm_compute; exact I.

(** ** Runs *)

(** A computation that returns (does not raise), with what it adds to
    the trace and what it returns. *)
Definition run_ok {A} (P : event → Prop) (Q : A → Prop) (m : M A) : Prop :=
  ∀ tr, ∃ a new, m tr = (Ok a, tr ++ new) ∧ Forall P new ∧ Q a.

(** The events of a scraper: requests carry its key and its timeout,
    waits are of 6 or 7 seconds, pools have its number of workers. *)
Definition by_scraper (self : BieniciScraper) (e : event) : Prop :=
  match e with
  | Request _ key seconds => key = api_key self ∧ seconds = timeout self
  | Sleep seconds => seconds = 6%Z ∨ seconds = 7%Z
  | Pool n => n = max_workers self
  | Log _ _ => True
  end.

Definition is_log (e : event) : Prop :=
  match e with
  | Log _ _ => True
  | _ => False
  end.

Definition is_request (e : event) : bool :=
  match e with
  | Request _ _ _ => true
  | _ => false
  end.

(** The number of requests in a stretch of the trace. *)
Definition request_count (l : list event) : nat :=
  length (filter (λ e, is_request e = true) l).

(** A transport that answers every request with an empty body. *)
Definition empty_body (tr : list event) (url : value) (key : pystr) (seconds : Z)
    : option pystr := Some [].

(** What one failed attempt adds to the trace after its request, and
    the events of three failed attempts at [url]. *)
Definition after_failure (retries attempt : nat) : list event :=
  Log WARNING (RequestFailed (attempt + 1) retries)
  :: (if (Z.of_nat attempt <? Z.of_nat retries - 1)%Z
      then [Log INFO (WaitingBeforeRetry (2 ^ Z.of_nat attempt + 5));
            Sleep (2 ^ Z.of_nat attempt + 5)]
      else []).

Definition failed_fetch (self : BieniciScraper) (url : value) : list event :=
  [ Request url (api_key self) (timeout self);
    Log WARNING (RequestFailed 1 3);
    Log INFO (WaitingBeforeRetry 6); Sleep 6;
    Request url (api_key self) (timeout self);
    Log WARNING (RequestFailed 2 3);
    Log INFO (WaitingBeforeRetry 7); Sleep 7;
    Request url (api_key self) (timeout self);
    Log WARNING (RequestFailed 3 3);
    Log ERROR (FailedToFetch url 3) ].

(** ** A search page for evaluation *)

(** A parser given as the tree it builds. *)
Definition parsed_as (tree : node) (html : pystr) : node := tree.

(** A search page: the count heading and two cards for one listing,
    the first with a query string on its link, a title and prices. *)
Definition search_tree : node :=
  Elem (py "[document]") []
    [Elem (py "html") []
       [Elem (py "body") []
          [ Elem (py "h2") [] [Text (py "1 234 biens à vendre")];
            Elem (py "article") []
              [ Elem (py "a")
                  [(py "href", py "/annonce/vente/paris/appartement/3pieces/ag-1?q=x")]
                  [Elem (py "h3") []
                     [Text (py "Appartement 3 pièces 78 m² 75018 Paris 18e")]];
                Elem (py "div") [] [Text (py "430 000 €")];
                Elem (py "div") [] [Text (py "5 513 €/m²")] ];
            Elem (py "article") []
              [ Elem (py "a")
                  [(py "href", py "/annonce/vente/paris/appartement/3pieces/ag-1")]
                  [Text (py "Voir")] ] ]]].

Definition search_page : pystr := py "<html>...</html>".

(** A scraper without workers. *)
Definition idle_self : BieniciScraper :=
  {| api_key := py "key"; max_workers := 0; timeout := 120 |}.

(** The list a call returned, the empty one when it raised. *)
Definition returned_list {A} (r : result (list A)) : list A :=
  match r with
  | Ok l => l
  | Raise _ => []
  end.

(** A run over the search page: two result pages at most, with
    details. *)
Definition example_scrape : M (list Property) :=
  scrape (H := latin1) (H0 := dom_bs4 (parsed_as search_tree)) (serve search_page)
    example_clock last_first example_self (py "Paris") (py "buy") (py "apartment")
    (Some 2%Z) None true.

(** A [Property] with the declared fields, in declaration order. *)
Definition declared (P : Property) : Prop := (to_dict P).*1 = Property_field_names.

(** A command line with an API key, for two result pages. *)
Definition example_args : Namespace :=
  {| args_location := py "paris";
     args_contract := py "buy";
     args_property := py "all";
     args_output := py "properties.csv";
     args_limit := None;
     args_max_pages := Some 2%Z;
     args_max_workers := DEFAULT_MAX_WORKERS;
     args_no_details := false;
     args_api_key := Some (py "key");
     args_verbose := false |}.

(** The lines of the CSV file of a list of properties: the header, then
    one row of field values for each property. *)
Definition csv_lines (properties : list Property) : list (list value) :=
  header Property_field_names :: map (λ P, (to_dict P).*2) properties.

(** Every write of the lines, each after the lines before it, succeeds. *)
Definition writes_succeed (fs : file_system) (output_path : pystr)
    (lines : list (list value)) : Prop :=
  ∀ k line, lines !! k = Some line → fs_write fs output_path (take k lines) line = None.

(** A file system on which nothing fails, and one on which [open]
    raises for the empty path, as [open("", "w")] does. *)
Definition writable : file_system :=
  {| fs_open := λ _, None; fs_write := λ _ _ _, None; fs_close := λ _, None |}.

Definition named_files_only : file_system :=
  {| fs_open := λ path, if nonempty path then None else Some OSError;
     fs_write := λ _ _ _, None;
     fs_close := λ _, None |}.

(** The command line of [example_args] with an empty output path. *)
Definition example_args_no_output : Namespace :=
  {| args_location := py "paris";
     args_contract := py "buy";
     args_property := py "all";
     args_output := [];
     args_limit := None;
     args_max_pages := Some 2%Z;
     args_max_workers := DEFAULT_MAX_WORKERS;
     args_no_details := false;
     args_api_key := Some (py "key");
     args_verbose := false |}.

(** The entry of a URL in the dict of [_enrich_with_details] holds a
    DPE date. *)
Definition dated_entry (url : pystr) (d : odict record) : Prop :=
  ∃ r, odict_get (VStr url) d = Some r ∧ truthy (dict_get r (py "dpe_date")) = true.

(** What the enrichment gives for each record when the detail page of
    [url] holds a DPE date: the identity of the index record, and a DPE
    date for the record of [url]. *)
Definition enriched_dated (url : pystr) (index r : record) : Prop :=
  has_identity index ∧ enriched index r
  ∧ (url_of_record index = VStr url → is_Some (r !! py "dpe_date")).

(** * Properties *)

(** ** The merge of index and detail records *)

Lemma merge_item_lookup (key : pystr) (v : value) (merged : record) (k : pystr) :
  merge_item key v merged !! k =
    if decide (k = key)
    then (if truthy v
             && (negb (truthy (dict_get merged key))
                 || bool_decide (key ∈ always_prefer_detail))
          then Some v else merged !! key)
    else merged !! k.
Proof.
  unfold merge_item. destruct (decide (k = key)) as [->|Hne].
  - destruct (truthy v && _); [apply lookup_insert_eq | done].
  - destruct (truthy v && _); [by rewrite lookup_insert_ne | done].
Qed.

Lemma merge_detail_lookup (index detail : record) (key : pystr) :
  merge_detail index detail !! key =
    match detail !! key with
    | Some v =>
      if truthy v
         && (negb (truthy (dict_get index key))
             || bool_decide (key ∈ always_prefer_detail))
      then Some v
      else index !! key
    | None => index !! key
    end.
Proof.
  unfold merge_detail. revert key.
  apply (map_fold_weak_ind
           (λ (r : record) (m : record), ∀ key,
              r !! key =
                match m !! key with
                | Some v =>
                  if truthy v
                     && (negb (truthy (dict_get index key))
                         || bool_decide (key ∈ always_prefer_detail))
                  then Some v else index !! key
                | None => index !! key
                end)).
  - intros key. by rewrite lookup_empty.
  - intros i x m r Hfresh IH key. rewrite merge_item_lookup.
    destruct (decide (key = i)) as [->|Hne].
    + rewrite lookup_insert_eq.
      unfold dict_get at 1. rewrite (IH i), Hfresh. done.
    + rewrite lookup_insert_ne by done. apply IH.
Qed.

(** C1. For every index record, detail record and key, the merged record
    holds the detail value exactly when that value is present and truthy
    and the index value is absent or falsy or the key is one of the
    always-prefer-detail fields; otherwise it holds what the index
    record holds. An index record with price 300000 and no description,
    merged with a detail record with price 310000 and description "x",
    has price 300000 and description "x". *)
Theorem merge_precedence :
  (∀ (index detail : record) (key : pystr),
     merge_detail index detail !! key =
       match detail !! key with
       | Some v =>
         if truthy v
            && (negb (truthy (dict_get index key))
                || bool_decide (key ∈ always_prefer_detail))
         then Some v
         else index !! key
       | None => index !! key
       end)
  ∧ always_prefer_detail =
      map py ["description"; "agency_name"; "agency_address"; "energy_rating";
              "ges_rating"; "floor"; "exposure"; "heating_type";
              "published_date"; "modified_date"; "reference"; "mandate_type";
              "energy_consumption"; "ges_emission"; "energy_bill_min";
              "energy_bill_max"; "price_without_fees"; "agency_fees_percent"]%string
  ∧ merge_detail example_index example_detail !! py "price" = Some (VInt 300000)
  ∧ merge_detail example_index example_detail !! py "description" = Some (VStr (py "x")).
Proof.
  split; [exact merge_detail_lookup|].
  split; [reflexivity|].
  rewrite !merge_detail_lookup. split; vm_compute; reflexivity.
Qed.

(** ** Equality of values *)

Lemma dyadic_nonzero fuel neg m e : dyadic fuel neg m e ≠ NumInt 0.
Proof.
  revert m e. induction fuel as [|fuel IH]; intros m e.
  - destruct e as [|pe|pe]; simpl; try discriminate.
    + intros [=]. destruct neg; lia.
    + intros [= Hz]. assert (0 < 2 ^ Z.pos pe)%Z by (apply Z.pow_pos_nonneg; lia).
      destruct neg; nia.
  - destruct e as [|pe|pe]; simpl.
    + intros [=]. destruct neg; lia.
    + intros [= Hz]. assert (0 < 2 ^ Z.pos pe)%Z by (apply Z.pow_pos_nonneg; lia).
      destruct neg; nia.
    + destruct m; try discriminate. apply IH.
Qed.

Lemma truthy_number v n :
  number_of v = Some n → truthy v = negb (bool_decide (n = NumInt 0)).
Proof.
  destruct v as [|b|z|f|s]; simpl; try discriminate.
  - intros [= <-]. by destruct b.
  - intros [= <-]. destruct (Z.eqb_spec z 0) as [->|Hz]; simpl.
    + done.
    + rewrite bool_decide_eq_false_2; [done|]. intros [=]. done.
  - destruct f as [s|s| |s m e]; try discriminate; intros [= <-]; try done.
    rewrite bool_decide_eq_false_2; [done|]. apply dyadic_nonzero.
Qed.

Lemma py_eq_cases v w :
  py_eq v w = true ↔
    (v = VNone ∧ w = VNone) ∨ (∃ s, v = VStr s ∧ w = VStr s)
    ∨ (∃ n, number_of v = Some n ∧ number_of w = Some n).
Proof.
  split.
  - intros Heq.
    destruct (number_of v) as [a|] eqn:Hv; destruct (number_of w) as [b|] eqn:Hw;
      destruct v, w; try discriminate Hv; try discriminate Hw;
      cbn -[number_of] in Heq; rewrite ?Hv, ?Hw in Heq; try discriminate Heq;
      try (apply bool_decide_eq_true in Heq; subst); eauto 10.
  - intros [[-> ->]|[(s & -> & ->)|(n & Hv & Hw)]].
    + done.
    + simpl. by rewrite bool_decide_eq_true_2.
    + destruct v, w; try discriminate Hv; try discriminate Hw;
        cbn -[number_of]; rewrite Hv, Hw; by rewrite bool_decide_eq_true_2.
Qed.

Lemma py_eq_sym v w : py_eq v w = true → py_eq w v = true.
Proof.
  rewrite !py_eq_cases.
  intros [[-> ->]|[(s & -> & ->)|(n & Hv & Hw)]]; eauto 10.
Qed.

Lemma py_eq_trans u v w : py_eq u v = true → py_eq v w = true → py_eq u w = true.
Proof.
  rewrite !py_eq_cases.
  intros [[-> ->]|[(s & -> & ->)|(n & Hu & Hv)]]
         [[? ->]|[(s' & ? & ->)|(n' & Hv' & Hw)]];
    simplify_eq; simpl in *; try discriminate; eauto 10.
Qed.

Lemma py_eq_truthy v w : py_eq v w = true → truthy v = truthy w.
Proof.
  rewrite py_eq_cases. intros [[-> ->]|[(s & -> & ->)|(n & Hv & Hw)]]; try done.
  by rewrite (truthy_number _ _ Hv), (truthy_number _ _ Hw).
Qed.

(** ** Deduplication *)

Lemma forallb_negb {A} (f : A → bool) (l : list A) :
  forallb (λ x, negb (f x)) l = negb (existsb f l).
Proof. induction l as [|x l IH]; simpl; [done|]. rewrite IH. by destruct (f x). Qed.

Lemma set_mem_trans w v seen :
  py_eq w v = true → set_mem v seen = true → set_mem w seen = true.
Proof.
  unfold set_mem. intros Hwv. rewrite !existsb_exists.
  intros (u & Hin & Hvu). exists u. split; [done|]. by eapply py_eq_trans.
Qed.

Lemma dedupe_loop_spec (all_properties : list record) :
  ∀ seen unique_properties earlier,
    seen_agrees seen earlier →
    dedupe_loop all_properties seen unique_properties =
      unique_properties ++ first_occurrences earlier all_properties.
Proof.
  induction all_properties as [|r more IH]; intros seen unique earlier Hinv; simpl.
  - by rewrite app_nil_r.
  - fold (listing_id_of r). rewrite forallb_negb.
    destruct (truthy (listing_id_of r)) eqn:Htruthy; simpl.
    + rewrite <- (Hinv _ Htruthy).
      destruct (set_mem (listing_id_of r) seen) eqn:Hmem; simpl.
      * apply IH. intros w Hw. rewrite existsb_app; simpl. rewrite orb_false_r.
        destruct (py_eq w (listing_id_of r)) eqn:Hwr.
        -- rewrite orb_true_r. by eapply set_mem_trans.
        -- rewrite orb_false_r. by apply Hinv.
      * rewrite (IH _ _ (earlier ++ [r])); [by rewrite <- app_assoc|].
        intros w Hw. rewrite existsb_app; simpl. rewrite orb_false_r.
        rewrite (Hinv _ Hw). apply orb_comm.
    + apply IH. intros w Hw. rewrite existsb_app; simpl. rewrite orb_false_r.
      destruct (py_eq w (listing_id_of r)) eqn:Hwr.
      * apply py_eq_truthy in Hwr. congruence.
      * rewrite orb_false_r. by apply Hinv.
Qed.

(** C3. For every sequence of index records, deduplication returns
    exactly the records whose listing_id is present and non-empty and
    occurs for the first time, in first-seen order; records without a
    listing_id are dropped. Records with listing_ids A, B, A, C give the
    first record of A, then B, then C. *)
Theorem dedupe_first_seen :
  (∀ all_properties : list record,
     dedupe all_properties = first_occurrences [] all_properties)
  ∧ dedupe example_pages = [listing "A" "first"; listing "B" "second"; listing "C" "fourth"].
Proof.
  split.
  - intros l. unfold dedupe. by rewrite (dedupe_loop_spec l [] [] []).
  - vm_compute. reflexivity.
Qed.

(** ** The page estimate *)

Lemma ceil_div (a b : Z) : (0 < b)%Z → ((a + b - 1) `div` b = - ((- a) `div` b))%Z.
Proof.
  intros Hb.
  pose proof (Z.div_mod (- a) b ltac:(lia)) as Hdm.
  pose proof (Z.mod_pos_bound (- a) b Hb) as Hr.
  symmetry. apply (Z.div_unique_pos _ _ _ (b - 1 - (- a) `mod` b)); lia.
Qed.

Lemma Qceiling_ratio (a b : Z) :
  (0 < b)%Z → Qceiling (inject_Z a / inject_Z b) = (- ((- a) `div` b))%Z.
Proof.
  intros Hb.
  assert (inject_Z a / inject_Z b == a # Z.to_pos b)%Q as ->.
  { unfold Qeq, Qdiv, Qmult, Qinv, inject_Z. simpl.
    destruct b as [|p|p]; try lia. simpl. lia. }
  unfold Qceiling, Qfloor, Qopp. simpl. rewrite Z2Pos.id by done. done.
Qed.

(** C6. The total-page estimate is the ceiling of total_count divided by
    the larger of the first page's card count and 24, for every
    total_count and card count (so for total_count >= 0 and a count
    >= 1); for total_count 100 it is 5 with 24 cards and with 10. *)
Theorem total_pages_estimate :
  (∀ (total_count : Z) (first_page_properties : list record),
     estimate_total_pages total_count first_page_properties =
       Qceiling (inject_Z total_count
                 / inject_Z (Z.max (Z.of_nat (length first_page_properties)) 24)))
  ∧ estimate_total_pages 100 (replicate 24 ∅) = 5%Z
  ∧ estimate_total_pages 100 (replicate 10 ∅) = 5%Z.
Proof.
  split; [|split; reflexivity].
  intros total_count first. unfold estimate_total_pages.
  rewrite Qceiling_ratio by lia. apply ceil_div. lia.
Qed.

(** ** [parse_price] *)

Section price.
Context `{PyRuntime}.

Lemma clean_digits (s : pystr) :
  re_sub_set true [CDigit] s = filter (λ c, is_digit c = true) s.
Proof.
  unfold re_sub_set. apply list_filter_iff. intros c.
  unfold set_match. simpl. destruct (is_digit c); simpl; intuition congruence.
Qed.

Lemma is_digit_decimal (c : N) : is_digit c = true ↔ is_Some (to_decimal c).
Proof. unfold is_digit. apply bool_decide_eq_true. Qed.

Lemma lstrip_by_none (p : N → bool) (s : pystr) :
  Forall (λ c, p c = false) s → lstrip_by p s = s.
Proof. destruct 1 as [|c s Hc _]; simpl; [done|]. by rewrite Hc. Qed.

Lemma strip_by_none (p : N → bool) (s : pystr) :
  Forall (λ c, p c = false) s → rstrip_by p (lstrip_by p s) = s.
Proof.
  intros Hs. unfold rstrip_by. rewrite (lstrip_by_none p s Hs).
  rewrite lstrip_by_none; [apply reverse_involutive|].
  by apply Forall_reverse.
Qed.

Lemma digits_not_space (s : pystr) :
  Forall (λ c, is_digit c = true) s → Forall (λ c, is_space c = false) s.
Proof.
  intros Hs. eapply list.Forall_impl; [exact Hs|].
  intros c [d Hd]%is_digit_decimal. by eapply to_decimal_not_space.
Qed.

Lemma digits_not_int_space (s : pystr) :
  Forall (λ c, is_digit c = true) s → Forall (λ c, int_space c = false) s.
Proof.
  intros Hs. eapply list.Forall_impl; [exact (digits_not_space s Hs)|].
  intros c Hc. unfold int_space. simpl in Hc. by rewrite Hc.
Qed.

Lemma py_int_outcome (s : pystr) :
  (∃ z, py_int s = Ok z) ∨ py_int s = Raise ValueError.
Proof.
  unfold py_int. cbv zeta. destruct (rstrip_by _ _); [by right|].
  destruct (digits_value 0 _); [|by right].
  destruct (over_digit_limit _); eauto.
Qed.

Lemma parse_price_total (text_ : pystr) : ∃ r, parse_price text_ = Ok r.
Proof.
  unfold parse_price. destruct (negb (nonempty text_)); [eauto|].
  destruct (nonempty _); [|eauto].
  destruct (py_int_outcome (re_sub_set true [CDigit] text_)) as [[z ->]| ->];
    simpl; eauto.
Qed.

Lemma parse_price_no_digit (text_ : pystr) :
  Forall (λ c, to_decimal c = None) text_ → parse_price text_ = Ok None.
Proof.
  intros Hnone. unfold parse_price. destruct (negb (nonempty text_)); [done|].
  rewrite clean_digits.
  replace (filter (λ c, is_digit c = true) text_) with (@nil N); [done|].
  induction Hnone as [|c s Hc _ IH]; [done|].
  rewrite filter_cons_False; [done|].
  rewrite is_digit_decimal, Hc. by intros [? ?].
Qed.

Lemma price_text_decimal (c : N) :
  ascii_digit c = true ∨ c = 32 ∨ c = 160 →
  to_decimal c = if ascii_digit c then Some (c - 48) else None.
Proof.
  intros Hc. apply to_decimal_latin1. unfold ascii_digit in Hc.
  destruct Hc as [[_ Hc%N.leb_le]%andb_prop|[->| ->]]; lia.
Qed.

Lemma price_text_clean (s : pystr) :
  price_text s →
  filter (λ c, is_digit c = true) s = filter (λ c, ascii_digit c = true) s.
Proof.
  induction 1 as [|c s Hc _ IH]; [done|].
  rewrite !filter_cons, IH. pose proof (price_text_decimal c Hc) as Hd.
  destruct (ascii_digit c) eqn:Hdigit.
  - rewrite decide_True; [by rewrite decide_True|].
    apply is_digit_decimal. rewrite Hd. eauto.
  - rewrite decide_False; [by rewrite decide_False|].
    rewrite is_digit_decimal, Hd. by intros [? ?].
Qed.

Lemma price_text_value (s : pystr) :
  price_text s → ∀ acc,
  digits_value acc (filter (λ c, ascii_digit c = true) s) =
    Some (foldl (λ acc c, if ascii_digit c then 10 * acc + Z.of_N (c - 48) else acc)%Z
            acc s).
Proof.
  induction 1 as [|c s Hc _ IH]; intros acc; [done|].
  rewrite filter_cons. pose proof (price_text_decimal c Hc) as Hd. simpl.
  destruct (ascii_digit c) eqn:Hdigit.
  - rewrite decide_True by done. simpl. rewrite Hd. apply IH.
  - rewrite decide_False by congruence. apply IH.
Qed.

Lemma has_digit_clean (s : pystr) :
  existsb ascii_digit s = true →
  nonempty (filter (λ c, ascii_digit c = true) s) = true.
Proof.
  induction s as [|c s IH]; simpl; [done|].
  rewrite filter_cons. case_decide as Hd; [done|].
  destruct (ascii_digit c); [done|]. exact IH.
Qed.

Lemma over_digit_limit_spec (s : pystr) :
  over_digit_limit (filter (λ c, ascii_digit c = true) s) = negb (within_digit_limit s).
Proof.
  unfold over_digit_limit, within_digit_limit.
  destruct (int_max_str_digits =? 0); simpl; [done|].
  rewrite N.leb_antisym. by rewrite negb_involutive.
Qed.

Lemma py_int_of_digits (digits : pystr) (z : Z) :
  nonempty digits = true → Forall (λ c, is_digit c = true) digits →
  digits_value 0 digits = Some z →
  py_int digits = if over_digit_limit digits then Raise ValueError else Ok z.
Proof.
  intros Hne Hdigits Hz. unfold py_int.
  rewrite (strip_by_none _ _ (digits_not_int_space _ Hdigits)), Hz.
  by destruct digits.
Qed.

Lemma parse_price_digits (text_ : pystr) :
  price_text text_ → existsb ascii_digit text_ = true →
  parse_price text_ =
    Ok (if within_digit_limit text_ then Some (digits_in_order text_) else None).
Proof.
  intros Htext Hdigit. unfold parse_price.
  assert (nonempty text_ = true) as ->.
  { destruct text_; [discriminate|done]. }
  simpl. rewrite clean_digits, (price_text_clean _ Htext).
  rewrite (has_digit_clean _ Hdigit).
  rewrite (py_int_of_digits _ (digits_in_order text_)).
  - rewrite over_digit_limit_spec. by destruct (within_digit_limit text_).
  - by apply has_digit_clean.
  - rewrite <- (price_text_clean _ Htext). apply list.Forall_forall.
    by intros c [Hc _]%list_elem_of_filter.
  - apply (price_text_value _ Htext).
Qed.

End price.

(** [int()] ignores a newline after the digits and rejects the
    separator U+001C, which [str.strip()] would remove. *)
Lemma py_int_separator :
  py_int (H := latin1) (py " 12" ++ [10]) = Ok 12%Z
  ∧ py_int (H := latin1) (py "12" ++ [28]) = Raise ValueError
  ∧ strip (H := latin1) (py "12" ++ [28]) = py "12".
Proof. repeat split; vm_compute; reflexivity. Qed.

(** C8, counterexample. With CPython's default limit of 4300 digits on
    integer conversions, a price text of 4301 digits "1" is made of
    ASCII digits only, and [parse_price] returns [None] for it, not the
    integer its digits denote: [int] raises [ValueError], which
    [parse_price] catches. *)
Lemma parse_price_long_counterexample :
  price_text long_price
  ∧ existsb ascii_digit long_price = true
  ∧ parse_price (H := latin1) long_price = Ok None
  ∧ parse_price (H := latin1) long_price ≠ Ok (Some (digits_in_order long_price)).
Proof.
  assert (parse_price (H := latin1) long_price = Ok None) as Heval
    by (vm_compute; reflexivity).
  split; [|split; [|split]].
  - apply list.Forall_forall. intros c ->%elem_of_replicate_inv. by left.
  - reflexivity.
  - exact Heval.
  - rewrite Heval. discriminate.
Qed.

(** C8, amended. For every text made of ASCII digits, spaces and
    non-breaking spaces that has a digit, [parse_price] returns the
    integer the digits denote in order when their number is within the
    interpreter's limit on integer conversions (no limit when it is 0),
    and [None] beyond it; for every text without a decimal digit it
    returns [None]; and it never raises. *)
Theorem parse_price_correct `{PyRuntime} :
  (∀ text_, price_text text_ → existsb ascii_digit text_ = true →
     within_digit_limit text_ = true →
     parse_price text_ = Ok (Some (digits_in_order text_)))
  ∧ (∀ text_, price_text text_ → existsb ascii_digit text_ = true →
     within_digit_limit text_ = false → parse_price text_ = Ok None)
  ∧ (∀ text_, Forall (λ c, to_decimal c = None) text_ → parse_price text_ = Ok None)
  ∧ (∀ text_, ∃ r, parse_price text_ = Ok r).
Proof.
  split; [|split; [|split]].
  - intros text_ Htext Hdigit Hlimit. by rewrite parse_price_digits, Hlimit.
  - intros text_ Htext Hdigit Hlimit. by rewrite parse_price_digits, Hlimit.
  - apply parse_price_no_digit.
  - apply parse_price_total.
Qed.


Lemma parse_price_correct_witness :
  parse_price (H := latin1) (py "430" ++ [160] ++ py "000 ") = Ok (Some 430000%Z)
  ∧ parse_price (H := latin1) long_price = Ok None
  ∧ parse_price (H := latin1) (py "prix sur demande") = Ok None.
Proof.
  destruct (parse_price_correct (H := latin1)) as (Hvalue & Hlong & Hnone & _).
  split; [|split].
  - apply (Hvalue (py "430" ++ [160] ++ py "000 ")); [|reflexivity|reflexivity].
    apply list.Forall_forall. intros c Hc. vm_compute in Hc.
    repeat (apply elem_of_cons in Hc as [->|Hc]; [vm_compute; tauto|]).
    by apply elem_of_nil in Hc.
  - apply Hlong; [|reflexivity|reflexivity].
    apply list.Forall_forall. intros c ->%elem_of_replicate_inv. by left.
  - apply Hnone. apply list.Forall_forall. intros c Hc. vm_compute in Hc.
    repeat (apply elem_of_cons in Hc as [->|Hc]; [reflexivity|]).
    by apply elem_of_nil in Hc.
Defined.

(** ** [_build_search_url] *)

Section url.
Context `{PyRuntime}.

Lemma str_lower_buy : str_lower (py "buy") = py "buy".
Proof.
  rewrite str_lower_ascii; [reflexivity|].
  repeat constructor.
Qed.

Lemma join_three (a b c : pystr) :
  join (py "/") [a; b; c] = a ++ py "/" ++ b ++ py "/" ++ c.
Proof. reflexivity. Qed.

Lemma join_four (a b c d : pystr) :
  join (py "/") [a; b; c; d] = a ++ py "/" ++ b ++ py "/" ++ c ++ py "/" ++ d.
Proof. reflexivity. Qed.

Lemma build_search_url_shape (location contract_type property_type : pystr) (page : Z) :
  ∃ rest,
    _build_search_url location contract_type property_type page =
      SEARCH_URL ++ py "/"
      ++ default (py "achat") (CONTRACT_TYPES !! str_lower contract_type) ++ py "/"
      ++ default location (LOCATIONS !! str_lower location) ++ rest
    ∧ (rest = [] ∨ head rest = Some 47 ∨ head rest = Some 63).
Proof.
  unfold _build_search_url.
  set (contract := default _ (CONTRACT_TYPES !! _)).
  set (code := default _ (LOCATIONS !! _)).
  destruct (default [] (PROPERTY_TYPES !! str_lower property_type)) as [|c prop_type];
    simpl nonempty; cbv iota.
  - rewrite join_three. destruct (1 <? page)%Z.
    + exists (py "?page=" ++ str_of_int page). split; [|by right; right].
      by rewrite <- !app_assoc.
    + exists []. split; [|by left]. by rewrite !app_nil_r.
  - change ([SEARCH_URL; contract; code] ++ [c :: prop_type])
      with [SEARCH_URL; contract; code; c :: prop_type].
    rewrite join_four. destruct (1 <? page)%Z.
    + exists (py "/" ++ (c :: prop_type) ++ py "?page=" ++ str_of_int page).
      split; [|by right; left]. by rewrite <- !app_assoc.
    + exists (py "/" ++ (c :: prop_type)). split; [|by right; left]. done.
Qed.

End url.

(** C10. The contract vocabulary has the keys buy, rent and new. For
    every contract_type whose lowercase form is none of them,
    [_build_search_url] uses the segment "achat" and returns the URL it
    returns for "buy" (it cannot reject: it returns a URL for every
    input). For every location whose lowercase form is no key of the
    location table, the location string itself is the location
    segment. *)
Theorem unknown_contract_type_is_purchase `{PyRuntime} :
  dom CONTRACT_TYPES = {[ py "buy"; py "rent"; py "new" ]}
  ∧ (∀ location contract_type property_type page,
       CONTRACT_TYPES !! str_lower contract_type = None →
       _build_search_url location contract_type property_type page =
         _build_search_url location (py "buy") property_type page
       ∧ ∃ rest,
           _build_search_url location contract_type property_type page =
             SEARCH_URL ++ py "/achat/" ++ rest)
  ∧ (∀ location contract_type property_type page,
       LOCATIONS !! str_lower location = None →
       ∃ contract rest,
         _build_search_url location contract_type property_type page =
           SEARCH_URL ++ py "/" ++ contract ++ py "/" ++ location ++ rest
         ∧ (rest = [] ∨ head rest = Some 47 ∨ head rest = Some 63)).
Proof.
  split; [|split].
  - apply leibniz_equiv. unfold CONTRACT_TYPES.
    rewrite dom_list_to_map. simpl. set_solver.
  - intros location contract_type property_type page Hunknown. split.
    + unfold _build_search_url. rewrite Hunknown, str_lower_buy. reflexivity.
    + destruct (build_search_url_shape location contract_type property_type page)
        as (rest & -> & _).
      rewrite Hunknown. change (default (py "achat") None) with (py "achat"). eexists.
      change (py "/achat/") with (py "/" ++ py "achat" ++ py "/").
      by rewrite <- !app_assoc.
  - intros location contract_type property_type page Hunknown.
    destruct (build_search_url_shape location contract_type property_type page)
      as (rest & -> & Hrest).
    rewrite Hunknown. change (default location None) with location. eauto.
Qed.

Lemma unknown_contract_type_witness :
  CONTRACT_TYPES !! @str_lower latin1 (py "Lease") = None
  ∧ _build_search_url (H := latin1) (py "Paris") (py "Lease") (py "house") 2
    = py "https://www.bienici.com/recherche/achat/paris-75000/maisonvilla?page=2"
  ∧ _build_search_url (H := latin1) (py "Paris") (py "Lease") (py "house") 2
    = _build_search_url (H := latin1) (py "Paris") (py "buy") (py "house") 2
  ∧ LOCATIONS !! @str_lower latin1 (py "Saint-Malo") = None
  ∧ _build_search_url (H := latin1) (py "Saint-Malo") (py "rent") (py "all") 1
    = py "https://www.bienici.com/recherche/location/Saint-Malo".
Proof.
  assert (CONTRACT_TYPES !! @str_lower latin1 (py "Lease") = None) as Hlease
    by reflexivity.
  pose proof (proj1 (proj1 (proj2 (unknown_contract_type_is_purchase (H := latin1)))
     (py "Paris") (py "Lease") (py "house") 2%Z Hlease)) as Hsame.
  split; [exact Hlease|]. split; [vm_compute; reflexivity|].
  split; [exact Hsame|]. split; vm_compute; reflexivity.
Defined.

(** ** The constructor *)

(** C9. With no credential in the environment and no (or an empty)
    override the constructor raises [ValueError] and leaves the trace as
    it was: no request is made. A non-empty override is the key whatever
    the environment holds, and without one a non-empty environment value
    is the key; construction succeeds in both cases. *)
Theorem constructor_needs_api_key :
  ∀ (env : pystr) (max_workers_ timeout_ : option Z) (tr : list event),
    BieniciScraper_init [] None max_workers_ timeout_ tr = (Raise ValueError, tr)
    ∧ BieniciScraper_init [] (Some []) max_workers_ timeout_ tr = (Raise ValueError, tr)
    ∧ (∀ c key,
         BieniciScraper_init env (Some (c :: key)) max_workers_ timeout_ tr =
           (Ok {| api_key := c :: key;
                  max_workers := default 5%Z max_workers_;
                  timeout := default DEFAULT_TIMEOUT timeout_ |}, tr))
    ∧ (∀ c key api_key_,
         api_key_ = None ∨ api_key_ = Some [] →
         BieniciScraper_init (c :: key) api_key_ max_workers_ timeout_ tr =
           (Ok {| api_key := c :: key;
                  max_workers := default 5%Z max_workers_;
                  timeout := default DEFAULT_TIMEOUT timeout_ |}, tr)).
Proof.
  intros env mw to tr. repeat split; try reflexivity.
  intros c key api_key_ [-> | ->]; reflexivity.
Qed.

Lemma constructor_witness :
  BieniciScraper_init (py "from-env") (Some (py "override")) None None []
  = (Ok {| api_key := py "override"; max_workers := 5; timeout := 120 |}, [])
  ∧ BieniciScraper_init (py "from-env") None None None []
  = (Ok {| api_key := py "from-env"; max_workers := 5; timeout := 120 |}, []).
Proof.
  pose proof (constructor_needs_api_key (py "from-env") None None []) as (_ & _ & Hover & Henv).
  split.
  - exact (Hover _ _).
  - exact (Henv _ _ None (or_introl eq_refl)).
Defined.

(** C7, the code at the failing input. A scraper constructed without a
    worker count has [max_workers = 5], not [DEFAULT_MAX_WORKERS = 10],
    and its pools are created with 5 workers. *)
Theorem default_pool_size_is_five :
  ∀ (env : pystr) (c : N) (key : pystr) (tr : list event),
    ∃ self,
      BieniciScraper_init env (Some (c :: key)) None None tr = (Ok self, tr)
      ∧ max_workers self = 5%Z
      ∧ max_workers self ≠ DEFAULT_MAX_WORKERS
      ∧ ∀ tr', thread_pool (max_workers self) tr' = (Ok (), tr' ++ [Pool 5]).
Proof.
  intros env c key tr. eexists. split; [reflexivity|]. simpl.
  repeat split; done.
Qed.

(** ** Traces *)

Lemma run_spec_mono {A} (P P' : event → Prop) (Q Q' : A → Prop) (m : M A) :
  (∀ e, P e → P' e) → (∀ a, Q a → Q' a) → run_spec P Q m → run_spec P' Q' m.
Proof.
  intros HP HQ Hm tr. destruct (Hm tr) as (new & Htr & Hnew & Hret).
  exists new. split; [done|]. split; [|by eauto].
  eapply list.Forall_impl; [exact Hnew|done].
Qed.

Lemma run_spec_ret {A} (P : event → Prop) (Q : A → Prop) (a : A) :
  Q a → run_spec P Q (mret a).
Proof.
  intros Ha tr. exists []. rewrite app_nil_r. repeat split; [done|].
  by intros a' [= <-].
Qed.

Lemma run_spec_bind {A B} (P : event → Prop) (Q : A → Prop) (R : B → Prop)
    (m : M A) (f : A → M B) :
  run_spec P Q m → (∀ a, Q a → run_spec P R (f a)) → run_spec P R (m ≫= f).
Proof.
  intros Hm Hf tr. destruct (Hm tr) as (new & Htr & Hnew & Hret).
  unfold mbind, M_bind. destruct (m tr) as [[a|e] tr1]; simpl in *; subst tr1.
  - destruct (Hf a (Hret a eq_refl) (tr ++ new)) as (new' & Htr' & Hnew' & Hret').
    exists (new ++ new'). rewrite Htr', app_assoc. split; [done|].
    split; [by apply Forall_app|done].
  - exists new. repeat split; [done|]. intros b [=].
Qed.

Lemma run_spec_then {A B} (P : event → Prop) (R : B → Prop) (m : M A) (f : A → M B) :
  run_spec P (λ _, True) m → (∀ a, run_spec P R (f a)) → run_spec P R (m ≫= f).
Proof. intros Hm Hf. eapply run_spec_bind; [exact Hm|]. intros a _. apply Hf. Qed.

Lemma run_spec_emit_all (P : event → Prop) (es : list event) :
  Forall P es → run_spec P (λ _, True) (emit_all es).
Proof. intros Hes tr. exists es. by repeat split. Qed.

Lemma run_spec_emit (P : event → Prop) (e : event) :
  P e → run_spec P (λ _, True) (emit e).
Proof. intros He tr. exists [e]. repeat split. by constructor. Qed.

Lemma run_spec_log (U : value → Prop) (lvl : level) (msg : message) :
  run_spec (requests_only U) (λ _, True) (log lvl msg).
Proof. by apply run_spec_emit. Qed.

Lemma run_spec_raise {A} (P : event → Prop) (Q : A → Prop) (e : exn) :
  run_spec P Q (raise e).
Proof. intros tr. exists []. rewrite app_nil_r. repeat split; [done|]. intros a [=]. Qed.

Lemma run_spec_lift {A} (P : event → Prop) (r : result A) :
  run_spec P (λ _, True) (lift r).
Proof. intros tr. exists []. rewrite app_nil_r. by repeat split. Qed.

Lemma run_spec_except {A} (P : event → Prop) (Q : A → Prop) (m : M A) (h : exn → M A) :
  run_spec P Q m → (∀ e, run_spec P Q (h e)) → run_spec P Q (except m h).
Proof.
  intros Hm Hh tr. destruct (Hm tr) as (new & Htr & Hnew & Hret).
  unfold except. destruct (m tr) as [[a|e] tr1]; simpl in *; subst tr1.
  - exists new. repeat split; [done|]. intros a' [= <-]. by apply Hret.
  - destruct (Hh e (tr ++ new)) as (new' & Htr' & Hnew' & Hret').
    exists (new ++ new'). rewrite Htr', app_assoc. split; [done|].
    split; [by apply Forall_app|done].
Qed.

Lemma run_spec_for_each {A S} (P : event → Prop) (l : list A) (body : A → S → M S) :
  (∀ x s, x ∈ l → run_spec P (λ _, True) (body x s)) →
  ∀ s, run_spec P (λ _, True) (for_each l body s).
Proof.
  induction l as [|x l IH]; intros Hbody s; simpl.
  - by apply run_spec_ret.
  - eapply run_spec_then.
    + apply Hbody. by left.
    + intros s'. apply IH. intros y s'' Hy. apply Hbody. by right.
Qed.

Section trace.
Context `{PyRuntime} `{BS4}.
Variable http : list event → value → pystr → Z → option pystr.
Variable clock : list event → pystr.
Variable as_completed : list event → ∀ A : Type, list A → list A.
Hypothesis as_completed_perm : ∀ tr A (l : list A), as_completed tr A l ≡ₚ l.

Lemma run_spec_session_get (self : BieniciScraper) (url : value) :
  run_spec (requests_only (eq url)) (λ _, True) (session_get http self url).
Proof.
  intros tr. exists [Request url (api_key self) (timeout self)].
  repeat split. by constructor.
Qed.

Lemma run_spec_fetch_attempts (self : BieniciScraper) (url : value) (retries : nat) :
  ∀ todo attempt,
    run_spec (requests_only (eq url)) (λ _, True)
      (fetch_attempts http self url retries attempt todo).
Proof.
  induction todo as [|todo IH]; intros attempt; simpl.
  - eapply run_spec_then; [apply run_spec_log|]. intros _. by apply run_spec_ret.
  - eapply run_spec_then; [apply run_spec_session_get|]. intros [text_|].
    + by apply run_spec_ret.
    + eapply run_spec_then; [apply run_spec_log|]. intros _.
      eapply run_spec_then; [|intros _; apply IH].
      destruct (_ <? _)%Z; [|by apply run_spec_ret].
      eapply run_spec_then; [apply run_spec_log|]. intros _.
      by apply run_spec_emit.
Qed.

Lemma run_spec_scrape_detail (self : BieniciScraper) (url : value) :
  run_spec (requests_only (eq url)) (λ _, True) (scrape_detail http self url).
Proof.
  unfold scrape_detail.
  eapply run_spec_then; [apply run_spec_log|]. intros _.
  eapply run_spec_then; [apply run_spec_fetch_attempts|]. intros html.
  destruct (falsy_html html); [by apply run_spec_ret|].
  destruct url; try apply run_spec_raise.
  eapply run_spec_then; [apply run_spec_lift|]. intros detail.
  by apply run_spec_ret.
Qed.

Lemma run_spec_enrich_one (self : BieniciScraper) (url : value) (d : odict record) :
  run_spec (requests_only (eq url)) (λ _, True) (enrich_one http self url d).
Proof.
  unfold enrich_one. apply run_spec_except.
  - eapply run_spec_then; [apply run_spec_scrape_detail|]. intros detail.
    destruct detail as [detail|], (odict_get url d) as [index|];
      try by apply run_spec_ret.
    destruct (bool_decide _); by apply run_spec_ret.
  - intros e. eapply run_spec_then; [apply run_spec_log|]. intros _.
    by apply run_spec_ret.
Qed.

Lemma run_spec_thread_pool (U : value → Prop) (n : Z) :
  run_spec (requests_only U) (λ _, True) (thread_pool n).
Proof.
  unfold thread_pool. destruct (n <=? 0)%Z; [apply run_spec_raise|].
  by apply run_spec_emit.
Qed.

Lemma run_spec_completion {A} (P : event → Prop) (tasks : list A) :
  run_spec P (λ order, ∀ x, x ∈ order → x ∈ tasks) (completion as_completed tasks).
Proof.
  intros tr. exists []. rewrite app_nil_r. repeat split; [done|].
  intros order [= <-] x Hx. by rewrite as_completed_perm in Hx.
Qed.

Lemma run_spec_enrich (self : BieniciScraper) (properties : list record) :
  run_spec (requests_only (url_of properties)) (λ _, True)
    (_enrich_with_details http as_completed self properties).
Proof.
  unfold _enrich_with_details.
  set (urls := omap _ properties).
  assert (∀ u, u ∈ urls → url_of properties u) as Hurls.
  { intros u (p & Hp & Hu)%list_elem_of_omap. exists p. split; [done|].
    destruct (truthy _); by simplify_eq. }
  destruct urls as [|u0 urls']; [by apply run_spec_ret|].
  eapply run_spec_then; [apply run_spec_thread_pool|]. intros _.
  eapply run_spec_bind; [apply run_spec_completion|]. intros order Horder.
  eapply run_spec_then; [|intros d; by apply run_spec_ret].
  apply run_spec_for_each. intros u d Hu.
  eapply run_spec_mono; [| |apply run_spec_enrich_one]; [|done].
  intros [] ; simpl; try done. intros <-. apply Hurls, Horder, Hu.
Qed.

Lemma run_spec_build_property (U : value → Prop) (prop_dict : record)
    (properties : list Property) :
  run_spec (requests_only U) (λ _, True) (build_property clock prop_dict properties).
Proof.
  intros tr. unfold build_property. destruct (Property_new _ _).
  - exists []. rewrite app_nil_r. by repeat split.
  - exists [Log WARNING (FailedToCreateProperty e)]. repeat split. by constructor.
Qed.

Lemma run_spec_reconcile (self : BieniciScraper) (all_properties : list record)
    (limit : option Z) (fetch_details : bool) :
  run_spec (requests_only (url_of (apply_limit limit (dedupe all_properties))))
    (λ _, True)
    (reconcile http clock as_completed self all_properties limit fetch_details).
Proof.
  unfold reconcile.
  eapply run_spec_then; [apply run_spec_log|]. intros _.
  eapply run_spec_then.
  - destruct fetch_details; [|by apply run_spec_ret].
    eapply run_spec_then; [apply run_spec_log|]. intros _.
    apply run_spec_enrich.
  - intros unique.
    eapply run_spec_then; [apply run_spec_for_each|].
    + intros p ps _. apply run_spec_build_property.
    + intros properties.
      eapply run_spec_then; [apply run_spec_log|]. intros _.
      by apply run_spec_ret.
Qed.

Lemma apply_limit_positive (n : Z) (unique_properties : list record) :
  (1 ≤ n)%Z → apply_limit (Some n) unique_properties = take (Z.to_nat n) unique_properties.
Proof.
  intros Hn. unfold apply_limit, slice_to.
  destruct (Z.eqb_spec n 0); [lia|]. destruct (Z.ltb_spec n 0); [lia|done].
Qed.

(** C5, amended. For every limit n >= 1 the deduplicated list is cut to
    its first n records before the details are fetched: every request
    made from deduplication on goes to the URL of one of the first n
    unique listings, whatever the transport answers and in whatever
    order the pool completes its tasks. (A limit of 0 cuts nothing.) *)
Theorem limit_bounds_detail_fetches (self : BieniciScraper) (all_properties : list record)
    (n : Z) (fetch_details : bool) (tr : list event) :
  (1 ≤ n)%Z →
  apply_limit (Some n) (dedupe all_properties) = take (Z.to_nat n) (dedupe all_properties)
  ∧ ∃ new,
      (reconcile http clock as_completed self all_properties (Some n) fetch_details tr).2
        = tr ++ new
      ∧ ∀ url key seconds,
          Request url key seconds ∈ new →
          ∃ p, p ∈ take (Z.to_nat n) (dedupe all_properties)
               ∧ dict_get p (py "url") = url.
Proof.
  intros Hn. split; [by apply apply_limit_positive|].
  destruct (run_spec_reconcile self all_properties (Some n) fetch_details tr)
    as (new & Htr & Hnew & _).
  exists new. split; [done|]. intros url key seconds Hin.
  rewrite list.Forall_forall in Hnew. specialize (Hnew _ Hin).
  change (url_of (apply_limit (Some n) (dedupe all_properties)) url) in Hnew.
  by rewrite apply_limit_positive in Hnew.
Qed.

End trace.

(** C5, counterexample. With limit 0 the three unique listings are not
    cut to their first 0, and a detail page is requested (here for the
    third listing). *)
Lemma limit_zero_counterexample :
  apply_limit (Some 0%Z) (dedupe three_listings) = three_listings
  ∧ take 0 (dedupe three_listings) = []
  ∧ existsb (is_request_to (listing_url "c"))
      (reconcile (H := latin1) (H0 := dom_bs4 plain_text) (serve plain_page)
         example_clock last_first example_self three_listings (Some 0%Z) true []).2
    = true.
Proof. repeat split; vm_compute; reflexivity. Qed.

Lemma limit_witness :
  ∃ new,
    (reconcile (H := latin1) (H0 := dom_bs4 plain_text) (serve plain_page)
       example_clock last_first example_self three_listings (Some 2%Z) true []).2
      = [] ++ new
    ∧ ∀ url key seconds,
        Request url key seconds ∈ new →
        ∃ p, p ∈ take 2 (dedupe three_listings) ∧ dict_get p (py "url") = url.
Proof.
  refine (proj2 (limit_bounds_detail_fetches (H := latin1) (H0 := dom_bs4 plain_text)
            (serve plain_page) example_clock last_first _ example_self three_listings
            2%Z true [] _)).
  - intros tr A l. apply reverse_Permutation.
  - lia.
Defined.

(** ** The matcher *)

Section regex.
Context `{PyRuntime}.
Variable ignorecase : bool.
Variable whole : pystr.

Lemma in_subject_advance (c : N) (t : pystr) (s : mstate) :
  rest s = c :: t → in_subject whole s → in_subject whole (advance c t s).
Proof.
  unfold in_subject. simpl. intros Hrest Hs.
  rewrite Hrest in Hs. replace (S (pos s)) with (pos s + 1)%nat by lia.
  by rewrite <- drop_drop, <- Hs.
Qed.

(** A successful match went through the continuation, at a state that is
    not before the one it started from. *)
Lemma rmatch_continues (r : regex) :
  ∀ k s e, rmatch ignorecase r k s = Some e →
    ∃ s', k s' = Some e ∧ (pos s ≤ pos s')%nat
          ∧ (in_subject whole s → in_subject whole s').
Proof.
  induction r as [|neg items|a IHa b IHb|a IHa b IHb|greedy a IHa|n a IHa| | | |a IHa];
    intros k s e Hmatch; simpl in Hmatch.
  - eauto.
  - destruct (rest s) as [|c t] eqn:Hrest; [done|].
    destruct (set_match _ _ _ _); [|done].
    exists (advance c t s). split; [done|]. split; [simpl; lia|].
    by apply in_subject_advance.
  - apply IHa in Hmatch as (s1 & Hmatch & Hpos1 & Hin1).
    apply IHb in Hmatch as (s2 & Hmatch & Hpos2 & Hin2).
    exists s2. split; [done|]. split; [lia|auto].
  - destruct (rmatch ignorecase a k s) eqn:Ha; simpl in Hmatch.
    + injection Hmatch as <-. by apply IHa.
    + by apply IHb.
  - revert e Hmatch. generalize (length (rest s)). intros n. revert s.
    induction n as [|n IHn]; intros s e Hmatch.
    + eauto.
    + simpl in Hmatch.
      match type of Hmatch with
      | context [rmatch ignorecase a ?k' s] =>
        destruct (rmatch ignorecase a k' s) as [e'|] eqn:Hmore
      end.
      * apply IHa in Hmore as (s1 & Hloop & Hpos1 & Hin1).
        destruct (pos s <? pos s1)%nat; [|done].
        apply IHn in Hloop as (s2 & Hk & Hpos2 & Hin2).
        destruct greedy; simpl in Hmatch.
        -- injection Hmatch as <-. exists s2. split; [done|]. split; [lia|auto].
        -- destruct (k s) eqn:Hks; simpl in Hmatch; injection Hmatch as <-.
           ++ eauto.
           ++ exists s2. split; [done|]. split; [lia|auto].
      * exists s. split; [|by auto].
        destruct greedy; simpl in Hmatch; [done|].
        by destruct (k s).
  - apply IHa in Hmatch as (s1 & Hmatch & Hpos1 & Hin1).
    exists (set_group n (pos s) s1). split; [done|]. split; [done|]. exact Hin1.
  - destruct (pos s =? 0)%nat; [eauto|done].
  - repeat case_match; try done; eauto.
  - destruct (xorb _ _); [eauto|done].
  - destruct (rmatch ignorecase a Some s); [done|eauto].
Qed.

Lemma rmatch_cat_continues (a b : regex) (k : mstate → option mstate) (s e : mstate) :
  rmatch ignorecase (RCat a b) k s = Some e →
  ∃ s', rmatch ignorecase b k s' = Some e ∧ (pos s ≤ pos s')%nat
        ∧ (in_subject whole s → in_subject whole s').
Proof. apply (rmatch_continues a). Qed.

Lemma rmatch_set_consumes (neg : bool) (items : list citem)
    (k : mstate → option mstate) (s e : mstate) :
  rmatch ignorecase (RSet neg items) k s = Some e →
  ∃ c t, rest s = c :: t ∧ k (advance c t s) = Some e.
Proof.
  simpl. destruct (rest s) as [|c t]; [done|].
  destruct (set_match _ _ _ _); [eauto|done].
Qed.

Lemma search_from_match (r : regex) :
  ∀ s at_ before m,
    search_from ignorecase r whole at_ before s = Some m →
    s = drop at_ whole →
    ∃ st e, in_subject whole st ∧ rmatch ignorecase r Some st = Some e
            ∧ m_string m = whole ∧ m_groups m = groups e.
Proof.
  induction s as [|c t IH]; intros at_ before m Hsearch Hs; simpl in Hsearch.
  - destruct (rmatch _ _ _ _) as [e|] eqn:Hmatch; [|done].
    injection Hsearch as <-.
    exists {| pos := at_; prev := before; rest := []; groups := [] |}, e.
    split; [exact Hs|]. split; [exact Hmatch|]. by split.
  - destruct (rmatch _ _ _ _) as [e|] eqn:Hmatch.
    + injection Hsearch as <-.
      exists {| pos := at_; prev := before; rest := c :: t; groups := [] |}, e.
      split; [exact Hs|]. split; [exact Hmatch|]. by split.
    + apply IH in Hsearch; [done|].
      replace (S at_) with (at_ + 1)%nat by lia.
      by rewrite <- drop_drop, <- Hs.
Qed.

End regex.

Lemma dpe_date_group `{PyRuntime} (page_text : pystr) (m : re_match) :
  re_search dpe_date_pattern page_text = Some m →
  ∃ date, group m 1 = Some date ∧ date ≠ [].
Proof.
  intros Hsearch.
  apply (search_from_match false page_text) in Hsearch as (st & e & Hin & Hmatch & Hwhole & Hgroups);
    [|done].
  unfold dpe_date_pattern, cat in Hmatch. cbn [foldr] in Hmatch.
  apply (rmatch_cat_continues false page_text) in Hmatch as (s1 & Hmatch & _ & Hin1).
  apply (rmatch_cat_continues false page_text) in Hmatch as (s2 & Hmatch & _ & Hin2).
  apply (rmatch_cat_continues false page_text) in Hmatch as (s3 & Hmatch & _ & Hin3).
  apply (rmatch_cat_continues false page_text) in Hmatch as (s4 & Hmatch & _ & Hin4).
  assert (in_subject page_text s4) as Hs4 by auto.
  change (rmatch false (RSet false [CDigit])
            (rmatch false (RStar true digit)
               (rmatch false
                  (RCat (plus space)
                     (RCat (plus word) (RCat (plus space) (RCat (plus digit) REps))))
                  (λ s', Some (set_group 1 (pos s4) s')))) s4 = Some e) in Hmatch.
  apply rmatch_set_consumes in Hmatch as (c & t & Hrest & Hmatch).
  apply (rmatch_continues false page_text) in Hmatch as (s5 & Hmatch & Hpos5 & _).
  apply (rmatch_continues false page_text) in Hmatch as (s6 & Hmatch & Hpos6 & _).
  injection Hmatch as <-. simpl in Hpos5.
  unfold group. rewrite Hgroups, Hwhole. simpl.
  eexists. split; [reflexivity|]. unfold slice.
  rewrite <- Hs4, Hrest. destruct (pos s6 - pos s4)%nat eqn:Hlen; [lia|done].
Qed.

(** ** The detail extractor and the DPE date *)

Lemma bind_Ok {A B} (m : result A) (f : A → result B) (b : B) :
  m ≫= f = Ok b → ∃ a, m = Ok a ∧ f a = Ok b.
Proof. destruct m as [a|e]; [eauto|done]. Qed.

Section detail.
Context `{PyRuntime} `{BS4}.

Local Abbreviation dpe := (py "dpe_date").

Lemma detail_dpe_date_sets (page_text : pystr) (prop : record) (m : re_match) :
  re_search dpe_date_pattern page_text = Some m →
  detail_dpe_date page_text prop !! dpe = Some (VStr (group_str m 1)).
Proof. intros Hm. unfold detail_dpe_date. rewrite Hm. apply lookup_insert_eq. Qed.

Lemma detail_energy_keeps (soup : tag) (prop prop' : record) :
  detail_energy soup prop = Ok prop' → prop' !! dpe = prop !! dpe.
Proof.
  unfold detail_energy. intros Hpass.
  repeat case_match; simplify_eq; try done.
  apply bind_Ok in Hpass as (? & _ & [= <-]).
  by rewrite !lookup_insert_ne by other_key.
Qed.

Lemma detail_energy_letter_keeps (soup : tag) (prop : record) :
  detail_energy_letter soup prop !! dpe = prop !! dpe.
Proof. unfold detail_energy_letter. keeps_pure. Qed.

Lemma detail_ges_keeps (page_text : pystr) (prop prop' : record) :
  detail_ges page_text prop = Ok prop' → prop' !! dpe = prop !! dpe.
Proof.
  unfold detail_ges. intros Hpass. case_match; simplify_eq; try done.
  apply bind_Ok in Hpass as (? & _ & [= <-]).
  by rewrite !lookup_insert_ne by other_key.
Qed.

Lemma detail_energy_bill_keeps (page_text : pystr) (prop prop' : record) :
  detail_energy_bill page_text prop = Ok prop' → prop' !! dpe = prop !! dpe.
Proof.
  unfold detail_energy_bill. intros Hpass. case_match; simplify_eq; try done.
  apply bind_Ok in Hpass as (? & _ & Hpass).
  apply bind_Ok in Hpass as (? & _ & [= <-]).
  by rewrite !lookup_insert_ne by other_key.
Qed.

Lemma detail_mandate_keeps (page_text : pystr) (prop : record) :
  detail_mandate page_text prop !! dpe = prop !! dpe.
Proof. unfold detail_mandate. keeps_pure. Qed.

Lemma detail_reference_keeps (page_text : pystr) (prop : record) :
  detail_reference page_text prop !! dpe = prop !! dpe.
Proof. unfold detail_reference. keeps_pure. Qed.

Lemma detail_dates_keeps (page_text : pystr) (prop : record) :
  detail_dates page_text prop !! dpe = prop !! dpe.
Proof. unfold detail_dates. keeps_pure. Qed.

Lemma detail_agency_keeps (soup : tag) (prop : record) :
  detail_agency soup prop !! dpe = prop !! dpe.
Proof. unfold detail_agency. keeps_pure. Qed.

Lemma detail_description_keeps (soup : tag) (prop : record) :
  detail_description soup prop !! dpe = prop !! dpe.
Proof. unfold detail_description. keeps_pure. Qed.

Lemma set_tags_keeps (text_ : pystr) (prop : record) :
  set_tags text_ prop !! dpe = prop !! dpe.
Proof. unfold set_tags. by rewrite !lookup_insert_ne by other_key. Qed.

Lemma set_contract_type_keeps (href : pystr) (prop : record) :
  set_contract_type href prop !! dpe = prop !! dpe.
Proof. unfold set_contract_type. keeps_pure. Qed.

Lemma parse_property_detail_dpe_date (html url : pystr) (detail : record) (m : re_match) :
  re_search dpe_date_pattern (get_text (BeautifulSoup html)) = Some m →
  parse_property_detail html url = Ok detail →
  detail !! dpe = Some (VStr (group_str m 1)).
Proof.
  intros Hm Hparse. unfold parse_property_detail in Hparse. cbv zeta in Hparse.
  apply bind_Ok in Hparse as (p1 & _ & Hparse).
  apply bind_Ok in Hparse as (p2 & _ & Hparse).
  apply bind_Ok in Hparse as (p3 & _ & Hparse).
  apply bind_Ok in Hparse as (p4 & _ & Hparse).
  apply bind_Ok in Hparse as (p5 & _ & Hparse).
  apply bind_Ok in Hparse as (p6 & Henergy & Hparse).
  apply bind_Ok in Hparse as (p7 & Hges & Hparse).
  apply bind_Ok in Hparse as (p8 & Hbill & [= <-]).
  rewrite set_contract_type_keeps, set_tags_keeps, detail_description_keeps,
    detail_agency_keeps, detail_dates_keeps, detail_reference_keeps,
    detail_mandate_keeps.
  rewrite (detail_energy_bill_keeps _ _ _ Hbill), (detail_ges_keeps _ _ _ Hges).
  rewrite detail_energy_letter_keeps, (detail_energy_keeps _ _ _ Henergy).
  by apply detail_dpe_date_sets.
Qed.

End detail.

Lemma dpe_date_not_a_field : py "dpe_date" ∉ Property_field_names.
Proof. apply (bool_decide_unpack _). vm_compute. exact I. Qed.

Lemma merge_keeps_truthy (index detail : record) (key : pystr) :
  truthy (dict_get detail key) = true →
  truthy (dict_get (merge_detail index detail) key) = true.
Proof.
  unfold dict_get at 1 2. rewrite merge_detail_lookup.
  destruct (detail !! key) as [v|]; simpl; intros Hv; [|done]. rewrite Hv. simpl.
  destruct (truthy (dict_get index key)) eqn:Hindex; simpl; [|done].
  by destruct (bool_decide _).
Qed.

Lemma Property_new_unknown_key (now key : pystr) (kwargs : record) :
  key ∉ Property_field_names → is_Some (kwargs !! key) →
  Property_new now kwargs = Raise TypeError.
Proof.
  intros Hkey [v Hv]. unfold Property_new.
  rewrite bool_decide_eq_false_2; [done|].
  intros Hall. apply Hkey. exact (Hall key v Hv).
Qed.

Section dropped.
Context `{PyRuntime} `{BS4}.

Lemma enrich_one_merges (http : list event → value → pystr → Z → option pystr)
    (self : BieniciScraper) (url : value) (d : odict record) (index detail : record)
    (tr tr' : list event) :
  detail ≠ ∅ → odict_get url d = Some index →
  scrape_detail http self url tr = (Ok (Some detail), tr') →
  enrich_one http self url d tr = (Ok (odict_set url (merge_detail index detail) d), tr').
Proof.
  intros Hdetail Hindex Hscrape. unfold enrich_one, except, mbind, M_bind.
  rewrite Hscrape, Hindex. by rewrite bool_decide_eq_true_2.
Qed.

Lemma build_property_drops (clock : list event → pystr) (prop_dict : record)
    (properties : list Property) (tr : list event) (key : pystr) :
  key ∉ Property_field_names → is_Some (prop_dict !! key) →
  build_property clock prop_dict properties tr =
    (Ok properties, tr ++ [Log WARNING (FailedToCreateProperty TypeError)]).
Proof.
  intros Hkey Hin. unfold build_property.
  by rewrite (Property_new_unknown_key _ key).
Qed.

End dropped.

(** ** The agency fees *)

(** C2, the code at the failing input. On a page whose text is
    "Honoraires : 1.2.3 %" the fee pattern captures "1.2.3", [float]
    raises [ValueError] on it, and so does [parse_property_detail]:
    nothing around the conversion catches it, unlike in [parse_price]
    and [parse_price_per_sqm]. *)
Theorem malformed_fees_raise :
  get_text (BS4 := dom_bs4 plain_text) (BeautifulSoup fees_page) = fees_page
  ∧ (m ← re_search (H := latin1) fees_pattern fees_page; group m 1)
    = Some (py "1.2.3")
  ∧ py_float (H := latin1) (py "1.2.3") = Raise ValueError
  ∧ parse_property_detail (H := latin1) (H0 := dom_bs4 plain_text) fees_page example_url
    = Raise ValueError.
Proof. repeat split; vm_compute; reflexivity. Qed.

(** ** Further properties of the parsers, the merge and the transport *)

Lemma py_float_outcome `{PyRuntime} (s : pystr) :
  (∃ f, py_float s = Ok f) ∨ py_float s = Raise ValueError.
Proof.
  unfold py_float. repeat case_match; eauto.
Qed.

Lemma float_or_none `{PyRuntime} (s : pystr) :
  ∃ r, try_except (f ← py_float s; Ok (Some f)) ValueError (Ok None) = Ok r.
Proof. destruct (py_float_outcome s) as [[f ->]| ->]; simpl; eauto. Qed.

Lemma parse_price_per_sqm_returns `{PyRuntime} (text_ : pystr) :
  ∃ r, parse_price_per_sqm text_ = Ok r.
Proof.
  unfold parse_price_per_sqm.
  destruct (negb (nonempty text_)); [eauto|].
  match goal with
  | |- context [try_except _ ValueError ?standard] =>
    assert (∃ r, standard = Ok r) as [r Hstandard]
  end.
  { destruct (re_search num_pattern text_); [|eauto].
    destruct (nonempty _); [apply float_or_none|eauto]. }
  rewrite Hstandard.
  destruct (re_search k_pattern (str_lower text_)) as [k_match|]; [|eauto].
  destruct (py_float_outcome (replace_char 44 46 (group_str k_match 1)))
    as [[f ->]| ->]; simpl; eauto.
Qed.

(** X1. [parse_price_per_sqm] never raises; "12,2k €/m²" is 12200.0 and
    "9 055 €/m²" is 9055.0. *)
Theorem parse_price_per_sqm_total :
  (∀ (R : PyRuntime) (text_ : pystr), ∃ r, parse_price_per_sqm text_ = Ok r)
  ∧ parse_price_per_sqm (H := latin1) (py "12,2k €/m²") = Ok (Some (float_of_int 12200))
  ∧ parse_price_per_sqm (H := latin1) (py "9 055 €/m²") = Ok (Some (float_of_int 9055)).
Proof.
  split; [|split; vm_compute; reflexivity].
  intros R text_. apply parse_price_per_sqm_returns.
Qed.

(** X2. For an always-prefer-detail field a truthy detail value wins
    over any index value, and a falsy or absent detail value leaves the
    index value: floor "2" merged with floor "" stays "2", merged with
    floor "0" becomes "0". *)
Theorem merge_prefers_detail :
  (∀ (index detail : record) (key : pystr) (v : value),
     key ∈ always_prefer_detail → detail !! key = Some v → truthy v = true →
     merge_detail index detail !! key = Some v)
  ∧ (∀ (index detail : record) (key : pystr),
       truthy (dict_get detail key) = false →
       merge_detail index detail !! key = index !! key)
  ∧ merge_detail floor_two {[ py "floor" := VStr (py "") ]} !! py "floor"
    = Some (VStr (py "2"))
  ∧ merge_detail floor_two {[ py "floor" := VStr (py "0") ]} !! py "floor"
    = Some (VStr (py "0")).
Proof.
  split; [|split; [|split; vm_compute; reflexivity]].
  - intros index detail key v Hkey Hv Htruthy.
    rewrite merge_detail_lookup, Hv, Htruthy, (bool_decide_eq_true_2 _ Hkey).
    by rewrite orb_true_r.
  - intros index detail key Hfalsy. rewrite merge_detail_lookup.
    unfold dict_get in Hfalsy. destruct (detail !! key) as [v|]; [|done].
    simpl in Hfalsy. by rewrite Hfalsy.
Qed.

Lemma merge_prefers_detail_witness :
  merge_detail floor_two {[ py "floor" := VStr (py "0") ]} !! py "floor"
  = Some (VStr (py "0")).
Proof.
  apply (proj1 merge_prefers_detail).
  - apply (bool_decide_unpack _). vm_compute. exact I.
  - vm_compute. reflexivity.
  - reflexivity.
Defined.

(** X3. When every attempt fails, [_fetch_page] makes three requests,
    waits 6 and then 7 seconds between them and not after the last, logs
    the failure and returns [None]; when the first attempt succeeds it
    makes one request and returns the page. *)
Theorem fetch_page_retries (self : BieniciScraper) (url : value) (tr : list event) :
  _fetch_page never_answers self url tr =
    (Ok None,
     tr ++ [ Request url (api_key self) (timeout self);
             Log WARNING (RequestFailed 1 3);
             Log INFO (WaitingBeforeRetry 6); Sleep 6;
             Request url (api_key self) (timeout self);
             Log WARNING (RequestFailed 2 3);
             Log INFO (WaitingBeforeRetry 7); Sleep 7;
             Request url (api_key self) (timeout self);
             Log WARNING (RequestFailed 3 3);
             Log ERROR (FailedToFetch url 3) ])
  ∧ ∀ page, _fetch_page (serve page) self url tr =
      (Ok (Some page), tr ++ [Request url (api_key self) (timeout self)]).
Proof.
  split.
  - unfold _fetch_page, MAX_RETRIES, fetch_attempts, mbind, M_bind, session_get, log,
      emit, mret, M_ret, never_answers.
    change (Z.of_nat 0 <? Z.of_nat 3 - 1)%Z with true.
    change (Z.of_nat 1 <? Z.of_nat 3 - 1)%Z with true.
    change (Z.of_nat 2 <? Z.of_nat 3 - 1)%Z with false.
    cbn. by rewrite <- !app_assoc.
  - intros page. reflexivity.
Qed.

Section degrade.
Context `{PyRuntime} `{BS4}.

(** X4. A detail task whose fetch fails, or whose extraction raises,
    leaves the mapping of records as it was: the listing keeps its index
    data. *)
Theorem failed_detail_keeps_index
    (http : list event → value → pystr → Z → option pystr) (self : BieniciScraper)
    (url : value) (prop_by_url : odict record) (tr : list event) :
  (∀ detail, (scrape_detail http self url tr).1 ≠ Ok (Some detail)) →
  (enrich_one http self url prop_by_url tr).1 = Ok prop_by_url.
Proof.
  intros Hfail. unfold enrich_one, except, mbind, M_bind.
  destruct (scrape_detail http self url tr) as [[[detail|]|e] tr'] eqn:Hscrape; simpl.
  - by destruct (Hfail detail).
  - done.
  - done.
Qed.

End degrade.

Lemma failed_detail_witness :
  (enrich_one (H := latin1) (H0 := dom_bs4 plain_text) never_answers example_self
     (VStr (listing_url "a")) [(VStr (listing_url "a"), index_record "a")] []).1
  = Ok [(VStr (listing_url "a"), index_record "a")].
Proof.
  apply failed_detail_keeps_index. intros detail. vm_compute. discriminate.
Defined.

(** ** Records, parsers, transport and reconciliation *)

Lemma keys_in_empty (allowed : list pystr) : keys_in allowed ∅.
Proof. apply map_Forall_empty. Qed.

Lemma keys_in_insert (allowed : list pystr) (k : pystr) (v : value) (r : record) :
  k ∈ allowed → keys_in allowed r → keys_in allowed (<[k := v]> r).
Proof. intros Hk Hr. by apply map_Forall_insert_2. Qed.

Lemma keys_in_update (allowed : list pystr) (r other : record) :
  keys_in allowed r → keys_in allowed other → keys_in allowed (dict_update r other).
Proof. intros Hr Ho. unfold dict_update. by apply map_Forall_union_2. Qed.

Lemma keys_in_mono (allowed allowed' : list pystr) (r : record) :
  allowed ⊆ allowed' → keys_in allowed r → keys_in allowed' r.
Proof. intros Hsub Hr k v Hk. apply Hsub. exact (Hr k v Hk). Qed.

Ltac keys_step :=
  repeat first
    [ assumption
    | apply keys_in_empty
    | apply keys_in_insert; [in_keys|]
    | apply keys_in_update ].

(** ** [parse_title_text] *)

Section title.
Context `{PyRuntime}.

Lemma parse_title_text_keys (title : pystr) (r : record) :
  parse_title_text title = Ok r → keys_in title_keys r.
Proof.
  unfold parse_title_text. cbv zeta. intros Hparse.
  apply bind_Ok in Hparse as (r2 & Hrooms & Hparse).
  apply bind_Ok in Hparse as (r3 & Harea & [= <-]).
  assert (keys_in title_keys r2) as H2.
  { repeat case_match; simplify_eq; try (apply bind_Ok in Hrooms as (? & _ & [= <-]));
      keys_step. }
  assert (keys_in title_keys r3) as H3.
  { repeat case_match; simplify_eq; try (apply bind_Ok in Harea as (? & _ & [= <-]));
      keys_step. }
  repeat case_match; keys_step.
Qed.

End title.

Section title.
Context `{PyRuntime}.

Lemma parse_title_text_raises (title : pystr) (e : exn) :
  parse_title_text title = Raise e → e = ValueError.
Proof.
  unfold parse_title_text. cbv zeta. intros Hparse.
  destruct (re_search rooms_pattern title) as [m|].
  - destruct (py_int_outcome (group_str m 1)) as [[n Hn]|Hn]; rewrite Hn in Hparse;
      simpl in Hparse; [|congruence].
    destruct (re_search area_pattern title) as [a|]; [|done].
    destruct (py_float_outcome (replace_char 44 46 (group_str a 1))) as [[f Hf]|Hf];
      rewrite Hf in Hparse; simpl in Hparse; congruence.
  - simpl in Hparse.
    destruct (re_search area_pattern title) as [a|]; [|done].
    destruct (py_float_outcome (replace_char 44 46 (group_str a 1))) as [[f Hf]|Hf];
      rewrite Hf in Hparse; simpl in Hparse; congruence.
Qed.

Lemma parse_title_text_type (title : pystr) (r : record) (v : value) :
  parse_title_text title = Ok r → r !! py "property_type" = Some v →
  ∃ fr en, (fr, en) ∈ property_types ∧ v = VStr en
           ∧ str_in fr (str_lower title) = true.
Proof.
  unfold parse_title_text. cbv zeta. intros Hparse Hv.
  apply bind_Ok in Hparse as (r2 & Hrooms & Hparse).
  apply bind_Ok in Hparse as (r3 & Harea & [= <-]).
  assert (r3 !! py "property_type" = Some v) as H3.
  { revert Hv. repeat case_match; rewrite ?lookup_insert_ne by other_key; done. }
  assert (r2 !! py "property_type" = Some v) as H2.
  { revert H3. destruct (re_search area_pattern title); simplify_eq; [|done].
    apply bind_Ok in Harea as (? & _ & [= <-]).
    by rewrite lookup_insert_ne by other_key. }
  clear Hv H3 Harea.
  destruct (list_find _ property_types) as [[i [fr en]]|] eqn:Hfind.
  - apply list_find_Some in Hfind as (Hi & Hin & _).
    exists fr, en. split; [by eapply list_elem_of_lookup_2|]. split; [|done].
    revert H2. destruct (re_search rooms_pattern title); simplify_eq.
    + apply bind_Ok in Hrooms as (? & _ & [= <-]).
      rewrite lookup_insert_ne by other_key. rewrite lookup_insert_eq. congruence.
    + rewrite lookup_insert_eq. congruence.
  - revert H2. destruct (re_search rooms_pattern title); simplify_eq.
    + apply bind_Ok in Hrooms as (? & _ & [= <-]).
      rewrite lookup_insert_ne by other_key. by rewrite lookup_empty.
    + by rewrite lookup_empty.
Qed.

(** The property type is that of the first entry of the vocabulary, in
    the order of the dict literal, whose French word occurs in the
    lowercased title. *)
Lemma parse_title_text_first (title : pystr) (r : record) :
  parse_title_text title = Ok r →
  r !! py "property_type"
  = (λ found : nat * (pystr * pystr), VStr found.2.2)
      <$> list_find (λ '(fr_type, _), str_in fr_type (str_lower title) = true)
            property_types.
Proof.
  unfold parse_title_text. cbv zeta. intros Hparse.
  apply bind_Ok in Hparse as (r2 & Hrooms & Hparse).
  apply bind_Ok in Hparse as (r3 & Harea & [= <-]).
  assert (∀ r' : record,
            match re_search district_pattern title with
            | Some district_match =>
              <[py "district" := VStr (group_str district_match 1)]> r'
            | None => r'
            end !! py "property_type" = r' !! py "property_type") as Hdistrict.
  { intros r'. destruct (re_search district_pattern title); [|done].
    by rewrite lookup_insert_ne by other_key. }
  rewrite Hdistrict.
  assert (match re_search postal_pattern title with
          | Some postal_match =>
            <[py "city" := VStr (strip (group_str postal_match 2))]>
              (<[py "postal_code" := VStr (group_str postal_match 1)]> r3)
          | None => r3
          end !! py "property_type" = r3 !! py "property_type") as ->.
  { destruct (re_search postal_pattern title); [|done].
    by rewrite !lookup_insert_ne by other_key. }
  assert (r3 !! py "property_type" = r2 !! py "property_type") as ->.
  { destruct (re_search area_pattern title); simplify_eq; [|done].
    apply bind_Ok in Harea as (? & _ & [= <-]).
    by rewrite lookup_insert_ne by other_key. }
  clear Harea Hdistrict.
  destruct (list_find _ property_types) as [[i [fr en]]|] eqn:Hfind; simpl.
  - destruct (re_search rooms_pattern title); simplify_eq.
    + apply bind_Ok in Hrooms as (? & _ & [= <-]).
      rewrite lookup_insert_ne by other_key. by rewrite lookup_insert_eq.
    + by rewrite lookup_insert_eq.
  - destruct (re_search rooms_pattern title); simplify_eq.
    + apply bind_Ok in Hrooms as (? & _ & [= <-]).
      rewrite lookup_insert_ne by other_key. by rewrite lookup_empty.
    + by rewrite lookup_empty.
Qed.

Lemma parse_title_text_first_entry (title : pystr) (r : record) (i : nat) (fr en : pystr) :
  parse_title_text title = Ok r →
  property_types !! i = Some (fr, en) →
  str_in fr (str_lower title) = true →
  (∀ j fr' en', (j < i)%nat → property_types !! j = Some (fr', en') →
     str_in fr' (str_lower title) = false) →
  r !! py "property_type" = Some (VStr en).
Proof.
  intros Hparse Hi Hin Hbefore. rewrite (parse_title_text_first _ _ Hparse).
  assert (list_find (λ '(fr_type, _), str_in fr_type (str_lower title) = true)
            property_types = Some (i, (fr, en))) as ->; [|done].
  apply list_find_Some. split; [done|]. split; [done|].
  intros j [fr' en'] Hj Hlt. rewrite (Hbefore j fr' en' Hlt Hj). done.
Qed.

Lemma parse_title_text_some_type (title : pystr) (r : record) (fr en : pystr) :
  parse_title_text title = Ok r →
  (fr, en) ∈ property_types → str_in fr (str_lower title) = true →
  is_Some (r !! py "property_type").
Proof.
  intros Hparse Hin Hfr. rewrite (parse_title_text_first _ _ Hparse).
  destruct (list_find_elem_of (λ '(fr_type, _), str_in fr_type (str_lower title) = true)
              property_types (fr, en) Hin Hfr) as [found ->].
  done.
Qed.

Lemma parse_title_text_no_type (title : pystr) (r : record) :
  parse_title_text title = Ok r →
  (∀ fr en, (fr, en) ∈ property_types → str_in fr (str_lower title) = false) →
  r !! py "property_type" = None.
Proof.
  intros Hparse Hnone. rewrite (parse_title_text_first _ _ Hparse).
  assert (list_find (λ '(fr_type, _), str_in fr_type (str_lower title) = true)
            property_types = None) as ->; [|done].
  apply list_find_None. apply Forall_forall. intros [fr en] Hin.
  rewrite (Hnone fr en Hin). done.
Qed.

End title.

Section nodigit.
Context `{PyRuntime}.

Lemma no_digit_is_digit (c : N) : to_decimal c = None → is_digit c = false.
Proof.
  intros Hc. unfold is_digit. apply bool_decide_eq_false_2. rewrite Hc. by intros [? ?].
Qed.

(** A pattern that has to start with a decimal digit finds nothing in a
    text without one. *)
Lemma search_from_no_digit (ignorecase : bool) (r : regex) (whole : pystr) :
  (∀ st, no_digit (rest st) → rmatch ignorecase r Some st = None) →
  ∀ s at_ before, no_digit s → search_from ignorecase r whole at_ before s = None.
Proof.
  intros Hr. induction s as [|c t IH]; intros at_ before Hs; simpl.
  - by rewrite Hr.
  - rewrite Hr by done. apply IH. by inversion Hs.
Qed.

Lemma digit_first_fails (ignorecase : bool) (k : mstate → option mstate) (st : mstate) :
  no_digit (rest st) → rmatch ignorecase digit k st = None.
Proof.
  intros Hst. simpl. destruct (rest st) as [|c t]; [done|].
  inversion Hst as [|? ? Hc _]; subst. unfold set_match. simpl.
  by rewrite (no_digit_is_digit c Hc).
Qed.

Lemma rooms_no_digit (title : pystr) :
  no_digit title → re_search rooms_pattern title = None.
Proof.
  intros Ht. apply search_from_no_digit; [|done]. intros st Hst.
  apply (digit_first_fails false). exact Hst.
Qed.

Lemma area_no_digit (title : pystr) :
  no_digit title → re_search area_pattern title = None.
Proof.
  intros Ht. apply search_from_no_digit; [|done]. intros st Hst.
  apply (digit_first_fails false). exact Hst.
Qed.

Lemma postal_no_digit (title : pystr) :
  no_digit title → re_search postal_pattern title = None.
Proof.
  intros Ht. apply search_from_no_digit; [|done]. intros st Hst.
  apply (digit_first_fails false). exact Hst.
Qed.

Lemma parse_title_text_no_digit (title : pystr) :
  no_digit title →
  ∃ r, parse_title_text title = Ok r
       ∧ r !! py "rooms" = None ∧ r !! py "living_area" = None
       ∧ r !! py "postal_code" = None ∧ r !! py "city" = None.
Proof.
  intros Ht. unfold parse_title_text. cbv zeta.
  rewrite (rooms_no_digit _ Ht), (area_no_digit _ Ht), (postal_no_digit _ Ht).
  simpl. eexists. split; [reflexivity|].
  repeat split; repeat case_match; rewrite ?lookup_insert_ne by other_key;
    by rewrite ?lookup_empty.
Qed.

End nodigit.

(** ** [parse_total_count] *)

Section count.
Context `{PyRuntime} `{BS4}.

Lemma digits_value_nonneg (s : pystr) :
  ∀ acc z, (0 ≤ acc)%Z → digits_value acc s = Some z → (0 ≤ z)%Z.
Proof.
  induction s as [|c t IH]; intros acc z Hacc; simpl.
  - by intros [= <-].
  - destruct (to_decimal c) as [d|]; [|done]. apply IH. lia.
Qed.

Lemma py_int_nonneg (s : pystr) (z : Z) : py_int s = Ok z → (0 ≤ z)%Z.
Proof.
  unfold py_int. cbv zeta. destruct (rstrip_by _ _); [done|].
  destruct (digits_value 0 _) as [z'|] eqn:Hz; [|done].
  destruct (over_digit_limit _); [done|]. intros [= <-].
  by eapply digits_value_nonneg.
Qed.

Lemma total_count_loop_total (headings : list tag) :
  ∃ n, total_count_loop headings = Ok n ∧ (0 ≤ n)%Z.
Proof.
  induction headings as [|h2 more IH]; simpl; [by exists 0%Z|].
  destruct (re_search count_pattern (get_text_strip h2)) as [m|]; [|exact IH].
  match goal with |- context [py_int ?s] => destruct (py_int_outcome s) as [[z Hz]|Hz] end;
    rewrite Hz; [|exact IH].
  exists z. split; [done|]. by eapply py_int_nonneg.
Qed.

Lemma total_count_loop_none (headings : list tag) :
  Forall (λ h2, re_search count_pattern (get_text_strip h2) = None) headings →
  total_count_loop headings = Ok 0%Z.
Proof. induction 1 as [|h2 more Hh _ IH]; simpl; [done|]. by rewrite Hh. Qed.

End count.

(** ** The [Property] dataclass *)

Lemma field_lookup_map (g : pystr → option value → value)
    (fs : list (pystr * option value)) (k : pystr) (d : option value) :
  NoDup fs.*1 → (k, d) ∈ fs →
  field_lookup k (map (λ '(name, dflt), (name, g name dflt)) fs) = Some (g k d).
Proof.
  induction fs as [|[n dn] fs IH]; intros Hnd Hin; [by apply elem_of_nil in Hin|].
  simpl in *. apply NoDup_cons in Hnd as [Hn Hnd].
  apply elem_of_cons in Hin as [[= <- <-]|Hin].
  - by rewrite bool_decide_eq_true_2.
  - rewrite bool_decide_eq_false_2; [by apply IH|].
    intros ->. apply Hn. apply list_elem_of_fmap. by exists (k, d).
Qed.

Lemma Property_fields_NoDup : NoDup Property_field_names.
Proof. apply (bool_decide_unpack _). vm_compute. exact I. Qed.

Lemma to_dict_names (now : pystr) (kwargs : record) (p : Property) :
  Property_new now kwargs = Ok p → (to_dict p).*1 = Property_field_names.
Proof.
  unfold Property_new. case_bool_decide; [|done]. intros [= <-]. reflexivity.
Qed.

Lemma Property_new_keys (now : pystr) (kwargs : record) :
  (keys_in Property_field_names kwargs → ∃ p, Property_new now kwargs = Ok p)
  ∧ (¬ keys_in Property_field_names kwargs → Property_new now kwargs = Raise TypeError).
Proof.
  unfold Property_new, keys_in. split; intros Hk.
  - rewrite bool_decide_eq_true_2 by done. eauto.
  - by rewrite bool_decide_eq_false_2.
Qed.

Lemma to_dict_lookup (now : pystr) (kwargs : record) (p : Property) :
  Property_new now kwargs = Ok p →
  (∀ k v, kwargs !! k = Some v → field_lookup k (to_dict p) = Some v)
  ∧ (∀ k d, (k, d) ∈ Property_fields → kwargs !! k = None →
       field_lookup k (to_dict p) = Some (default (VStr now) d)).
Proof.
  unfold Property_new. case_bool_decide as Hkeys; [|done]. intros [= <-].
  pose proof (field_lookup_map
                (λ name dflt, default (default (VStr now) dflt) (kwargs !! name))
                Property_fields) as Hfield.
  cbv beta in Hfield. split.
  - intros k v Hv. pose proof (Hkeys k v Hv) as Hk. cbv beta in Hk.
    apply list_elem_of_fmap in Hk as ([k' d] & Heq & Hin). simpl in Heq. subst k'.
    etrans; [exact (Hfield k d Property_fields_NoDup Hin)|]. by rewrite Hv.
  - intros k d Hin Hnone.
    etrans; [exact (Hfield k d Property_fields_NoDup Hin)|]. by rewrite Hnone.
Qed.

(** ** Listing cards *)

Lemma title_keys_card : title_keys ⊆ card_keys.
Proof. intros k Hk. unfold card_keys. apply elem_of_app. by right. Qed.

Lemma card_keys_fields : card_keys ⊆ Property_field_names.
Proof.
  apply (bool_decide_unpack _). vm_compute. exact I.
Qed.

Lemma not_title_key (k : pystr) (parsed : record) :
  k ∉ title_keys → keys_in title_keys parsed → parsed !! k = None.
Proof.
  intros Hk Hkeys. destruct (parsed !! k) as [v|] eqn:Hv; [|done].
  destruct Hk. exact (Hkeys k v Hv).
Qed.

Lemma bind_Ok_ret {A B} (m : result A) (g : A → B) (b : B) :
  (m ≫= λ a, Ok (g a)) = Ok b → ∃ a, m = Ok a ∧ b = g a.
Proof. destruct m as [a|e]; [|done]. intros [= <-]. eauto. Qed.

Lemma Ok_inj {A} (a b : A) : Ok a = Ok b → b = a.
Proof. by intros [= ->]. Qed.

Section card.
Context `{PyRuntime} `{BS4}.

Lemma card_record_insert (raw : pystr) (prop : record) (k : pystr) (v : value) :
  k ∈ card_keys → k ≠ py "url" → k ≠ py "listing_id" →
  card_record raw prop → card_record raw (<[k := v]> prop).
Proof.
  intros Hk Hu Hl (Hurl & Hid & Hkeys). split; [|split].
  - by rewrite lookup_insert_ne.
  - by rewrite lookup_insert_ne.
  - by apply keys_in_insert.
Qed.

Lemma card_record_update (raw : pystr) (prop parsed : record) :
  keys_in title_keys parsed → card_record raw prop →
  card_record raw (dict_update prop parsed).
Proof.
  intros Hparsed (Hurl & Hid & Hkeys). unfold dict_update. split; [|split].
  - rewrite lookup_union_r; [done|]. apply not_title_key; [in_keys|done].
  - rewrite lookup_union_r; [done|]. apply not_title_key; [in_keys|done].
  - apply keys_in_update; [done|]. by eapply keys_in_mono; [apply title_keys_card|].
Qed.

Ltac card_insert := apply card_record_insert; [in_keys|other_key|other_key|].

Lemma card_record_tags (raw text_ : pystr) (prop : record) :
  card_record raw prop → card_record raw (set_tags text_ prop).
Proof. intros Hp. unfold set_tags. by repeat card_insert. Qed.

Lemma card_record_contract (raw href : pystr) (prop : record) :
  card_record raw prop → card_record raw (set_contract_type href prop).
Proof. intros Hp. unfold set_contract_type. repeat case_match; try done; by card_insert. Qed.

Lemma extract_card_record (article : tag) (prop : record) :
  extract_listing_card_data article = Ok (Some prop) →
  ∃ link, find_href article (py "a") (searches annonce_pattern) = Some link
          ∧ card_record (default [] (get_href link)) prop.
Proof.
  unfold extract_listing_card_data.
  destruct (find_href article (py "a") (searches annonce_pattern)) as [link|]; [|done].
  cbv zeta. set (raw := default [] (get_href link)).
  fold (card_href raw).
  intros Hcard. exists link. split; [done|].
  match type of Hcard with
  | context [<[py "listing_id" := ?v]> ?p] =>
    assert (card_record raw (<[py "listing_id" := v]> p)) as Hstart
  end.
  { split; [|split].
    - rewrite lookup_insert_ne by other_key. unfold card_url.
      destruct (starts_with (py "/") (card_href raw)); apply lookup_singleton_eq.
    - apply lookup_insert_eq.
    - apply keys_in_insert; [in_keys|].
      destruct (starts_with (py "/") (card_href raw));
        apply map_Forall_singleton; in_keys. }
  apply bind_Ok in Hcard as (p1 & H1 & Hcard).
  apply bind_Ok in Hcard as (p2 & H2 & Hcard).
  apply bind_Ok in Hcard as (p3 & H3 & Hcard).
  apply bind_Ok in Hcard as (p4 & H4 & Hcard).
  apply Ok_inj, (inj Some) in Hcard as ->.
  assert (card_record raw p1) as Hp1.
  { destruct (find article (py "h3")).
    - apply bind_Ok_ret in H1 as (parsed & Hparsed & ->).
      apply card_record_update; [by eapply parse_title_text_keys|]. by card_insert.
    - by apply Ok_inj in H1 as ->. }
  assert (card_record raw p2) as Hp2.
  { destruct (find_string article (searches card_price_pattern)) as [price_elem|];
      [destruct (nonempty (string_text price_elem))|].
    - apply bind_Ok_ret in H2 as (? & _ & ->). by card_insert.
    - by apply Ok_inj in H2 as ->.
    - by apply Ok_inj in H2 as ->. }
  assert (card_record raw p3) as Hp3.
  { destruct (truthy _).
    - by apply Ok_inj in H3 as ->.
    - apply bind_Ok in H3 as ([?|] & _ & H3); apply Ok_inj in H3 as ->;
        [by card_insert|done]. }
  assert (card_record raw p4) as Hp4.
  { destruct (find_string article (searches card_sqm_pattern)) as [sqm|];
      [destruct (nonempty (string_text sqm))|].
    - apply bind_Ok_ret in H4 as (? & _ & ->). by card_insert.
    - by apply Ok_inj in H4 as ->.
    - by apply Ok_inj in H4 as ->. }
  by apply card_record_contract, card_record_tags.
Qed.

End card.

(** ** [parse_listing_urls] *)

Lemma head_split_char (sep : N) (s : pystr) :
  sep ∉ default [] (head (split_char sep s)).
Proof.
  induction s as [|c t IH]; simpl; [by apply not_elem_of_nil|].
  destruct (N.eqb_spec c sep) as [->|Hne]; simpl; [by apply not_elem_of_nil|].
  destruct (split_char sep t) as [|w ws]; simpl in *.
  - intros [->|Hin%elem_of_nil]%elem_of_cons; done.
  - intros [->|Hin]%elem_of_cons; done.
Qed.

Lemma card_url_absolute_plain (raw : pystr) : absolute_plain (card_url raw).
Proof.
  unfold absolute_plain, card_url.
  pose proof (head_split_char 63 raw) as Hq. fold (card_href raw) in Hq.
  destruct (starts_with (py "/") (card_href raw)) eqn:Hs.
  - split; [|reflexivity].
    intros [Hin|Hin]%elem_of_app; [|done].
    revert Hin. apply (bool_decide_unpack _). vm_compute. exact I.
  - done.
Qed.

Section urls.
Context `{PyRuntime} `{BS4}.

Lemma listing_urls_loop_spec (articles : list tag) :
  ∀ urls, NoDup urls → Forall absolute_plain urls →
    NoDup (listing_urls_loop articles urls)
    ∧ Forall absolute_plain (listing_urls_loop articles urls)
    ∧ urls ⊆ listing_urls_loop articles urls
    ∧ ∀ article link c h,
        article ∈ articles →
        find_href article (py "a") (searches annonce_pattern) = Some link →
        get_href link = Some (c :: h) →
        card_url (c :: h) ∈ listing_urls_loop articles urls.
Proof.
  induction articles as [|a more IH]; intros urls Hnd Hq; simpl.
  - repeat split; [done..|]. intros article link c h Hin. by apply elem_of_nil in Hin.
  - destruct (find_href a (py "a") (searches annonce_pattern)) as [link|] eqn:Hlink.
    2:{ destruct (IH urls Hnd Hq) as (? & ? & ? & Hall). repeat split; [done..|].
        intros article link c h [->|Hin]%elem_of_cons; [congruence|]. by eapply Hall. }
    destruct (get_href link) as [[|c h]|] eqn:Hhref.
    1,3:
      destruct (IH urls Hnd Hq) as (? & ? & ? & Hall); repeat split; [done..|];
      intros article link' c' h' [->|Hin]%elem_of_cons; [congruence|]; by eapply Hall.
    fold (card_href (c :: h)). fold (card_url (c :: h)).
    case_bool_decide as Hmem.
    + destruct (IH urls Hnd Hq) as (? & ? & Hsub & Hall). repeat split; [done..|].
      intros article link' c' h' [->|Hin]%elem_of_cons; [|by eapply Hall].
      intros Hl Hh. simplify_eq. by apply Hsub.
    + destruct (IH (urls ++ [card_url (c :: h)])) as (? & ? & Hsub & Hall).
      * apply NoDup_app. split; [done|]. split; [|apply NoDup_singleton].
        intros u Hu ->%list_elem_of_singleton. done.
      * apply Forall_app. split; [done|]. apply Forall_singleton.
        apply card_url_absolute_plain.
      * repeat split; [done..| |].
        -- intros u Hu. apply Hsub. apply elem_of_app. by left.
        -- intros article link' c' h' [->|Hin]%elem_of_cons; [|by eapply Hall].
           intros Hl Hh. simplify_eq. apply Hsub. apply elem_of_app. right.
           by apply list_elem_of_singleton.
Qed.

Lemma listings_loop_cards (articles : list tag) (p : record) :
  p ∈ (listings_loop articles).1 →
  ∃ article link,
    article ∈ articles
    ∧ find_href article (py "a") (searches annonce_pattern) = Some link
    ∧ card_record (default [] (get_href link)) p
    ∧ card_url (default [] (get_href link)) ≠ [].
Proof.
  induction articles as [|a more IH]; simpl; [by intros ?%elem_of_nil|].
  destruct (listings_loop more) as [properties logs]. simpl in IH.
  assert (p ∈ properties → ∃ article link,
    article ∈ a :: more
    ∧ find_href article (py "a") (searches annonce_pattern) = Some link
    ∧ card_record (default [] (get_href link)) p
    ∧ card_url (default [] (get_href link)) ≠ []) as Hmore.
  { intros Hin. destruct (IH Hin) as (article & link & ? & ? & ? & ?).
    exists article, link. split; [by right|done]. }
  destruct (extract_listing_card_data a) as [[prop|]|e] eqn:Hcard; simpl; [|done..].
  destruct (bool_decide (prop ≠ ∅) && truthy (dict_get prop (py "url"))) eqn:Hkeep;
    simpl; [|done].
  intros [->|Hin]%elem_of_cons; [|by apply Hmore].
  apply extract_card_record in Hcard as (link & Hlink & Hrec).
  exists a, link. split; [by left|]. split; [done|]. split; [done|].
  apply andb_prop in Hkeep as [_ Htruthy]. destruct Hrec as (Hurl & _).
  unfold dict_get in Htruthy. rewrite Hurl in Htruthy. simpl in Htruthy.
  by destruct (card_url _).
Qed.

End urls.

(** ** The keys of a detail record *)

Lemma title_keys_fields : title_keys ⊆ Property_field_names.
Proof. apply (bool_decide_unpack _). vm_compute. exact I. Qed.

Lemma merge_detail_keys (allowed : list pystr) (index detail : record) :
  keys_in allowed index → keys_in allowed detail →
  keys_in allowed (merge_detail index detail).
Proof.
  intros Hi Hd k v. rewrite merge_detail_lookup.
  destruct (detail !! k) as [w|] eqn:Hw.
  - destruct (truthy w && _).
    + intros [= <-]. exact (Hd k w Hw).
    + apply Hi.
  - apply Hi.
Qed.

Section detail_keys.
Context `{PyRuntime} `{BS4}.
Variable allowed : list pystr.
Variable url : pystr.
Hypothesis fields_allowed : Property_field_names ⊆ allowed.

Local Abbreviation inv := (detail_record allowed url).

Lemma detail_record_insert (prop : record) (k : pystr) (v : value) :
  k ∈ Property_field_names → k ≠ py "url" → k ≠ py "listing_id" →
  inv prop → inv (<[k := v]> prop).
Proof.
  intros Hk Hu Hl (Hurl & Hid & Hkeys). split; [|split].
  - by rewrite lookup_insert_ne.
  - by rewrite lookup_insert_ne.
  - apply keys_in_insert; [by apply fields_allowed|done].
Qed.

Ltac field_insert := apply detail_record_insert; [in_keys|other_key|other_key|].

Lemma detail_identity_record : inv (detail_identity url).
Proof.
  unfold detail_identity. cbv zeta. split; [|split].
  - rewrite lookup_insert_ne by other_key. apply lookup_singleton_eq.
  - apply lookup_insert_eq.
  - apply keys_in_insert; [apply fields_allowed; in_keys|].
    apply map_Forall_singleton. apply fields_allowed. in_keys.
Qed.

Lemma detail_title_record (soup : tag) (prop prop' : record) :
  inv prop → detail_title soup prop = Ok prop' → inv prop'.
Proof.
  intros Hinv Hpass. unfold detail_title in Hpass.
  destruct (find soup (py "h1")); [|by apply Ok_inj in Hpass as ->].
  apply bind_Ok_ret in Hpass as (parsed & Hparsed%parse_title_text_keys & ->).
  assert (inv (<[py "title" := VStr (get_text_strip t)]> prop)) as (Hurl & Hid & Hkeys)
    by by field_insert.
  unfold dict_update. split; [|split].
  - rewrite lookup_union_r; [done|]. apply not_title_key; [in_keys|done].
  - rewrite lookup_union_r; [done|]. apply not_title_key; [in_keys|done].
  - apply keys_in_update; [done|].
    eapply keys_in_mono; [|exact Hparsed]. etrans; [apply title_keys_fields|done].
Qed.

Tactic Notation "pure_pass" reference(f) :=
  intros Hinv; unfold f; repeat case_match; try done; repeat field_insert; done.

Tactic Notation "result_pass" reference(f) :=
  let Hpass := fresh "Hpass" in
  intros Hinv Hpass; unfold f in Hpass; repeat case_match;
  first [ apply Ok_inj in Hpass as ->; done
        | apply bind_Ok_ret in Hpass as (? & _ & ->); repeat field_insert; done ].

Lemma detail_price_record (text_ : pystr) (prop prop' : record) :
  inv prop → detail_price text_ prop = Ok prop' → inv prop'.
Proof. result_pass detail_price. Qed.

Lemma detail_price_per_sqm_record (text_ : pystr) (prop prop' : record) :
  inv prop → detail_price_per_sqm text_ prop = Ok prop' → inv prop'.
Proof. result_pass detail_price_per_sqm. Qed.

Lemma detail_fees_record (text_ : pystr) (prop prop' : record) :
  inv prop → detail_fees text_ prop = Ok prop' → inv prop'.
Proof. result_pass detail_fees. Qed.

Lemma detail_price_without_fees_record (text_ : pystr) (prop prop' : record) :
  inv prop → detail_price_without_fees text_ prop = Ok prop' → inv prop'.
Proof. result_pass detail_price_without_fees. Qed.

Lemma detail_floor_record (text_ : pystr) (prop : record) :
  inv prop → inv (detail_floor text_ prop).
Proof. pure_pass detail_floor. Qed.

Lemma detail_exposure_record (text_ : pystr) (prop : record) :
  inv prop → inv (detail_exposure text_ prop).
Proof. pure_pass detail_exposure. Qed.

Lemma detail_heating_record (text_ : pystr) (prop : record) :
  inv prop → inv (detail_heating text_ prop).
Proof. pure_pass detail_heating. Qed.

Lemma detail_dpe_date_record (text_ : pystr) (prop : record) :
  (is_Some (re_search dpe_date_pattern text_) → py "dpe_date" ∈ allowed) →
  inv prop → inv (detail_dpe_date text_ prop).
Proof.
  intros Hdpe (Hurl & Hid & Hkeys). unfold detail_dpe_date.
  destruct (re_search dpe_date_pattern text_) as [m|]; [|done].
  split; [|split].
  - by rewrite lookup_insert_ne by other_key.
  - by rewrite lookup_insert_ne by other_key.
  - apply keys_in_insert; [|done]. apply Hdpe. eauto.
Qed.

Lemma detail_energy_record (soup : tag) (prop prop' : record) :
  inv prop → detail_energy soup prop = Ok prop' → inv prop'.
Proof. result_pass detail_energy. Qed.

Lemma detail_energy_letter_record (soup : tag) (prop : record) :
  inv prop → inv (detail_energy_letter soup prop).
Proof. pure_pass detail_energy_letter. Qed.

Lemma detail_ges_record (text_ : pystr) (prop prop' : record) :
  inv prop → detail_ges text_ prop = Ok prop' → inv prop'.
Proof. result_pass detail_ges. Qed.

Lemma detail_energy_bill_record (text_ : pystr) (prop prop' : record) :
  inv prop → detail_energy_bill text_ prop = Ok prop' → inv prop'.
Proof.
  intros Hinv Hpass. unfold detail_energy_bill in Hpass.
  destruct (re_search bill_pattern text_); [|by apply Ok_inj in Hpass as ->].
  apply bind_Ok in Hpass as (lo & _ & Hpass).
  apply bind_Ok_ret in Hpass as (hi & _ & ->). by repeat field_insert.
Qed.

Lemma detail_mandate_record (text_ : pystr) (prop : record) :
  inv prop → inv (detail_mandate text_ prop).
Proof. pure_pass detail_mandate. Qed.

Lemma detail_reference_record (text_ : pystr) (prop : record) :
  inv prop → inv (detail_reference text_ prop).
Proof. pure_pass detail_reference. Qed.

Lemma detail_dates_record (text_ : pystr) (prop : record) :
  inv prop → inv (detail_dates text_ prop).
Proof. pure_pass detail_dates. Qed.

Lemma detail_agency_record (soup : tag) (prop : record) :
  inv prop → inv (detail_agency soup prop).
Proof. pure_pass detail_agency. Qed.

Lemma detail_description_record (soup : tag) (prop : record) :
  inv prop → inv (detail_description soup prop).
Proof. pure_pass detail_description. Qed.

Lemma set_tags_record (text_ : pystr) (prop : record) :
  inv prop → inv (set_tags text_ prop).
Proof. pure_pass set_tags. Qed.

Lemma set_contract_type_record (href : pystr) (prop : record) :
  inv prop → inv (set_contract_type href prop).
Proof. pure_pass set_contract_type. Qed.

Lemma parse_property_detail_record (html : pystr) (detail : record) :
  (is_Some (re_search dpe_date_pattern (get_text (BeautifulSoup html))) →
   py "dpe_date" ∈ allowed) →
  parse_property_detail html url = Ok detail → inv detail.
Proof.
  intros Hdpe Hparse. unfold parse_property_detail in Hparse. cbv zeta in Hparse.
  apply bind_Ok in Hparse as (p1 & H1 & Hparse).
  apply bind_Ok in Hparse as (p2 & H2 & Hparse).
  apply bind_Ok in Hparse as (p3 & H3 & Hparse).
  apply bind_Ok in Hparse as (p4 & H4 & Hparse).
  apply bind_Ok in Hparse as (p5 & H5 & Hparse).
  apply bind_Ok in Hparse as (p6 & H6 & Hparse).
  apply bind_Ok in Hparse as (p7 & H7 & Hparse).
  apply bind_Ok in Hparse as (p8 & H8 & Hparse). apply Ok_inj in Hparse as ->.
  apply set_contract_type_record, set_tags_record, detail_description_record,
    detail_agency_record, detail_dates_record, detail_reference_record,
    detail_mandate_record.
  eapply detail_energy_bill_record; [|exact H8].
  eapply detail_ges_record; [|exact H7].
  apply detail_energy_letter_record.
  eapply detail_energy_record; [|exact H6].
  apply detail_dpe_date_record; [done|].
  apply detail_heating_record, detail_exposure_record, detail_floor_record.
  eapply detail_price_without_fees_record; [|exact H5].
  eapply detail_fees_record; [|exact H4].
  eapply detail_price_per_sqm_record; [|exact H3].
  eapply detail_price_record; [|exact H2].
  eapply detail_title_record; [|exact H1].
  apply detail_identity_record.
Qed.

End detail_keys.

(** ** Deduplication: what it keeps *)

Lemma py_eq_sym_false v w : py_eq v w = false → py_eq w v = false.
Proof.
  intros Hvw. destruct (py_eq w v) eqn:Hwv; [|done].
  apply py_eq_sym in Hwv. congruence.
Qed.

Lemma first_occurrences_sublist (records : list record) :
  ∀ earlier, first_occurrences earlier records `sublist_of` records.
Proof.
  induction records as [|r more IH]; intros earlier; simpl; [done|].
  destruct (truthy _ && _); simpl.
  - apply sublist_skip, IH.
  - apply sublist_cons, IH.
Qed.

Lemma first_occurrences_truthy (records : list record) :
  ∀ earlier, Forall (λ p, truthy (listing_id_of p) = true)
               (first_occurrences earlier records).
Proof.
  induction records as [|r more IH]; intros earlier; simpl; [done|].
  destruct (truthy (listing_id_of r)) eqn:Hr; simpl; [|apply IH].
  destruct (forallb _ earlier); simpl; [|apply IH].
  constructor; [done|apply IH].
Qed.

Lemma first_occurrences_distinct (records : list record) :
  ∀ earlier,
    distinct_by listing_id_of (first_occurrences earlier records) = true
    ∧ ∀ p q, p ∈ first_occurrences earlier records → q ∈ earlier →
        py_eq (listing_id_of p) (listing_id_of q) = false.
Proof.
  induction records as [|r more IH]; intros earlier; simpl.
  - split; [done|]. by intros p q ?%elem_of_nil.
  - destruct (IH (earlier ++ [r])) as (Hdistinct & Hfresh).
    assert (∀ p q, p ∈ first_occurrences (earlier ++ [r]) more → q ∈ earlier →
              py_eq (listing_id_of p) (listing_id_of q) = false) as Hfresh'.
    { intros p q Hp Hq. apply Hfresh; [done|]. apply elem_of_app. by left. }
    destruct (truthy (listing_id_of r) && _) eqn:Hkeep; simpl; [|done].
    apply andb_prop in Hkeep as [_ Hfirst]. split.
    + rewrite Hdistinct, andb_true_r. apply forallb_forall. intros p Hp%list_elem_of_In.
      apply negb_true_iff, py_eq_sym_false. apply Hfresh; [done|].
      apply elem_of_app. right. by apply list_elem_of_singleton.
    + intros p q [->|Hp]%elem_of_cons Hq; [|by apply Hfresh'].
      rewrite forallb_forall in Hfirst. apply negb_true_iff, Hfirst.
      by apply list_elem_of_In.
Qed.

Lemma first_occurrences_fixed (records : list record) :
  ∀ earlier,
    Forall (λ p, truthy (listing_id_of p) = true) records →
    distinct_by listing_id_of records = true →
    (∀ p q, p ∈ records → q ∈ earlier →
       py_eq (listing_id_of p) (listing_id_of q) = false) →
    first_occurrences earlier records = records.
Proof.
  induction records as [|r more IH]; intros earlier Htruthy Hdistinct Hfresh; [done|].
  simpl. inversion Htruthy as [|? ? Hr Hmore]; subst.
  simpl in Hdistinct. apply andb_prop in Hdistinct as [Hr_more Hdistinct].
  rewrite Hr. simpl.
  replace (forallb _ earlier) with true.
  - simpl. f_equal. apply IH; [done..|].
    intros p q Hp [Hq|Hq%list_elem_of_singleton]%elem_of_app.
    + apply Hfresh; [by right|done].
    + subst q. rewrite forallb_forall in Hr_more. apply py_eq_sym_false, negb_true_iff, Hr_more.
      by apply list_elem_of_In.
  - symmetry. apply forallb_forall. intros q Hq%list_elem_of_In.
    apply negb_true_iff, Hfresh; [by left|done].
Qed.

Lemma py_eq_str (s : pystr) (w : value) : py_eq (VStr s) w = true ↔ w = VStr s.
Proof.
  rewrite py_eq_cases. split.
  - intros [[[=] _]|[(s' & [= <-] & ->)|(n & [=] & _)]]. done.
  - intros ->. right. left. eauto.
Qed.

Lemma first_occurrences_covers (records : list record) :
  ∀ earlier p s, p ∈ records → listing_id_of p = VStr s → s ≠ [] →
    ∃ q, (q ∈ earlier ∨ q ∈ first_occurrences earlier records)
         ∧ listing_id_of q = VStr s.
Proof.
  induction records as [|r more IH]; intros earlier p s Hp Hid Hs;
    [by apply elem_of_nil in Hp|].
  simpl. apply elem_of_cons in Hp as [->|Hp].
  - rewrite Hid. destruct s as [|c s]; [done|]. simpl.
    destruct (forallb _ earlier) eqn:Hfirst; simpl.
    + exists r. split; [right; by left|done].
    + rewrite forallb_negb in Hfirst. apply negb_false_iff in Hfirst.
      apply existsb_exists in Hfirst as (q & Hq & Heq).
      exists q. split; [left; by apply list_elem_of_In|]. by apply py_eq_str in Heq.
  - destruct (IH (earlier ++ [r]) p s Hp Hid Hs) as (q & Hq & Heq).
    destruct Hq as [[Hq|Hq%list_elem_of_singleton]%elem_of_app|Hq].
    + exists q. split; [by left|done].
    + subst q. rewrite Heq. destruct s as [|c s]; [done|]. simpl.
      destruct (forallb _ earlier) eqn:Hfirst; simpl.
      * exists r. split; [right; by left|done].
      * rewrite forallb_negb in Hfirst. apply negb_false_iff in Hfirst.
        apply existsb_exists in Hfirst as (q & Hq & Heq').
        exists q. split; [left; by apply list_elem_of_In|]. by apply py_eq_str in Heq'.
    + exists q. split; [|done]. right. apply elem_of_app. by right.
Qed.

Lemma dedupe_spec (l : list record) : dedupe l = first_occurrences [] l.
Proof. unfold dedupe. by rewrite (dedupe_loop_spec l [] [] []). Qed.

(** ** The merge: stability *)

Lemma merge_detail_idempotent (index detail : record) :
  merge_detail (merge_detail index detail) detail = merge_detail index detail.
Proof.
  apply map_eq. intros k. rewrite (merge_detail_lookup (merge_detail _ _)).
  unfold dict_get. rewrite !merge_detail_lookup. fold (dict_get index k).
  destruct (detail !! k) as [v|]; [|done].
  destruct (truthy v) eqn:Hv; simpl; [|done].
  destruct (truthy (dict_get index k)) eqn:Hi; simpl.
  - destruct (bool_decide (k ∈ always_prefer_detail)); simpl.
    + rewrite Hv. simpl. done.
    + fold (dict_get index k). rewrite Hi. done.
  - rewrite Hv. simpl. by destruct (bool_decide _).
Qed.

Lemma merge_detail_empty (index : record) : merge_detail index ∅ = index.
Proof. apply map_eq. intros k. by rewrite merge_detail_lookup, lookup_empty. Qed.

Lemma merge_keeps_index_truthy (index detail : record) (key : pystr) :
  truthy (dict_get index key) = true →
  truthy (dict_get (merge_detail index detail) key) = true.
Proof.
  intros Hi. unfold dict_get at 1. rewrite merge_detail_lookup.
  destruct (detail !! key) as [v|]; [|exact Hi].
  destruct (truthy v) eqn:Hv; simpl; [|exact Hi].
  rewrite Hi. simpl. destruct (bool_decide _); [exact Hv|exact Hi].
Qed.

Lemma merge_keeps_identity (index detail : record) (key : pystr) :
  key ∉ always_prefer_detail → truthy (dict_get index key) = true →
  merge_detail index detail !! key = index !! key.
Proof.
  intros Hkey Hi. rewrite merge_detail_lookup.
  destruct (detail !! key) as [v|]; [|done].
  rewrite Hi, bool_decide_eq_false_2 by done. simpl. by rewrite andb_false_r.
Qed.

(** ** Runs that return *)

Lemma run_ok_spec {A} (P : event → Prop) (Q : A → Prop) (m : M A) :
  run_ok P Q m → run_spec P Q m.
Proof.
  intros Hm tr. destruct (Hm tr) as (a & new & Heq & Hnew & Ha).
  exists new. rewrite Heq. simpl. repeat split; [done|]. by intros a' [= <-].
Qed.

Lemma run_ok_mono {A} (P P' : event → Prop) (Q Q' : A → Prop) (m : M A) :
  (∀ e, P e → P' e) → (∀ a, Q a → Q' a) → run_ok P Q m → run_ok P' Q' m.
Proof.
  intros HP HQ Hm tr. destruct (Hm tr) as (a & new & Heq & Hnew & Ha).
  exists a, new. split; [done|]. split; [|by auto].
  eapply list.Forall_impl; [exact Hnew|done].
Qed.

Lemma run_ok_ret {A} (P : event → Prop) (Q : A → Prop) (a : A) :
  Q a → run_ok P Q (mret a).
Proof. intros Ha tr. exists a, []. by rewrite app_nil_r. Qed.

Lemma run_ok_bind {A B} (P : event → Prop) (Q : A → Prop) (R : B → Prop)
    (m : M A) (f : A → M B) :
  run_ok P Q m → (∀ a, Q a → run_ok P R (f a)) → run_ok P R (m ≫= f).
Proof.
  intros Hm Hf tr. destruct (Hm tr) as (a & new & Heq & Hnew & Ha).
  destruct (Hf a Ha (tr ++ new)) as (b & new' & Heq' & Hnew' & Hb).
  exists b, (new ++ new'). unfold mbind, M_bind. rewrite Heq, Heq', app_assoc.
  split; [done|]. split; [by apply Forall_app|done].
Qed.

Lemma run_ok_then {A B} (P : event → Prop) (R : B → Prop) (m : M A) (f : A → M B) :
  run_ok P (λ _, True) m → (∀ a, run_ok P R (f a)) → run_ok P R (m ≫= f).
Proof. intros Hm Hf. eapply run_ok_bind; [exact Hm|]. intros a _. apply Hf. Qed.

Lemma run_ok_emit_all (P : event → Prop) (es : list event) :
  Forall P es → run_ok P (λ _, True) (emit_all es).
Proof. intros Hes tr. by exists (), es. Qed.

Lemma run_ok_emit (P : event → Prop) (e : event) :
  P e → run_ok P (λ _, True) (emit e).
Proof. intros He tr. exists (), [e]. repeat split. by constructor. Qed.

Lemma run_ok_log (self : BieniciScraper) (lvl : level) (msg : message) :
  run_ok (by_scraper self) (λ _, True) (log lvl msg).
Proof. by apply run_ok_emit. Qed.

Lemma run_ok_lift {A} (P : event → Prop) (Q : A → Prop) (r : result A) :
  (∃ a, r = Ok a ∧ Q a) → run_ok P Q (lift r).
Proof. intros (a & -> & Ha) tr. exists a, []. by rewrite app_nil_r. Qed.

Lemma run_ok_except {A} (P : event → Prop) (Q : A → Prop) (m : M A) (h : exn → M A) :
  run_spec P Q m → (∀ e, run_ok P Q (h e)) → run_ok P Q (except m h).
Proof.
  intros Hm Hh tr. destruct (Hm tr) as (new & Htr & Hnew & Hret).
  unfold except. destruct (m tr) as [[a|e] tr1]; simpl in *; subst tr1.
  - exists a, new. repeat split; [done|]. by apply Hret.
  - destruct (Hh e (tr ++ new)) as (a & new' & -> & Hnew' & Ha).
    exists a, (new ++ new'). rewrite app_assoc. split; [done|].
    split; [by apply Forall_app|done].
Qed.

Lemma run_ok_for_each {A S} (P : event → Prop) (I : S → Prop) (l : list A)
    (body : A → S → M S) :
  (∀ x s, x ∈ l → I s → run_ok P I (body x s)) →
  ∀ s, I s → run_ok P I (for_each l body s).
Proof.
  induction l as [|x l IH]; intros Hbody s Hs; simpl.
  - by apply run_ok_ret.
  - eapply run_ok_bind.
    + apply Hbody; [by left|done].
    + intros s' Hs'. apply IH; [|done]. intros y s'' Hy. apply Hbody. by right.
Qed.

Section discipline.
Context `{PyRuntime} `{BS4}.
Variable http : list event → value → pystr → Z → option pystr.
Variable clock : list event → pystr.
Variable as_completed : list event → ∀ A : Type, list A → list A.
Variable self : BieniciScraper.

Local Abbreviation P := (by_scraper self).

Lemma run_ok_session_get (url : value) :
  run_ok P (λ _, True) (session_get http self url).
Proof.
  intros tr. eexists _, [Request url (api_key self) (timeout self)].
  split; [reflexivity|]. split; [|done]. by repeat constructor.
Qed.

Lemma run_ok_fetch_attempts (url : value) :
  ∀ todo attempt, (attempt + todo = 3)%nat →
    run_ok P (λ _, True) (fetch_attempts http self url 3 attempt todo).
Proof.
  induction todo as [|todo IH]; intros attempt Hsum; simpl.
  - eapply run_ok_then; [apply run_ok_log|]. intros _. by apply run_ok_ret.
  - eapply run_ok_then; [apply run_ok_session_get|]. intros [text_|].
    + by apply run_ok_ret.
    + eapply run_ok_then; [apply run_ok_log|]. intros _.
      eapply run_ok_then; [|intros _; apply IH; lia].
      destruct (Z.ltb_spec (Z.of_nat attempt) (Z.of_nat 3 - 1)) as [Hlt|_];
        [|by apply run_ok_ret].
      eapply run_ok_then; [apply run_ok_log|]. intros _.
      apply run_ok_emit. simpl.
      assert (attempt = 0 ∨ attempt = 1)%nat as [-> | ->] by lia; [by left|by right].
Qed.

Lemma run_ok_fetch_page (url : value) :
  run_ok P (λ _, True) (_fetch_page http self url).
Proof. apply run_ok_fetch_attempts. reflexivity. Qed.

Lemma listings_loop_logs (articles : list tag) :
  Forall is_log (listings_loop articles).2.
Proof.
  induction articles as [|a more IH]; simpl; [done|].
  destruct (listings_loop more) as [properties logs]. simpl in IH.
  destruct (extract_listing_card_data a) as [[prop|]|e]; simpl; try done.
  - by destruct (_ && _).
  - by constructor.
Qed.

Lemma is_log_by_scraper (e : event) : is_log e → P e.
Proof. by destruct e. Qed.

Lemma run_ok_scrape_page (location contract_type property_type : pystr) (page : Z) :
  run_ok P (λ _, True) (scrape_page http self location contract_type property_type page).
Proof.
  unfold scrape_page. cbv zeta.
  eapply run_ok_then; [apply run_ok_log|]. intros _.
  eapply run_ok_then; [apply run_ok_fetch_page|]. intros html.
  destruct (falsy_html html); [by apply run_ok_ret|].
  eapply run_ok_then.
  - destruct (page =? 1)%Z; [|by apply run_ok_ret].
    apply run_ok_lift. destruct (total_count_loop_total
      (find_all (BeautifulSoup (default [] html)) [py "h2"])) as (n & Hn & _).
    exists n. by split.
  - intros total_count.
    pose proof (listings_loop_logs
      (find_all (BeautifulSoup (default [] html)) [py "article"])) as Hlogs.
    unfold parse_listings_from_page.
    destruct (listings_loop _) as [properties warnings]. simpl in Hlogs.
    eapply run_ok_then; [|intros _; by apply run_ok_ret].
    apply run_ok_emit_all. eapply list.Forall_impl; [exact Hlogs|].
    apply is_log_by_scraper.
Qed.

Lemma run_ok_page_task (location contract_type property_type : pystr) (page : Z)
    (all_properties : list record) :
  run_ok P (λ _, True)
    (page_task http self location contract_type property_type page all_properties).
Proof.
  unfold page_task. apply run_ok_except.
  - apply run_ok_spec. eapply run_ok_then; [apply run_ok_scrape_page|].
    intros [total page_properties].
    eapply run_ok_then; [apply run_ok_log|]. intros _. by apply run_ok_ret.
  - intros e. eapply run_ok_then; [apply run_ok_log|]. intros _. by apply run_ok_ret.
Qed.

Lemma run_ok_thread_pool : (1 ≤ max_workers self)%Z →
  run_ok P (λ _, True) (thread_pool (max_workers self)).
Proof.
  intros Hn. unfold thread_pool. destruct (Z.leb_spec (max_workers self) 0); [lia|].
  by apply run_ok_emit.
Qed.

Lemma run_ok_completion {A} (tasks : list A) :
  run_ok P (λ _, True) (completion as_completed tasks).
Proof. intros tr. eexists _, []. by rewrite app_nil_r. Qed.

Lemma run_ok_collect_pages (location contract_type property_type : pystr)
    (max_pages : option Z) :
  (1 ≤ max_workers self)%Z →
  run_ok P (λ _, True)
    (collect_pages http as_completed self location contract_type property_type max_pages).
Proof.
  intros Hworkers. unfold collect_pages. cbv zeta.
  eapply run_ok_then; [apply run_ok_log|]. intros _.
  eapply run_ok_then; [apply run_ok_log|]. intros _.
  eapply run_ok_then; [apply run_ok_fetch_page|]. intros html.
  destruct (falsy_html html).
  { eapply run_ok_then; [apply run_ok_log|]. intros _. by apply run_ok_ret. }
  eapply run_ok_then.
  { apply run_ok_lift. destruct (total_count_loop_total
      (find_all (BeautifulSoup (default [] html)) [py "h2"])) as (n & Hn & _).
    exists n. by split. }
  intros total_count.
  pose proof (listings_loop_logs
    (find_all (BeautifulSoup (default [] html)) [py "article"])) as Hlogs.
  unfold parse_listings_from_page.
  destruct (listings_loop _) as [first_page_properties warnings]. simpl in Hlogs.
  eapply run_ok_then.
  { apply run_ok_emit_all. eapply list.Forall_impl; [exact Hlogs|].
    apply is_log_by_scraper. }
  intros _. destruct first_page_properties as [|p0 first].
  { eapply run_ok_then; [apply run_ok_log|]. intros _. by apply run_ok_ret. }
  eapply run_ok_then; [apply run_ok_log|]. intros _.
  eapply run_ok_then; [apply run_ok_log|]. intros _.
  eapply run_ok_then; [|intros all_properties; by apply run_ok_ret].
  destruct (1 <? _)%Z; [|by apply run_ok_ret].
  eapply run_ok_then; [by apply run_ok_thread_pool|]. intros _.
  eapply run_ok_then; [apply run_ok_completion|]. intros order.
  apply (run_ok_for_each P (λ _, True)); [|done].
  intros page all_properties _ _. apply run_ok_page_task.
Qed.

Lemma run_spec_scrape_detail_by (url : value) :
  run_spec P (λ _, True) (scrape_detail http self url).
Proof.
  unfold scrape_detail.
  eapply run_spec_then; [apply run_ok_spec, run_ok_log|]. intros _.
  eapply run_spec_then; [apply run_ok_spec, run_ok_fetch_page|]. intros html.
  destruct (falsy_html html); [by apply run_spec_ret|].
  destruct url; try apply run_spec_raise.
  eapply run_spec_then; [apply run_spec_lift|]. intros detail.
  by apply run_spec_ret.
Qed.

Lemma run_ok_enrich_one (url : value) (d : odict record) :
  run_ok P (λ _, True) (enrich_one http self url d).
Proof.
  unfold enrich_one. apply run_ok_except.
  - eapply run_spec_then; [apply run_spec_scrape_detail_by|]. intros detail.
    destruct detail as [detail|], (odict_get url d) as [index|];
      try by apply run_spec_ret.
    destruct (bool_decide _); by apply run_spec_ret.
  - intros e. eapply run_ok_then; [apply run_ok_log|]. intros _. by apply run_ok_ret.
Qed.

Lemma run_ok_enrich (properties : list record) :
  (1 ≤ max_workers self)%Z →
  run_ok P (λ _, True) (_enrich_with_details http as_completed self properties).
Proof.
  intros Hworkers. unfold _enrich_with_details. cbv zeta.
  destruct (omap _ properties) as [|u0 urls]; [by apply run_ok_ret|].
  eapply run_ok_then; [by apply run_ok_thread_pool|]. intros _.
  eapply run_ok_then; [apply run_ok_completion|]. intros order.
  eapply run_ok_then; [|intros d; by apply run_ok_ret].
  apply (run_ok_for_each P (λ _, True)); [|done].
  intros url d _ _. apply run_ok_enrich_one.
Qed.

Lemma run_ok_build_property (prop_dict : record) (properties : list Property) :
  run_ok P (λ _, True) (build_property clock prop_dict properties).
Proof.
  intros tr. unfold build_property. destruct (Property_new _ _).
  - eexists _, []. by rewrite app_nil_r.
  - eexists _, [_]. repeat split. by repeat constructor.
Qed.

Lemma run_ok_reconcile (all_properties : list record) (limit : option Z)
    (fetch_details : bool) :
  (1 ≤ max_workers self)%Z →
  run_ok P (λ _, True)
    (reconcile http clock as_completed self all_properties limit fetch_details).
Proof.
  intros Hworkers. unfold reconcile. cbv zeta.
  eapply run_ok_then; [apply run_ok_log|]. intros _.
  eapply run_ok_then.
  - destruct fetch_details; [|by apply run_ok_ret].
    eapply run_ok_then; [apply run_ok_log|]. intros _. by apply run_ok_enrich.
  - intros unique.
    eapply run_ok_then.
    + apply (run_ok_for_each P (λ _, True)); [|done].
      intros p ps _ _. apply run_ok_build_property.
    + intros properties.
      eapply run_ok_then; [apply run_ok_log|]. intros _. by apply run_ok_ret.
Qed.

Lemma run_ok_scrape (location contract_type property_type : pystr)
    (max_pages limit : option Z) (fetch_details : bool) :
  (1 ≤ max_workers self)%Z →
  run_ok P (λ _, True)
    (scrape http clock as_completed self location contract_type property_type
       max_pages limit fetch_details).
Proof.
  intros Hworkers. unfold scrape.
  eapply run_ok_then; [by apply run_ok_collect_pages|].
  intros [all_properties|]; [by apply run_ok_reconcile|by apply run_ok_ret].
Qed.

End discipline.

(** ** The attempts of [_fetch_page] *)

Lemma fetch_page_never_answers (self : BieniciScraper) (url : value) (tr : list event) :
  _fetch_page never_answers self url tr = (Ok None, tr ++ failed_fetch self url).
Proof.
  unfold _fetch_page, MAX_RETRIES, fetch_attempts, mbind, M_bind, session_get, log,
    emit, mret, M_ret, never_answers, failed_fetch.
  change (Z.of_nat 0 <? Z.of_nat 3 - 1)%Z with true.
  change (Z.of_nat 1 <? Z.of_nat 3 - 1)%Z with true.
  change (Z.of_nat 2 <? Z.of_nat 3 - 1)%Z with false.
  cbn. by rewrite <- !app_assoc.
Qed.

Lemma fetch_attempts_step (http : list event → value → pystr → Z → option pystr)
    (self : BieniciScraper) (url : value) (retries attempt todo : nat) (tr : list event) :
  fetch_attempts http self url retries attempt (S todo) tr =
    match http tr url (api_key self) (timeout self) with
    | Some page => (Ok (Some page), tr ++ [Request url (api_key self) (timeout self)])
    | None =>
      fetch_attempts http self url retries (S attempt) todo
        (tr ++ Request url (api_key self) (timeout self) :: after_failure retries attempt)
    end.
Proof.
  cbn [fetch_attempts]. unfold mbind, M_bind, session_get, log, emit, mret, M_ret,
    after_failure.
  destruct (http tr url (api_key self) (timeout self)); [done|].
  destruct (_ <? _)%Z; f_equal; by rewrite <- !app_assoc.
Qed.

Lemma fetch_page_cases (http : list event → value → pystr → Z → option pystr)
    (self : BieniciScraper) (url : value) (tr : list event) :
  let request := Request url (api_key self) (timeout self) in
  let retry1 := [request; Log WARNING (RequestFailed 1 3);
                 Log INFO (WaitingBeforeRetry 6); Sleep 6] in
  let retry2 := [request; Log WARNING (RequestFailed 2 3);
                 Log INFO (WaitingBeforeRetry 7); Sleep 7] in
  (∃ page, http tr url (api_key self) (timeout self) = Some page
           ∧ _fetch_page http self url tr = (Ok (Some page), tr ++ [request]))
  ∨ (∃ page, http (tr ++ retry1) url (api_key self) (timeout self) = Some page
             ∧ _fetch_page http self url tr = (Ok (Some page), tr ++ retry1 ++ [request]))
  ∨ (∃ page, http (tr ++ retry1 ++ retry2) url (api_key self) (timeout self) = Some page
             ∧ _fetch_page http self url tr =
                 (Ok (Some page), tr ++ retry1 ++ retry2 ++ [request]))
  ∨ _fetch_page http self url tr = (Ok None, tr ++ failed_fetch self url).
Proof.
  intros request retry1 retry2. unfold _fetch_page, MAX_RETRIES.
  rewrite fetch_attempts_step.
  destruct (http tr url (api_key self) (timeout self)) as [page|]; [left; eauto|].
  right. change (Request url (api_key self) (timeout self) :: after_failure 3 0)
    with retry1.
  rewrite fetch_attempts_step.
  destruct (http (tr ++ retry1) url (api_key self) (timeout self)) as [page|].
  { left. exists page. split; [done|]. by rewrite <- !app_assoc. }
  right. rewrite <- app_assoc.
  change (retry1 ++ Request url (api_key self) (timeout self) :: after_failure 3 1)
    with (retry1 ++ retry2).
  rewrite fetch_attempts_step.
  destruct (http (tr ++ retry1 ++ retry2) url (api_key self) (timeout self)) as [page|].
  { left. exists page. split; [done|]. by rewrite <- !app_assoc. }
  right. cbn [fetch_attempts]. unfold mbind, M_bind, log, emit, mret, M_ret.
  f_equal. by rewrite <- !app_assoc.
Qed.

Lemma fetch_page_bounded_aux (http : list event → value → pystr → Z → option pystr)
    (self : BieniciScraper) (url : value) (tr : list event) :
  ∃ r new,
    _fetch_page http self url tr = (Ok r, tr ++ new)
    ∧ Forall (requests_only (eq url)) new
    ∧ (1 ≤ request_count new ≤ 3)%nat
    ∧ (r = None → request_count new = 3%nat
                  ∧ last new = Some (Log ERROR (FailedToFetch url 3)))
    ∧ (∀ page, r = Some page →
         last new = Some (Request url (api_key self) (timeout self))
         ∧ http (tr ++ removelast new) url (api_key self) (timeout self) = Some page).
Proof.
  destruct (fetch_page_cases http self url tr)
    as [(page & Hpage & ->)|[(page & Hpage & ->)|[(page & Hpage & ->)| ->]]];
    eexists _, _; (split; [reflexivity|]).
  - split; [by repeat constructor|]. split; [vm_compute; lia|]. split; [done|].
    intros ? [= <-]. split; [done|]. cbn. by rewrite app_nil_r.
  - split; [by repeat constructor|]. split; [vm_compute; lia|]. split; [done|].
    intros ? [= <-]. split; [done|]. exact Hpage.
  - split; [by repeat constructor|]. split; [vm_compute; lia|]. split; [done|].
    intros ? [= <-]. split; [done|]. cbn. cbn in Hpage. exact Hpage.
  - split; [by repeat constructor|]. split; [vm_compute; lia|]. split; [done|]. done.
Qed.

(** ** Edge cases of [scrape] *)

Section edge.
Context `{PyRuntime} `{BS4}.
Variable clock : list event → pystr.
Variable as_completed : list event → ∀ A : Type, list A → list A.

Lemma scrape_first_page_unreachable (self : BieniciScraper)
    (location contract_type property_type : pystr) (max_pages limit : option Z)
    (fetch_details : bool) (tr : list event) :
  let url := _build_search_url location contract_type property_type 1 in
  scrape never_answers clock as_completed self location contract_type property_type
    max_pages limit fetch_details tr =
    (Ok [],
     tr ++ [Log INFO (StartingScrape property_type contract_type location);
            Log INFO (FetchingFirstPage url)]
        ++ failed_fetch self (VStr url)
        ++ [Log WARNING FailedToFetchFirstPage]).
Proof.
  intros url. unfold scrape, collect_pages. cbv zeta. fold url.
  unfold mbind, M_bind, log, emit.
  rewrite fetch_page_never_answers. cbn -[failed_fetch url].
  by rewrite <- !app_assoc.
Qed.

Lemma scrape_first_page_empty (self : BieniciScraper)
    (location contract_type property_type : pystr) (max_pages limit : option Z)
    (fetch_details : bool) (tr : list event) :
  let url := _build_search_url location contract_type property_type 1 in
  scrape empty_body clock as_completed self location contract_type property_type
    max_pages limit fetch_details tr =
    (Ok [],
     tr ++ [Log INFO (StartingScrape property_type contract_type location);
            Log INFO (FetchingFirstPage url);
            Request (VStr url) (api_key self) (timeout self);
            Log WARNING FailedToFetchFirstPage]).
Proof.
  intros url. unfold scrape, collect_pages. cbv zeta. fold url.
  unfold mbind, M_bind, log, emit, _fetch_page, MAX_RETRIES.
  rewrite fetch_attempts_step. unfold empty_body. cbn -[url].
  by rewrite <- !app_assoc.
Qed.

Lemma scrape_first_page_without_cards (self : BieniciScraper) (page : pystr)
    (location contract_type property_type : pystr) (max_pages limit : option Z)
    (fetch_details : bool) (tr : list event) :
  page ≠ [] → find_all (BeautifulSoup page) [py "article"] = [] →
  let url := _build_search_url location contract_type property_type 1 in
  scrape (serve page) clock as_completed self location contract_type property_type
    max_pages limit fetch_details tr =
    (Ok [],
     tr ++ [Log INFO (StartingScrape property_type contract_type location);
            Log INFO (FetchingFirstPage url);
            Request (VStr url) (api_key self) (timeout self);
            Log WARNING NoPropertiesOnFirstPage]).
Proof.
  intros Hpage Hcards url. unfold scrape, collect_pages. cbv zeta. fold url.
  unfold mbind, M_bind, log, emit, _fetch_page, MAX_RETRIES.
  rewrite fetch_attempts_step. unfold serve. destruct page as [|c page]; [done|].
  cbn [falsy_html default from_option id lift].
  destruct (total_count_loop_total (find_all (BeautifulSoup (c :: page)) [py "h2"]))
    as (n & Hn & _).
  unfold parse_total_count. rewrite Hn.
  unfold parse_listings_from_page. rewrite Hcards. cbn -[url].
  by rewrite <- !app_assoc.
Qed.

Lemma enrich_needs_workers (http : list event → value → pystr → Z → option pystr)
    (self : BieniciScraper) (properties : list record) (tr : list event) :
  (max_workers self ≤ 0)%Z →
  (∃ p, p ∈ properties ∧ truthy (dict_get p (py "url")) = true) →
  _enrich_with_details http as_completed self properties tr = (Raise ValueError, tr).
Proof.
  intros Hworkers (p & Hp & Hurl). unfold _enrich_with_details. cbv zeta.
  destruct (omap _ properties) as [|u0 urls] eqn:Hurls.
  - assert (dict_get p (py "url") ∈ @nil value) as Hin; [|by apply elem_of_nil in Hin].
    rewrite <- Hurls. apply list_elem_of_omap. exists p. split; [done|]. by rewrite Hurl.
  - unfold mbind, M_bind, thread_pool.
    destruct (Z.leb_spec (max_workers self) 0); [done|lia].
Qed.

End edge.

(** ** [split] and [rstrip] *)

Lemma split_char_cons (sep : N) (s : pystr) : ∃ w ws, split_char sep s = w :: ws.
Proof.
  induction s as [|c t (w & ws & IH)]; simpl; [eauto|].
  destruct (c =? sep); [eauto|]. rewrite IH. eauto.
Qed.

Lemma split_char_app (sep : N) (a c : pystr) :
  ∃ w ws, split_char sep (a ++ sep :: c) = w :: ws ++ split_char sep c.
Proof.
  induction a as [|x a (w & ws & IH)]; simpl.
  - rewrite N.eqb_refl. by exists [], [].
  - destruct (x =? sep).
    + exists [], (w :: ws). by rewrite IH.
    + rewrite IH. by exists (x :: w), ws.
Qed.

Lemma last_split_char_app (sep : N) (a c : pystr) :
  last (split_char sep (a ++ sep :: c)) = last (split_char sep c).
Proof.
  destruct (split_char_app sep a c) as (w & ws & ->).
  destruct (split_char_cons sep c) as (v & vs & ->).
  change (w :: ws ++ v :: vs) with ((w :: ws) ++ v :: vs).
  by rewrite !last_app_cons.
Qed.

Lemma split_char_no_sep (sep : N) (s : pystr) : sep ∉ s → split_char sep s = [s].
Proof.
  induction s as [|c t IH]; simpl; [done|]. intros Hs.
  apply not_elem_of_cons in Hs as [Hc Ht].
  destruct (N.eqb_spec c sep); [done|]. by rewrite IH.
Qed.

Lemma split_char_parts (sep : N) (s w : pystr) :
  w ∈ split_char sep s → w ⊆ s.
Proof.
  revert w. induction s as [|c t IH]; intros w; simpl.
  - intros ->%list_elem_of_singleton. done.
  - destruct (c =? sep).
    + intros [->|Hw]%elem_of_cons; [by intros x ?%elem_of_nil|].
      intros x Hx. right. by apply (IH w).
    + destruct (split_char sep t) as [|v vs].
      * intros ->%list_elem_of_singleton. intros x [->|?%elem_of_nil]%elem_of_cons; [by left|done].
      * intros [->|Hw]%elem_of_cons.
        -- intros x [->|Hx]%elem_of_cons; [by left|]. right. apply (IH v); [by left|done].
        -- intros x Hx. right. apply (IH w); [by right|done].
Qed.

Lemma lstrip_by_app (p : N → bool) (a b : pystr) :
  lstrip_by p a ≠ [] → lstrip_by p (a ++ b) = lstrip_by p a ++ b.
Proof.
  induction a as [|c a IH]; simpl; [done|]. destruct (p c); [exact IH|done].
Qed.

Lemma lstrip_by_suffix (p : N → bool) (s : pystr) : lstrip_by p s `suffix_of` s.
Proof.
  induction s as [|c t IH]; simpl; [done|]. destruct (p c); [|done].
  by apply suffix_cons_r.
Qed.

Lemma rstrip_by_app (p : N → bool) (a b : pystr) :
  rstrip_by p b ≠ [] → rstrip_by p (a ++ b) = a ++ rstrip_by p b.
Proof.
  unfold rstrip_by. intros Hb. rewrite reverse_app, lstrip_by_app.
  - by rewrite reverse_app, reverse_involutive.
  - intros Hnil. apply Hb. by rewrite Hnil.
Qed.

Lemma rstrip_by_prefix (p : N → bool) (s : pystr) : rstrip_by p s `prefix_of` s.
Proof.
  unfold rstrip_by. destruct (lstrip_by_suffix p (reverse s)) as [k Hk].
  exists (reverse k). rewrite <- reverse_app, <- Hk. by rewrite reverse_involutive.
Qed.

Lemma rstrip_by_last (p : N → bool) (s : pystr) (c : N) :
  last s = Some c → p c = false → rstrip_by p s = s.
Proof.
  intros Hlast Hc. unfold rstrip_by.
  destruct (reverse s) as [|x r] eqn:Hrev.
  - apply (f_equal reverse) in Hrev. rewrite reverse_involutive in Hrev. by subst.
  - assert (x = c) as ->.
    { apply (f_equal reverse) in Hrev. rewrite reverse_involutive, reverse_cons in Hrev.
      subst s. rewrite last_snoc in Hlast. by injection Hlast. }
    simpl. rewrite Hc. rewrite <- Hrev. apply reverse_involutive.
Qed.

Lemma last_not_sep (s : pystr) (sep : N) :
  s ≠ [] → sep ∉ s → ∃ c, last s = Some c ∧ (sep =? c) = false.
Proof.
  intros Hs Hsep. destruct (last s) as [c|] eqn:Hlast.
  - exists c. split; [done|]. apply N.eqb_neq. intros ->.
    apply Hsep. by eapply last_Some_elem_of.
  - by apply last_None in Hlast.
Qed.

Lemma head_split_char_app (sep : N) (a c : pystr) :
  sep ∉ a → head (split_char sep (a ++ sep :: c)) = Some a.
Proof.
  induction a as [|x a IH]; simpl; intros Ha.
  - by rewrite N.eqb_refl.
  - apply not_elem_of_cons in Ha as [Hx Ha].
    destruct (N.eqb_spec x sep); [done|]. specialize (IH Ha).
    destruct (split_char sep (a ++ sep :: c)) as [|w ws]; [done|].
    simpl in IH. by injection IH as ->.
Qed.

(** ** The listing id of a URL *)

Lemma detail_listing_id_segment (prefix id : pystr) :
  id ≠ [] → 47 ∉ id → 63 ∉ id →
  detail_listing_id (prefix ++ [47] ++ id) = id.
Proof.
  intros Hid Hslash Hquery. unfold detail_listing_id, rstrip_char.
  destruct (last_not_sep id 47 Hid Hslash) as (c & Hlast & Hc).
  rewrite (rstrip_by_last _ _ c).
  - simpl. rewrite last_split_char_app, (split_char_no_sep 47 id) by done. simpl.
    by rewrite split_char_no_sep.
  - rewrite app_assoc. destruct id as [|x id]; [done|]. by rewrite last_app_cons.
  - done.
Qed.

Lemma detail_listing_id_query (prefix id query : pystr) :
  47 ∉ id → 63 ∉ id → 47 ∉ query →
  detail_listing_id (prefix ++ [47] ++ id ++ [63] ++ query) = id.
Proof.
  intros Hslash Hquery Hq. unfold detail_listing_id, rstrip_char.
  assert (47 ∉ id ++ [63] ++ query) as Hrest.
  { rewrite !not_elem_of_app. split; [done|]. split; [|done].
    by intros ?%list_elem_of_singleton. }
  destruct (last_not_sep (id ++ [63] ++ query) 47) as (c & Hlast & Hc);
    [by destruct id|done|].
  rewrite (rstrip_by_last _ _ c).
  - cbn [app]. rewrite last_split_char_app.
    rewrite (split_char_no_sep 47 (id ++ 63 :: query)) by exact Hrest. simpl.
    by rewrite head_split_char_app.
  - by rewrite (app_assoc prefix), last_app, Hlast.
  - done.
Qed.

(** What follows the last "/" of a URL, up to its first "?". *)
Lemma detail_listing_id_last (prefix segment : pystr) :
  segment ≠ [] → 47 ∉ segment →
  detail_listing_id (prefix ++ [47] ++ segment)
  = default [] (head (split_char 63 segment)).
Proof.
  intros Hne Hslash. unfold detail_listing_id, rstrip_char.
  destruct (last_not_sep segment 47 Hne Hslash) as (c & Hlast & Hc).
  rewrite (rstrip_by_last _ _ c).
  - simpl. by rewrite last_split_char_app, (split_char_no_sep 47 segment) by done.
  - rewrite app_assoc. destruct segment as [|x s]; [done|]. by rewrite last_app_cons.
  - done.
Qed.

Lemma starts_with_slash (s : pystr) :
  starts_with (py "/") s = true → ∃ t, s = 47 :: t.
Proof.
  destruct s as [|c t]; [done|]. change (py "/") with [47]. cbn [starts_with].
  rewrite andb_true_r. intros <-%N.eqb_eq. eauto.
Qed.

Lemma last_segment_plain (s : pystr) :
  63 ∉ s → 63 ∉ default [] (last (split_char 47 (rstrip_char 47 s))).
Proof.
  intros Hs Hin. destruct (last _) as [seg|] eqn:Hlast; [|by apply elem_of_nil in Hin].
  simpl in Hin. apply last_Some_elem_of in Hlast.
  apply split_char_parts in Hlast. apply Hlast in Hin.
  destruct (rstrip_by_prefix (N.eqb 47) s) as [k Hk]. apply Hs.
  rewrite Hk. apply elem_of_app. by left.
Qed.

Lemma card_detail_listing_id (raw : pystr) :
  card_listing_id raw ≠ [] → detail_listing_id (card_url raw) = card_listing_id raw.
Proof.
  unfold card_listing_id, detail_listing_id, card_url.
  pose proof (head_split_char 63 raw) as Hq. fold (card_href raw) in Hq.
  set (href := card_href raw) in *. intros Hid.
  pose proof (last_segment_plain href Hq) as Hseg.
  destruct (starts_with (py "/") href) eqn:Hstart.
  - apply starts_with_slash in Hstart as [t Ht].
    assert (rstrip_char 47 href ≠ []) as Hr.
    { intros Hnil. apply Hid. by rewrite Hnil. }
    unfold rstrip_char in *. rewrite rstrip_by_app by done.
    destruct (rstrip_by_prefix (N.eqb 47) href) as [k Hk].
    destruct (rstrip_by (N.eqb 47) href) as [|c r] eqn:Hstrip; [done|].
    assert (c = 47) as -> by (rewrite Ht in Hk; by injection Hk).
    rewrite last_split_char_app.
    pose proof (last_split_char_app 47 [] r) as Hl. cbn [app] in Hl.
    rewrite Hl in Hseg |- *. by rewrite split_char_no_sep.
  - by rewrite split_char_no_sep.
Qed.

(** Two cards with the same URL and non-empty listing ids have the same
    listing id. *)
Lemma card_url_determines_id (raw raw' : pystr) :
  card_listing_id raw ≠ [] → card_listing_id raw' ≠ [] →
  card_url raw = card_url raw' → card_listing_id raw = card_listing_id raw'.
Proof.
  intros Hid Hid' Hurl.
  rewrite <- (card_detail_listing_id raw), <- (card_detail_listing_id raw') by done.
  by rewrite Hurl.
Qed.

(** ** Enrichment *)

Lemma enriched_refl (p : record) : enriched p p.
Proof. by repeat split. Qed.

Lemma enriched_merge (index current detail : record) :
  has_identity index → enriched index current →
  enriched index (merge_detail current detail).
Proof.
  intros [Hurl Hid] (Hu & Hl & Hkeep).
  pose proof (Hkeep _ Hurl) as Hurl'. pose proof (Hkeep _ Hid) as Hid'.
  split; [|split].
  - rewrite merge_keeps_identity; [done| |done].
    apply (bool_decide_unpack _). vm_compute. exact I.
  - rewrite merge_keeps_identity; [done| |done].
    apply (bool_decide_unpack _). vm_compute. exact I.
  - intros k Hk. by apply merge_keeps_index_truthy, Hkeep.
Qed.

(** ** Ordered dicts *)

Lemma odict_set_Forall2 {A V} (R : A → V → Prop) (k : value) (v v' : V) :
  ∀ (d : odict V) (l : list A),
    Forall2 R l d.*2 → odict_get k d = Some v → (∀ a, R a v → R a v') →
    Forall2 R l (odict_set k v' d).*2.
Proof.
  induction d as [|[k1 v1] d IH]; intros l Hl Hget Hv; [done|].
  simpl in *. apply Forall2_cons_inv_r in Hl as (a & l' & Ha & Hl' & ->).
  destruct (py_eq k1 k).
  - injection Hget as ->. simpl. constructor; [by apply Hv|done].
  - simpl. constructor; [done|]. by apply IH.
Qed.

Lemma odict_set_fresh {V} (k : value) (v : V) (d : odict V) :
  odict_get k d = None → odict_set k v d = d ++ [(k, v)].
Proof.
  induction d as [|[k1 v1] d IH]; simpl; [done|].
  destruct (py_eq k1 k); [done|]. intros Hget. by rewrite IH.
Qed.

Lemma odict_get_fresh (f : record → value) (k : value) (earlier : list record) :
  (∀ q, q ∈ earlier → py_eq (f q) k = false) →
  odict_get k (map (λ p, (f p, p)) earlier) = None.
Proof.
  induction earlier as [|q earlier IH]; intros Hfresh; simpl; [done|].
  rewrite (Hfresh q) by by left. apply IH. intros q' Hq'. apply Hfresh. by right.
Qed.

Lemma for_each_result {A S} (I : S → Prop) (l : list A) (body : A → S → M S) :
  (∀ x s tr s' tr', body x s tr = (Ok s', tr') → I s → I s') →
  ∀ s tr s' tr', for_each l body s tr = (Ok s', tr') → I s → I s'.
Proof.
  intros Hbody. induction l as [|x l IH]; intros s tr s' tr'; simpl.
  - by intros [= <- <-].
  - unfold mbind, M_bind. destruct (body x s tr) as [[s1|e] tr1] eqn:Hx; [|done].
    intros Hrest Hs. eapply IH; [exact Hrest|]. by eapply Hbody.
Qed.

Lemma distinct_by_before {A} (f : A → value) (l1 l2 : list A) (p : A) :
  distinct_by f (l1 ++ p :: l2) = true →
  ∀ q, q ∈ l1 → py_eq (f q) (f p) = false.
Proof.
  induction l1 as [|x l1 IH]; simpl; [by intros _ q ?%elem_of_nil|].
  intros [Hx Hrest]%andb_prop q [->|Hq]%elem_of_cons; [|by apply IH].
  rewrite forallb_forall in Hx. apply negb_true_iff, Hx, list_elem_of_In.
  apply elem_of_app. right. by left.
Qed.

Lemma distinct_by_sublist {A} (f : A → value) (l k : list A) :
  k `sublist_of` l → distinct_by f l = true → distinct_by f k = true.
Proof.
  induction 1 as [|x k l Hsub IH|x k l Hsub IH]; simpl; [done| |].
  - intros [Hx Hl]%andb_prop. rewrite IH by done. rewrite andb_true_r.
    apply forallb_forall. intros q Hq%list_elem_of_In.
    rewrite forallb_forall in Hx. apply Hx, list_elem_of_In.
    by eapply elem_of_sublist.
  - intros [_ Hl]%andb_prop. by apply IH.
Qed.

Lemma index_by_url (f : record → value) (properties : list record) :
  ∀ earlier, distinct_by f (earlier ++ properties) = true →
    foldl (λ d p, odict_set (f p) p d) (map (λ p, (f p, p)) earlier) properties =
      map (λ p, (f p, p)) (earlier ++ properties).
Proof.
  induction properties as [|p ps IH]; intros earlier Hdistinct; simpl.
  - by rewrite app_nil_r.
  - rewrite odict_set_fresh.
    + change (map (λ p, (f p, p)) earlier ++ [(f p, p)])
        with (map (λ p, (f p, p)) earlier ++ map (λ p, (f p, p)) [p]).
      rewrite <- map_app, IH; by rewrite <- app_assoc.
    + apply odict_get_fresh. by eapply distinct_by_before.
Qed.

Section enrich.
Context `{PyRuntime} `{BS4}.
Variable http : list event → value → pystr → Z → option pystr.
Variable as_completed : list event → ∀ A : Type, list A → list A.
Variable self : BieniciScraper.

Lemma enrich_one_cases (url : value) (d d' : odict record) (tr tr' : list event) :
  enrich_one http self url d tr = (Ok d', tr') →
  d' = d ∨ ∃ index detail,
             odict_get url d = Some index
             ∧ d' = odict_set url (merge_detail index detail) d.
Proof.
  unfold enrich_one, except, mbind, M_bind.
  destruct (scrape_detail http self url tr) as [[[detail|]|e] tr1].
  - destruct (odict_get url d) as [index|]; [|intros [= <- <-]; by left].
    destruct (bool_decide _); intros [= <- <-]; [right; eauto|by left].
  - intros [= <- <-]. by left.
  - unfold log, emit, mret, M_ret. intros [= <- <-]. by left.
Qed.

Lemma enrich_with_details_enriched (properties result : list record)
    (tr tr' : list event) :
  Forall has_identity properties →
  distinct_by url_of_record properties = true →
  _enrich_with_details http as_completed self properties tr = (Ok result, tr') →
  Forall2 enriched properties result.
Proof.
  intros Hid Hdistinct. unfold _enrich_with_details. cbv zeta.
  destruct (omap _ properties) as [|u0 urls].
  { intros [= <- <-]. apply Forall2_same_length_lookup_2; [done|].
    intros i p q Hp Hq. simplify_eq. apply enriched_refl. }
  pose proof (index_by_url url_of_record properties [] Hdistinct) as Hindex.
  cbn [map app] in Hindex. unfold url_of_record in Hindex at 1.
  rewrite Hindex. clear Hindex.
  unfold mbind, M_bind. destruct (thread_pool _ tr) as [[[]|e] tr1]; [|done].
  unfold completion.
  destruct (for_each _ _ _ tr1) as [[d|e] tr2] eqn:Hloop; [|done].
  intros [= <- <-].
  assert (Forall2 (λ index r, has_identity index ∧ enriched index r) properties d.*2)
    as Hinv.
  { eapply (for_each_result
              (λ d, Forall2 (λ index r, has_identity index ∧ enriched index r)
                      properties d.*2)); [|exact Hloop|].
    - intros url s tr3 s' tr4 Hone Hs.
      apply enrich_one_cases in Hone as [->|(index & detail & Hget & ->)]; [done|].
      eapply odict_set_Forall2; [exact Hs|exact Hget|].
      intros a [Ha Hai]. split; [done|]. by apply enriched_merge.
    - rewrite <- list_fmap_compose. apply Forall2_fmap_r.
      apply Forall2_same_length_lookup_2; [done|].
      intros i p q Hp Hq. simplify_eq. simpl. split; [|apply enriched_refl].
      rewrite list.Forall_forall in Hid. apply Hid. by eapply list_elem_of_lookup_2. }
  eapply Forall2_impl; [exact Hinv|]. by intros a b [_ ?].
Qed.

End enrich.

(** ** The conversion to [Property] *)

Lemma built_from_field (p : record) (P : Property) (k : pystr) (v : value) :
  built_from p P → p !! k = Some v → property_field k P = v.
Proof.
  intros [now Hnew] Hk. unfold property_field.
  destruct (to_dict_lookup now p P Hnew) as [Hgiven _]. by rewrite (Hgiven k v Hk).
Qed.

Lemma truthy_lookup (p : record) (k : pystr) :
  truthy (dict_get p k) = true → ∃ v, p !! k = Some v ∧ dict_get p k = v.
Proof. unfold dict_get. destruct (p !! k) as [v|]; [eauto|done]. Qed.

Lemma property_of_identity (index : record) (P : Property) :
  has_identity index → property_of index P →
  property_field (py "url") P = url_of_record index
  ∧ property_field (py "listing_id") P = listing_id_of index.
Proof.
  intros [Hurl Hid] (r & (Hu & Hl & _) & Hbuilt).
  apply truthy_lookup in Hurl as (u & Hurl & Heq).
  apply truthy_lookup in Hid as (i & Hid & Heq').
  unfold url_of_record, listing_id_of. rewrite Heq, Heq'. split.
  - eapply built_from_field; [exact Hbuilt|]. by rewrite Hu.
  - eapply built_from_field; [exact Hbuilt|]. by rewrite Hl.
Qed.

Lemma Forall2_sublist_r {A B} (R : A → B → Prop) (l : list A) (k k' : list B) :
  Forall2 R l k → k' `sublist_of` k → ∃ l', l' `sublist_of` l ∧ Forall2 R l' k'.
Proof.
  intros Hlk Hsub. revert l Hlk.
  induction Hsub as [|x k' k Hsub IH|x k' k Hsub IH]; intros l Hlk.
  - exists []. split; [apply sublist_nil_l|done].
  - apply Forall2_cons_inv_r in Hlk as (a & l0 & Ha & Hl0 & ->).
    destruct (IH l0 Hl0) as (l' & Hl' & HR). exists (a :: l').
    split; [by apply sublist_skip|by constructor].
  - apply Forall2_cons_inv_r in Hlk as (a & l0 & Ha & Hl0 & ->).
    destruct (IH l0 Hl0) as (l' & Hl' & HR). exists l'.
    split; [by apply sublist_cons|done].
Qed.

Lemma apply_limit_sublist (limit : option Z) (l : list record) :
  apply_limit limit l `sublist_of` l.
Proof.
  unfold apply_limit, slice_to. destruct limit as [n|]; [|done].
  destruct (n =? 0)%Z; [done|]. destruct (n <? 0)%Z; apply sublist_take.
Qed.

Section convert.
Context `{PyRuntime} `{BS4}.
Variable http : list event → value → pystr → Z → option pystr.
Variable clock : list event → pystr.
Variable as_completed : list event → ∀ A : Type, list A → list A.
Variable self : BieniciScraper.

Lemma build_property_loop (l : list record) :
  ∀ acc tr properties tr',
    for_each l (build_property clock) acc tr = (Ok properties, tr') →
    ∃ kept new,
      properties = acc ++ new ∧ kept `sublist_of` l ∧ Forall2 built_from kept new
      ∧ (Forall (keys_in Property_field_names) l → kept = l).
Proof.
  induction l as [|p l IH]; intros acc tr properties tr'; simpl.
  - intros [= <- <-]. exists [], []. by rewrite app_nil_r.
  - unfold mbind, M_bind, build_property at 1.
    destruct (Property_new (clock tr) p) as [P|e] eqn:Hnew.
    + intros (kept & new & -> & Hsub & Hbuilt & Hall)%IH.
      exists (p :: kept), (P :: new). rewrite <- app_assoc. split; [done|].
      split; [by apply sublist_skip|]. split; [constructor; [by exists (clock tr)|done]|].
      intros Hkeys. inversion Hkeys; subst. by rewrite Hall.
    + intros (kept & new & -> & Hsub & Hbuilt & Hall)%IH.
      exists kept, new. split; [done|]. split; [by apply sublist_cons|].
      split; [done|]. intros Hkeys. inversion Hkeys as [|? ? Hp _]; subst.
      destruct (proj1 (Property_new_keys (clock tr) p) Hp) as [P HP]. congruence.
Qed.

Lemma reconcile_result (all_properties : list record) (limit : option Z)
    (fetch_details : bool) (properties : list Property) (tr tr' : list event) :
  let unique := apply_limit limit (dedupe all_properties) in
  Forall (λ p, truthy (url_of_record p) = true) unique →
  distinct_by url_of_record unique = true →
  reconcile http clock as_completed self all_properties limit fetch_details tr
    = (Ok properties, tr') →
  ∃ kept, kept `sublist_of` unique ∧ Forall2 property_of kept properties
          ∧ (fetch_details = false → Forall (keys_in Property_field_names) unique →
             kept = unique).
Proof.
  intros unique Hurls Hdistinct. unfold reconcile. cbv zeta. fold unique.
  unfold mbind at 1, M_bind at 1, log at 1, emit.
  assert (Forall has_identity unique) as Hid.
  { apply list.Forall_forall. intros p Hp. split.
    - rewrite list.Forall_forall in Hurls. by apply Hurls.
    - pose proof (first_occurrences_truthy all_properties []) as Htruthy.
      rewrite <- dedupe_spec in Htruthy. rewrite list.Forall_forall in Htruthy.
      apply Htruthy. eapply elem_of_sublist; [exact Hp|apply apply_limit_sublist]. }
  unfold mbind at 1, M_bind at 1.
  destruct fetch_details.
  - unfold mbind at 1, M_bind at 1, log at 1, emit.
    destruct (_enrich_with_details _ _ _ _ _) as [[result|e] tr1] eqn:Henrich; [|done].
    apply enrich_with_details_enriched in Henrich; [|done..].
    unfold mbind at 1, M_bind at 1.
    destruct (for_each _ _ _ tr1) as [[built|e] tr2] eqn:Hloop; [|done].
    unfold mbind, M_bind, log, emit, mret, M_ret. intros [= <- <-].
    apply build_property_loop in Hloop as (kept' & new & -> & Hsub & Hbuilt & _).
    destruct (Forall2_sublist_r _ _ _ _ Henrich Hsub) as (kept & Hkept & Henriched).
    exists kept. split; [done|]. split; [|done]. simpl.
    eapply Forall2_trans; [|exact Henriched|exact Hbuilt].
    intros index r P Hr HP. by exists r.
  - unfold mret at 1, M_ret at 1. unfold mbind at 1, M_bind at 1.
    destruct (for_each _ _ _ _) as [[built|e] tr2] eqn:Hloop; [|done].
    unfold mbind, M_bind, log, emit, mret, M_ret. intros [= <- <-].
    apply build_property_loop in Hloop as (kept & new & -> & Hsub & Hbuilt & Hall).
    exists kept. split; [done|]. split; [|by auto]. simpl.
    eapply Forall2_impl; [exact Hbuilt|]. intros p P HP. exists p.
    split; [apply enriched_refl|done].
Qed.

End convert.

(** ** Cards through the run *)

Lemma listing_card_url (p : record) :
  listing_card p → ∃ u, url_of_record p = VStr u ∧ u ≠ [] ∧ absolute_plain u.
Proof.
  intros (raw & (Hurl & _) & Hne). exists (card_url raw).
  unfold url_of_record, dict_get. rewrite Hurl. split; [done|]. split; [done|].
  apply card_url_absolute_plain.
Qed.

Lemma listing_card_keys (p : record) :
  listing_card p → keys_in Property_field_names p.
Proof.
  intros (raw & (_ & _ & Hkeys) & _). eapply keys_in_mono; [apply card_keys_fields|done].
Qed.

Lemma listing_card_id (p : record) :
  listing_card p → truthy (listing_id_of p) = true →
  ∃ raw, url_of_record p = VStr (card_url raw)
         ∧ listing_id_of p = VStr (card_listing_id raw)
         ∧ card_listing_id raw ≠ [].
Proof.
  intros (raw & (Hurl & Hid & _) & _) Htruthy. exists raw.
  unfold url_of_record, listing_id_of, dict_get in *. rewrite Hurl, Hid in *.
  split; [done|]. split; [done|]. simpl in Htruthy. by destruct (card_listing_id raw).
Qed.

Lemma cards_distinct_urls (l : list record) :
  Forall listing_card l → Forall (λ p, truthy (listing_id_of p) = true) l →
  distinct_by listing_id_of l = true → distinct_by url_of_record l = true.
Proof.
  induction l as [|p l IH]; [done|]. intros Hcards Hids. simpl.
  inversion Hcards as [|? ? Hp Hl]; inversion Hids as [|? ? Hpid Hlid]; subst.
  intros [Hfresh Hrest]%andb_prop. rewrite IH by done. rewrite andb_true_r.
  apply forallb_forall. intros q Hq. rewrite forallb_forall in Hfresh.
  specialize (Hfresh q Hq). apply list_elem_of_In in Hq.
  rewrite list.Forall_forall in Hl, Hlid.
  destruct (listing_card_id p Hp Hpid) as (raw & Hpu & Hpi & Hne).
  destruct (listing_card_id q (Hl q Hq) (Hlid q Hq)) as (raw' & Hqu & Hqi & Hne').
  rewrite Hpu, Hqu. rewrite Hpi, Hqi in Hfresh.
  apply negb_true_iff. apply negb_true_iff in Hfresh.
  destruct (py_eq (VStr (card_url raw)) _) eqn:Heq; [|done].
  apply py_eq_str in Heq. injection Heq as Heq.
  rewrite <- Hfresh. symmetry. apply py_eq_str. f_equal. symmetry.
  by apply card_url_determines_id.
Qed.

Lemma distinct_by_Forall2 {A B} (f : A → value) (g : B → value) (l : list A) (k : list B) :
  Forall2 (λ a b, g b = f a) l k → distinct_by g k = distinct_by f l.
Proof.
  induction 1 as [|a b l k Hab Hlk IH]; [done|]. simpl. rewrite IH. f_equal.
  rewrite Hab. clear IH. induction Hlk as [|a' b' l k Hab' _ IH]; [done|].
  simpl. by rewrite IH, Hab'.
Qed.

Section cards.
Context `{PyRuntime} `{BS4}.
Variable http : list event → value → pystr → Z → option pystr.
Variable clock : list event → pystr.
Variable as_completed : list event → ∀ A : Type, list A → list A.
Variable self : BieniciScraper.

Local Abbreviation P := (by_scraper self).

Lemma parse_listings_cards (html : pystr) :
  Forall listing_card (parse_listings_from_page html).1.
Proof.
  apply list.Forall_forall. intros p Hp.
  apply listings_loop_cards in Hp as (article & link & _ & _ & Hrec & Hne).
  by exists (default [] (get_href link)).
Qed.

Lemma run_ok_scrape_page_cards (location contract_type property_type : pystr)
    (page : Z) :
  run_ok P (λ r, Forall listing_card r.2)
    (scrape_page http self location contract_type property_type page).
Proof.
  unfold scrape_page. cbv zeta.
  eapply run_ok_then; [apply run_ok_log|]. intros _.
  eapply run_ok_then; [apply run_ok_fetch_page|]. intros html.
  destruct (falsy_html html); [by apply run_ok_ret|].
  eapply run_ok_then.
  - destruct (page =? 1)%Z; [|by apply run_ok_ret].
    apply run_ok_lift. destruct (total_count_loop_total
      (find_all (BeautifulSoup (default [] html)) [py "h2"])) as (n & Hn & _).
    exists n. by split.
  - intros total_count.
    pose proof (listings_loop_logs
      (find_all (BeautifulSoup (default [] html)) [py "article"])) as Hlogs.
    pose proof (parse_listings_cards (default [] html)) as Hcards.
    unfold parse_listings_from_page in *.
    destruct (listings_loop _) as [properties warnings]. simpl in Hlogs, Hcards.
    eapply run_ok_then; [|intros _; by apply run_ok_ret].
    apply run_ok_emit_all. eapply list.Forall_impl; [exact Hlogs|].
    apply is_log_by_scraper.
Qed.

Lemma run_ok_page_task_cards (location contract_type property_type : pystr) (page : Z)
    (all_properties : list record) :
  Forall listing_card all_properties →
  run_ok P (Forall listing_card)
    (page_task http self location contract_type property_type page all_properties).
Proof.
  intros Hall. unfold page_task. apply run_ok_except.
  - apply run_ok_spec. eapply run_ok_bind; [apply run_ok_scrape_page_cards|].
    intros [total page_properties] Hpage.
    eapply run_ok_then; [apply run_ok_log|]. intros _. apply run_ok_ret.
    by apply Forall_app.
  - intros e. eapply run_ok_then; [apply run_ok_log|]. intros _. by apply run_ok_ret.
Qed.

Lemma run_ok_collect_pages_cards (location contract_type property_type : pystr)
    (max_pages : option Z) :
  (1 ≤ max_workers self)%Z →
  run_ok P (λ r, ∀ all_properties, r = Some all_properties →
                  Forall listing_card all_properties)
    (collect_pages http as_completed self location contract_type property_type max_pages).
Proof.
  intros Hworkers. unfold collect_pages. cbv zeta.
  eapply run_ok_then; [apply run_ok_log|]. intros _.
  eapply run_ok_then; [apply run_ok_log|]. intros _.
  eapply run_ok_then; [apply run_ok_fetch_page|]. intros html.
  destruct (falsy_html html).
  { eapply run_ok_then; [apply run_ok_log|]. intros _. by apply run_ok_ret. }
  eapply run_ok_then.
  { apply run_ok_lift. destruct (total_count_loop_total
      (find_all (BeautifulSoup (default [] html)) [py "h2"])) as (n & Hn & _).
    exists n. by split. }
  intros total_count.
  pose proof (listings_loop_logs
    (find_all (BeautifulSoup (default [] html)) [py "article"])) as Hlogs.
  pose proof (parse_listings_cards (default [] html)) as Hcards.
  unfold parse_listings_from_page in *.
  destruct (listings_loop _) as [first_page_properties warnings].
  simpl in Hlogs, Hcards.
  eapply run_ok_then.
  { apply run_ok_emit_all. eapply list.Forall_impl; [exact Hlogs|].
    apply is_log_by_scraper. }
  intros _. destruct first_page_properties as [|p0 first].
  { eapply run_ok_then; [apply run_ok_log|]. intros _. by apply run_ok_ret. }
  eapply run_ok_then; [apply run_ok_log|]. intros _.
  eapply run_ok_then; [apply run_ok_log|]. intros _.
  eapply run_ok_bind; [|intros all_properties Hall; apply run_ok_ret;
                         by intros ? [= <-]].
  destruct (1 <? _)%Z; [|by apply run_ok_ret].
  eapply run_ok_then; [by apply run_ok_thread_pool|]. intros _.
  eapply run_ok_then; [apply run_ok_completion|]. intros order.
  apply (run_ok_for_each P (Forall listing_card)); [|done].
  intros page all_properties _ Hall. by apply run_ok_page_task_cards.
Qed.

End cards.

(** X5. [parse_title_text] sets no other key than property_type, rooms,
    living_area, postal_code, city and district, all of them fields of
    [Property]. The property type is decided by the first entry of the
    vocabulary, in the order of the dict literal (appartement, maison,
    studio, duplex, loft, terrain, parking, commerce, bureaux, villa,
    immeuble), whose French word occurs in the lowercased title: the
    type is that entry's English word, whatever later entries occur, and
    no type is set exactly when no French word of the vocabulary occurs.
    The function raises nothing but [ValueError], and a title without a
    decimal digit gives no rooms, living_area, postal_code or city.
    "Maison ou appartement" gives "apartment", "Studio en duplex" gives
    "studio" and "Villa avec parking" gives "parking". *)
Theorem parse_title_text_fields :
  (∀ (R : PyRuntime) (title : pystr) (r : record),
     parse_title_text title = Ok r →
     keys_in title_keys r
     ∧ (∀ v, r !! py "property_type" = Some v →
          ∃ fr en, (fr, en) ∈ property_types ∧ v = VStr en
                   ∧ str_in fr (str_lower title) = true)
     ∧ (∀ i fr en,
          property_types !! i = Some (fr, en) →
          str_in fr (str_lower title) = true →
          (∀ j fr' en', (j < i)%nat → property_types !! j = Some (fr', en') →
             str_in fr' (str_lower title) = false) →
          r !! py "property_type" = Some (VStr en))
     ∧ (∀ fr en, (fr, en) ∈ property_types → str_in fr (str_lower title) = true →
          is_Some (r !! py "property_type"))
     ∧ ((∀ fr en, (fr, en) ∈ property_types → str_in fr (str_lower title) = false) →
        r !! py "property_type" = None))
  ∧ property_types
    = [ (py "appartement", py "apartment"); (py "maison", py "house");
        (py "studio", py "studio"); (py "duplex", py "duplex");
        (py "loft", py "loft"); (py "terrain", py "land");
        (py "parking", py "parking"); (py "commerce", py "commercial");
        (py "bureaux", py "office"); (py "villa", py "house");
        (py "immeuble", py "building") ]
  ∧ (∀ (R : PyRuntime) (title : pystr) (e : exn),
       parse_title_text title = Raise e → e = ValueError)
  ∧ (∀ (R : PyRuntime) (title : pystr),
       no_digit title →
       ∃ r, parse_title_text title = Ok r
            ∧ r !! py "rooms" = None ∧ r !! py "living_area" = None
            ∧ r !! py "postal_code" = None ∧ r !! py "city" = None)
  ∧ title_keys ⊆ Property_field_names
  ∧ parse_title_text (H := latin1) (py "Maison ou appartement")
    = Ok {[ py "property_type" := VStr (py "apartment") ]}
  ∧ parse_title_text (H := latin1) (py "Studio en duplex")
    = Ok {[ py "property_type" := VStr (py "studio") ]}
  ∧ parse_title_text (H := latin1) (py "Villa avec parking")
    = Ok {[ py "property_type" := VStr (py "parking") ]}
  ∧ (r ← parse_title_text (H := latin1) (py "Studio en duplex 45 m² 75011 Paris");
     Ok (r !! py "property_type", r !! py "postal_code", r !! py "city"))
    = Ok (Some (VStr (py "studio")), Some (VStr (py "75011")), Some (VStr (py "Paris"))).
Proof.
  split; [|split; [|split; [|split; [|split; [|split; [|split; [|split]]]]]]].
  - intros R title r Hr. split; [by eapply parse_title_text_keys|].
    split; [intros v; by apply parse_title_text_type|].
    split; [|split].
    + intros i fr en. by apply parse_title_text_first_entry.
    + intros fr en. by apply parse_title_text_some_type.
    + by apply parse_title_text_no_type.
  - reflexivity.
  - intros R. apply parse_title_text_raises.
  - intros R. apply parse_title_text_no_digit.
  - apply title_keys_fields.
  - vm_compute. reflexivity.
  - vm_compute. reflexivity.
  - vm_compute. reflexivity.
  - vm_compute. reflexivity.
Qed.

(** X6. [parse_total_count] never raises and returns a count that is
    not negative; it returns 0 when no h2 heading matches the count
    pattern. The search page with the heading "1 234 biens à vendre"
    gives 1234; the same words outside an h2 heading give 0. *)
Theorem parse_total_count_total :
  (∀ (R : PyRuntime) (B : BS4) (html : pystr),
     ∃ n, parse_total_count html = Ok n ∧ (0 ≤ n)%Z)
  ∧ (∀ (R : PyRuntime) (B : BS4) (html : pystr),
       Forall (λ h2, re_search count_pattern (get_text_strip h2) = None)
         (find_all (BeautifulSoup html) [py "h2"]) →
       parse_total_count html = Ok 0%Z)
  ∧ parse_total_count (H := latin1) (H0 := dom_bs4 (parsed_as search_tree)) search_page
    = Ok 1234%Z
  ∧ parse_total_count (H := latin1) (H0 := dom_bs4 plain_text) (py "12 biens à louer")
    = Ok 0%Z.
Proof.
  split; [|split; [|split]].
  - intros R B html. apply total_count_loop_total.
  - intros R B html. apply total_count_loop_none.
  - vm_compute. reflexivity.
  - vm_compute. reflexivity.
Qed.

(** X7. [Property] accepts a mapping exactly when all its keys are
    declared fields, and raises [TypeError] otherwise; [to_dict] of the
    result lists the declared fields in declaration order, with the
    given value for a key that was given and the field's default (for
    date_scraped, the time of the call) for one that was not. *)
Theorem Property_round_trip (now : pystr) (kwargs : record) :
  (keys_in Property_field_names kwargs → ∃ P, Property_new now kwargs = Ok P)
  ∧ (¬ keys_in Property_field_names kwargs → Property_new now kwargs = Raise TypeError)
  ∧ ∀ P, Property_new now kwargs = Ok P →
      (to_dict P).*1 = Property_field_names
      ∧ (∀ k v, kwargs !! k = Some v → field_lookup k (to_dict P) = Some v)
      ∧ (∀ k d, (k, d) ∈ Property_fields → kwargs !! k = None →
           field_lookup k (to_dict P) = Some (default (VStr now) d)).
Proof.
  split; [|split].
  - apply Property_new_keys.
  - apply Property_new_keys.
  - intros P HP. split; [by eapply to_dict_names|by apply to_dict_lookup].
Qed.

(** X8. [parse_listing_urls] returns no URL twice, every URL it returns
    is free of a query string and does not start with "/", and the URL
    of every record [parse_listings_from_page] returns for the page is
    among them. The two cards of the search page give one URL. *)
Theorem parse_listing_urls_unique :
  (∀ (R : PyRuntime) (B : BS4) (html : pystr),
     NoDup (parse_listing_urls html)
     ∧ Forall absolute_plain (parse_listing_urls html)
     ∧ ∀ p, p ∈ (parse_listings_from_page html).1 →
         ∃ u, p !! py "url" = Some (VStr u) ∧ u ∈ parse_listing_urls html)
  ∧ parse_listing_urls (H := latin1) (H0 := dom_bs4 (parsed_as search_tree)) search_page
    = [py "https://www.bienici.com/annonce/vente/paris/appartement/3pieces/ag-1"].
Proof.
  split; [|vm_compute; reflexivity].
  intros R B html. unfold parse_listing_urls, parse_listings_from_page. cbv zeta.
  destruct (listing_urls_loop_spec (find_all (BeautifulSoup html) [py "article"]) [])
    as (Hnd & Hplain & _ & Hall); [constructor|constructor|].
  split; [done|]. split; [done|].
  intros p (article & link & Harticle & Hlink & (Hurl & _) & Hne)%listings_loop_cards.
  exists (card_url (default [] (get_href link))). split; [done|].
  destruct (get_href link) as [[|c h]|] eqn:Hhref; [done| |done].
  by eapply Hall.
Qed.

(** X9. Every record [parse_listings_from_page] returns has a URL that
    is a non-empty string without query string, a listing_id string, and
    keys among the card keys, all fields of [Property], so that
    [Property] accepts it; what the function logs are log records only.
    The records of the search page's two cards are evaluated. *)
Theorem listing_cards_convert :
  (∀ (R : PyRuntime) (B : BS4) (html : pystr),
     Forall (λ p,
               (∃ u, p !! py "url" = Some (VStr u) ∧ u ≠ [] ∧ absolute_plain u)
               ∧ (∃ id, p !! py "listing_id" = Some (VStr id))
               ∧ keys_in card_keys p
               ∧ ∀ now, ∃ P, Property_new now p = Ok P)
       (parse_listings_from_page html).1
     ∧ Forall is_log (parse_listings_from_page html).2)
  ∧ card_keys ⊆ Property_field_names
  ∧ (parse_listings_from_page (H := latin1) (H0 := dom_bs4 (parsed_as search_tree))
       search_page).1
    = [ list_to_map
          [ (py "url",
             VStr (py "https://www.bienici.com/annonce/vente/paris/appartement/3pieces/ag-1"));
            (py "listing_id", VStr (py "ag-1"));
            (py "title", VStr (py "Appartement 3 pièces 78 m² 75018 Paris 18e"));
            (py "property_type", VStr (py "apartment"));
            (py "rooms", VInt 3);
            (py "living_area", VFloat (float_of_int 78));
            (py "postal_code", VStr (py "75018"));
            (py "city", VStr (py "Paris 18e"));
            (py "price", VInt 430000);
            (py "price_per_sqm", VFloat (float_of_int 5513));
            (py "has_video", VBool false);
            (py "is_exclusive", VBool false);
            (py "price_drop", VBool false);
            (py "contract_type", VStr (py "buy")) ];
        list_to_map
          [ (py "url",
             VStr (py "https://www.bienici.com/annonce/vente/paris/appartement/3pieces/ag-1"));
            (py "listing_id", VStr (py "ag-1"));
            (py "has_video", VBool false);
            (py "is_exclusive", VBool false);
            (py "price_drop", VBool false);
            (py "contract_type", VStr (py "buy")) ] ].
Proof.
  split; [|split; [apply card_keys_fields|vm_compute; reflexivity]].
  intros R B html. split; [|apply listings_loop_logs].
  apply list.Forall_forall. intros p Hp.
  apply listings_loop_cards in Hp as (article & link & _ & _ & Hrec & Hne).
  destruct Hrec as (Hurl & Hid & Hkeys). split; [|split; [|split]].
  - exists (card_url (default [] (get_href link))). split; [done|]. split; [done|].
    apply card_url_absolute_plain.
  - eauto.
  - done.
  - intros now. apply Property_new_keys.
    eapply keys_in_mono; [apply card_keys_fields|done].
Qed.

(** X10. A record returned by [parse_property_detail] holds the URL it
    was called with and the listing id read off that URL; "dpe_date" is
    its only key that may be no field of [Property]; when the page text
    holds no DPE date, all its keys are fields, and its merge into any
    index record made of fields is accepted by [Property]. *)
Theorem detail_record_fields `{PyRuntime} `{BS4} (html url : pystr) (detail : record) :
  parse_property_detail html url = Ok detail →
  detail !! py "url" = Some (VStr url)
  ∧ detail !! py "listing_id" = Some (VStr (detail_listing_id url))
  ∧ keys_in (py "dpe_date" :: Property_field_names) detail
  ∧ (re_search dpe_date_pattern (get_text (BeautifulSoup html)) = None →
     keys_in Property_field_names detail
     ∧ ∀ index now, keys_in Property_field_names index →
         ∃ P, Property_new now (merge_detail index detail) = Ok P).
Proof.
  intros Hparse.
  pose proof (parse_property_detail_record (py "dpe_date" :: Property_field_names) url
                ltac:(by intros k Hk; right) html detail ltac:(by intros _; left) Hparse)
    as (Hurl & Hid & Hkeys).
  split; [done|]. split; [done|]. split; [done|]. intros Hnone.
  pose proof (parse_property_detail_record Property_field_names url
                ltac:(done) html detail) as Hfields.
  destruct Hfields as (_ & _ & Hfields); [|done|].
  { rewrite Hnone. by intros [? ?]. }
  split; [done|]. intros index now Hindex. apply Property_new_keys.
  by apply merge_detail_keys.
Qed.

Lemma detail_record_fields_witness :
  parse_property_detail (H := latin1) (H0 := dom_bs4 plain_text) plain_page
    (listing_url "abc-1")
  = Ok (returned (parse_property_detail (H := latin1) (H0 := dom_bs4 plain_text)
                    plain_page (listing_url "abc-1")))
  ∧ returned (parse_property_detail (H := latin1) (H0 := dom_bs4 plain_text)
                plain_page (listing_url "abc-1")) !! py "listing_id"
    = Some (VStr (detail_listing_id (listing_url "abc-1")))
  ∧ detail_listing_id (listing_url "abc-1") = py "abc-1".
Proof.
  assert (parse_property_detail (H := latin1) (H0 := dom_bs4 plain_text) plain_page
            (listing_url "abc-1")
          = Ok (returned (parse_property_detail (H := latin1) (H0 := dom_bs4 plain_text)
                            plain_page (listing_url "abc-1")))) as Hparse
    by (vm_compute; reflexivity).
  split; [exact Hparse|]. split; [|vm_compute; reflexivity].
  exact (proj1 (proj2 (detail_record_fields (H := latin1) (H0 := dom_bs4 plain_text)
                         plain_page (listing_url "abc-1") _ Hparse))).
Defined.

(** X11. Deduplication returns a sublist of its input, every record of
    which has a truthy listing_id, no two of which have the same
    listing_id; it is idempotent; and every non-empty listing-id string
    of the input is the listing_id of a record of the output. *)
Theorem dedupe_invariants (all_properties : list record) :
  dedupe all_properties `sublist_of` all_properties
  ∧ Forall (λ p, truthy (listing_id_of p) = true) (dedupe all_properties)
  ∧ distinct_by listing_id_of (dedupe all_properties) = true
  ∧ dedupe (dedupe all_properties) = dedupe all_properties
  ∧ ∀ p s, p ∈ all_properties → listing_id_of p = VStr s → s ≠ [] →
      ∃ q, q ∈ dedupe all_properties ∧ listing_id_of q = VStr s.
Proof.
  rewrite !dedupe_spec.
  pose proof (first_occurrences_truthy all_properties []) as Htruthy.
  pose proof (first_occurrences_distinct all_properties []) as [Hdistinct _].
  split; [apply first_occurrences_sublist|]. split; [done|]. split; [done|].
  split.
  - apply first_occurrences_fixed; [done..|]. by intros p q _ ?%elem_of_nil.
  - intros p s Hp Hid Hs.
    destruct (first_occurrences_covers all_properties [] p s Hp Hid Hs)
      as (q & [Hq%elem_of_nil|Hq] & Heq); [done|eauto].
Qed.

(** X12. The merge is idempotent; the merge with an empty detail record
    changes nothing; a field with a truthy index value keeps a truthy
    value; a field outside the always-prefer-detail list with a truthy
    index value keeps that value (url and listing_id are outside the
    list); and the merged keys are keys of the index or of the detail
    record. *)
Theorem merge_detail_stable (index detail : record) :
  merge_detail (merge_detail index detail) detail = merge_detail index detail
  ∧ merge_detail index ∅ = index
  ∧ (∀ key, truthy (dict_get index key) = true →
       truthy (dict_get (merge_detail index detail) key) = true)
  ∧ (∀ key, key ∉ always_prefer_detail → truthy (dict_get index key) = true →
       merge_detail index detail !! key = index !! key)
  ∧ (py "url" ∉ always_prefer_detail) ∧ (py "listing_id" ∉ always_prefer_detail)
  ∧ ∀ allowed, keys_in allowed index → keys_in allowed detail →
      keys_in allowed (merge_detail index detail).
Proof.
  split; [apply merge_detail_idempotent|]. split; [apply merge_detail_empty|].
  split; [intros key; apply merge_keeps_index_truthy|].
  split; [intros key; apply merge_keeps_identity|].
  split; [apply (bool_decide_unpack _); vm_compute; exact I|].
  split; [apply (bool_decide_unpack _); vm_compute; exact I|].
  intros allowed. apply merge_detail_keys.
Qed.


Lemma Forall2_with_l {A B} (S : A → Prop) (R : A → B → Prop) (l : list A) (k : list B) :
  Forall S l → Forall2 R l k → Forall2 (λ a b, S a ∧ R a b) l k.
Proof.
  intros Hl HR. induction HR as [|a b l k Hab _ IH]; [done|].
  inversion Hl; subst. constructor; [done|]. by apply IH.
Qed.

Lemma Forall_sublist {A} (S : A → Prop) (l k : list A) :
  k `sublist_of` l → Forall S l → Forall S k.
Proof.
  intros Hsub Hl. apply list.Forall_forall. intros x Hx.
  rewrite list.Forall_forall in Hl. apply Hl. by eapply elem_of_sublist.
Qed.

Lemma dedupe_sublist (l : list record) : dedupe l `sublist_of` l.
Proof. rewrite dedupe_spec. apply first_occurrences_sublist. Qed.

Section output.
Context `{PyRuntime} `{BS4}.
Variable http : list event → value → pystr → Z → option pystr.
Variable clock : list event → pystr.
Variable as_completed : list event → ∀ A : Type, list A → list A.

Lemma cards_reconcile (self : BieniciScraper) (all_properties : list record)
    (limit : option Z) (fetch_details : bool) (properties : list Property)
    (tr tr' : list event) :
  Forall listing_card all_properties →
  reconcile http clock as_completed self all_properties limit fetch_details tr
    = (Ok properties, tr') →
  distinct_by (property_field (py "listing_id")) properties = true
  ∧ Forall (λ P, ∃ url id,
                property_field (py "url") P = VStr url ∧ url ≠ []
                ∧ absolute_plain url
                ∧ property_field (py "listing_id") P = VStr id ∧ id ≠ []) properties.
Proof.
  intros Hcards Hrun.
  set (unique := apply_limit limit (dedupe all_properties)).
  assert (unique `sublist_of` dedupe all_properties) as Hsub
    by apply apply_limit_sublist.
  assert (Forall listing_card unique) as Hunique.
  { eapply Forall_sublist; [|exact Hcards]. etrans; [exact Hsub|apply dedupe_sublist]. }
  assert (Forall (λ p, truthy (listing_id_of p) = true) unique) as Hids.
  { eapply Forall_sublist; [exact Hsub|]. rewrite dedupe_spec.
    apply first_occurrences_truthy. }
  assert (distinct_by listing_id_of unique = true) as Hdistinct.
  { eapply distinct_by_sublist; [exact Hsub|].
    rewrite dedupe_spec. apply first_occurrences_distinct. }
  assert (Forall (λ p, truthy (url_of_record p) = true) unique) as Hurls.
  { eapply list.Forall_impl; [exact Hunique|]. intros p Hp.
    destruct (listing_card_url p Hp) as (u & -> & Hu & _). by destruct u. }
  apply reconcile_result in Hrun as (kept & Hkept & Hprops & _);
    [|done|by apply cards_distinct_urls].
  assert (Forall2 (λ index P,
            (listing_card index ∧ has_identity index) ∧ property_of index P)
            kept properties) as Hsame.
  { apply Forall2_with_l; [|done]. eapply Forall_sublist; [exact Hkept|].
    apply list.Forall_forall. intros p Hp. rewrite list.Forall_forall in Hunique, Hids, Hurls.
    split; [by apply Hunique|]. split; [by apply Hurls|by apply Hids]. }
  split.
  - rewrite (distinct_by_Forall2 listing_id_of _ kept properties).
    + by eapply distinct_by_sublist.
    + eapply Forall2_impl; [exact Hsame|]. intros index P [[_ Hid] Hof].
      by apply property_of_identity.
  - apply (Forall2_Forall_r _ _ _ _ Hsame). apply list.Forall_forall.
    intros index _ P [[Hcard Hid] Hof].
    destruct (property_of_identity index P Hid Hof) as [Hurl Hlid].
    destruct (listing_card_url index Hcard) as (u & Hu & Hne & Hplain).
    destruct (listing_card_id index Hcard (proj2 Hid)) as (raw & _ & Hraw & Hrawne).
    exists u, (card_listing_id raw). by rewrite Hurl, Hlid, Hu, Hraw.
Qed.

End output.

Section whole.
Context `{PyRuntime} `{BS4}.
Variable http : list event → value → pystr → Z → option pystr.
Variable clock : list event → pystr.
Variable as_completed : list event → ∀ A : Type, list A → list A.


(** X15. With a worker count of 0 or less, as soon as details are to be
    fetched for a list with a URL, the pool constructor raises
    [ValueError] and so does the reconciliation, after logging the two
    progress lines and before any request. *)
Theorem pool_needs_workers (self : BieniciScraper) (all_properties : list record)
    (limit : option Z) (tr : list event) :
  (max_workers self ≤ 0)%Z →
  (∃ p, p ∈ apply_limit limit (dedupe all_properties)
        ∧ truthy (dict_get p (py "url")) = true) →
  reconcile http clock as_completed self all_properties limit true tr =
    (Raise ValueError,
     tr ++ [Log INFO (CollectedUnique (length (apply_limit limit (dedupe all_properties))));
            Log INFO FetchingDetailPages]).
Proof.
  intros Hworkers Hurl. unfold reconcile. cbv zeta.
  unfold mbind, M_bind, log, emit.
  rewrite (enrich_needs_workers as_completed http self _ _ Hworkers Hurl).
  by rewrite <- app_assoc.
Qed.

(** X18. For a scraper with at least one worker and records with
    truthy, pairwise different urls and truthy listing ids,
    [_enrich_with_details] returns as many records in the same order,
    each with the url and the listing id of the index record in its
    place and a truthy value wherever that one had one, whatever the
    transport answers and in whatever order the tasks complete. *)
Theorem enrichment_keeps_identity (self : BieniciScraper) (properties : list record)
    (tr : list event) :
  (1 ≤ max_workers self)%Z →
  Forall has_identity properties →
  distinct_by url_of_record properties = true →
  ∃ result new,
    _enrich_with_details http as_completed self properties tr = (Ok result, tr ++ new)
    ∧ Forall2 enriched properties result
    ∧ Forall (by_scraper self) new.
Proof.
  intros Hworkers Hid Hdistinct.
  destruct (run_ok_enrich http as_completed self properties Hworkers tr)
    as (result & new & Heq & Hnew & _).
  exists result, new. split; [done|].
  split; [by eapply enrich_with_details_enriched|done].
Qed.

(** X19. Without details, for index records whose keys are all fields
    of [Property], the reconciliation returns one [Property] for each
    unique listing within the limit, in order, and logs two lines: no
    request is made, no pool is created, no record is dropped. *)
Theorem no_details_keeps_every_listing (self : BieniciScraper)
    (all_properties : list record) (limit : option Z) (tr : list event) :
  Forall (keys_in Property_field_names) all_properties →
  let unique := apply_limit limit (dedupe all_properties) in
  ∃ properties,
    reconcile http clock as_completed self all_properties limit false tr =
      (Ok properties,
       tr ++ [Log INFO (CollectedUnique (length unique));
              Log INFO (SuccessfullyScraped (length unique))])
    ∧ Forall2 built_from unique properties.
Proof.
  intros Hkeys unique.
  assert (Forall (keys_in Property_field_names) unique) as Hunique.
  { eapply Forall_sublist; [|exact Hkeys].
    etrans; [apply apply_limit_sublist|apply dedupe_sublist]. }
  assert (∀ l acc tr0, Forall (keys_in Property_field_names) l →
            ∃ new, for_each l (build_property clock) acc tr0 = (Ok (acc ++ new), tr0)
                   ∧ Forall2 built_from l new) as Hloop.
  { induction l as [|p l IH]; intros acc tr0 Hl.
    - exists []. by rewrite app_nil_r.
    - inversion Hl as [|? ? Hp Hl']; subst. simpl.
      unfold mbind, M_bind, build_property at 1.
      destruct (proj1 (Property_new_keys (clock tr0) p) Hp) as [P HP]. rewrite HP.
      destruct (IH (acc ++ [P]) tr0 Hl') as (new & -> & Hnew).
      exists (P :: new). rewrite <- app_assoc. split; [done|].
      constructor; [by exists (clock tr0)|done]. }
  unfold reconcile. cbv zeta. fold unique.
  unfold mbind, M_bind, log, emit.
  destruct (Hloop unique [] (tr ++ [Log INFO (CollectedUnique (length unique))]) Hunique)
    as (new & Heq & Hnew).
  unfold mret at 1, M_ret at 1. rewrite Heq. exists new. simpl.
  rewrite <- (Forall2_length _ _ _ Hnew), <- app_assoc. done.
Qed.

End whole.


(** X16. When the transport fails three times on the first page,
    [scrape] returns the empty list after exactly these three requests;
    an empty response body counts as a failed fetch, without retry; and
    a first page without a listing card ends the run after one request
    with the empty list. *)
Theorem scrape_without_first_page `{PyRuntime} `{BS4}
    (clock : list event → pystr) (as_completed : list event → ∀ A : Type, list A → list A)
    (self : BieniciScraper) (location contract_type property_type : pystr)
    (max_pages limit : option Z) (fetch_details : bool) (tr : list event) :
  let url := _build_search_url location contract_type property_type 1 in
  let start := [Log INFO (StartingScrape property_type contract_type location);
                Log INFO (FetchingFirstPage url)] in
  let request := Request (VStr url) (api_key self) (timeout self) in
  scrape never_answers clock as_completed self location contract_type property_type
    max_pages limit fetch_details tr
  = (Ok [], tr ++ start ++ failed_fetch self (VStr url)
               ++ [Log WARNING FailedToFetchFirstPage])
  ∧ scrape empty_body clock as_completed self location contract_type property_type
      max_pages limit fetch_details tr
    = (Ok [], tr ++ start ++ [request; Log WARNING FailedToFetchFirstPage])
  ∧ ∀ page, page ≠ [] → find_all (BeautifulSoup page) [py "article"] = [] →
      scrape (serve page) clock as_completed self location contract_type property_type
        max_pages limit fetch_details tr
      = (Ok [], tr ++ start ++ [request; Log WARNING NoPropertiesOnFirstPage]).
Proof.
  intros url start request. split; [|split].
  - apply scrape_first_page_unreachable.
  - apply scrape_first_page_empty.
  - intros page Hpage Hcards. by apply scrape_first_page_without_cards.
Qed.

Lemma scrape_without_first_page_witness :
  scrape (H := latin1) (H0 := dom_bs4 plain_text) (serve plain_page) example_clock
    last_first example_self (py "paris") (py "rent") (py "house") None None true []
  = (Ok [],
     [ Log INFO (StartingScrape (py "house") (py "rent") (py "paris"));
       Log INFO (FetchingFirstPage
                   (py "https://www.bienici.com/recherche/location/paris-75000/maisonvilla"));
       Request
         (VStr (py "https://www.bienici.com/recherche/location/paris-75000/maisonvilla"))
         (py "key") 120;
       Log WARNING NoPropertiesOnFirstPage ]).
Proof.
  exact (proj2 (proj2 (scrape_without_first_page (H := latin1) (H0 := dom_bs4 plain_text)
           example_clock last_first example_self (py "paris") (py "rent") (py "house")
           None None true [])) plain_page ltac:(discriminate) eq_refl).
Defined.

(** X17. [parse_property_detail] reads the listing id off the URL: what
    follows the last "/" of the URL, up to the first "?" in it. So a last
    segment without "/" and "?" is read back, and so is it when a query
    string that holds no "/" follows. A "/" inside the query string
    moves the id: it is then read from what follows the last "/" of the
    query string, and ".../ag-1?next=/a/b" has the id "b", not "ag-1".
    For every card with a non-empty listing id, the id read off the
    card's URL is the card's listing id, so two cards with the same URL
    have the same listing id. *)
Theorem listing_id_of_url :
  (∀ prefix segment, segment ≠ [] → 47 ∉ segment →
     detail_identity (prefix ++ [47] ++ segment) !! py "listing_id"
     = Some (VStr (default [] (head (split_char 63 segment)))))
  ∧ (∀ prefix id, id ≠ [] → 47 ∉ id → 63 ∉ id →
       detail_identity (prefix ++ [47] ++ id) !! py "listing_id" = Some (VStr id))
  ∧ (∀ prefix id query, 47 ∉ id → 63 ∉ id → 47 ∉ query →
       detail_identity (prefix ++ [47] ++ id ++ [63] ++ query) !! py "listing_id"
       = Some (VStr id))
  ∧ (∀ prefix id query rest, rest ≠ [] → 47 ∉ rest → 63 ∉ rest →
       detail_identity (prefix ++ [47] ++ id ++ [63] ++ query ++ [47] ++ rest)
         !! py "listing_id"
       = Some (VStr rest))
  ∧ detail_identity (py "https://www.bienici.com/annonce/vente/paris/ag-1?next=/a/b")
      !! py "listing_id"
    = Some (VStr (py "b"))
  ∧ (∀ raw, card_listing_id raw ≠ [] →
       detail_identity (card_url raw) !! py "listing_id"
       = Some (VStr (card_listing_id raw)))
  ∧ (∀ raw raw', card_listing_id raw ≠ [] → card_listing_id raw' ≠ [] →
       card_url raw = card_url raw' → card_listing_id raw = card_listing_id raw').
Proof.
  assert (∀ url, detail_identity url !! py "listing_id"
                 = Some (VStr (detail_listing_id url))) as Hid.
  { intros url. unfold detail_identity. cbv zeta. apply lookup_insert_eq. }
  split; [|split; [|split; [|split; [|split; [|split]]]]].
  - intros prefix segment Hne Hslash. by rewrite Hid, detail_listing_id_last.
  - intros prefix id Hne Hslash Hquery. by rewrite Hid, detail_listing_id_segment.
  - intros prefix id query Hslash Hquery Hq. by rewrite Hid, detail_listing_id_query.
  - intros prefix id query rest Hne Hslash Hquery.
    replace (prefix ++ [47] ++ id ++ [63] ++ query ++ [47] ++ rest)
      with ((prefix ++ [47] ++ id ++ [63] ++ query) ++ [47] ++ rest)
      by (by rewrite <- !app_assoc).
    by rewrite Hid, detail_listing_id_last, split_char_no_sep.
  - rewrite Hid. vm_compute. reflexivity.
  - intros raw Hne. by rewrite Hid, card_detail_listing_id.
  - apply card_url_determines_id.
Qed.

Lemma listing_id_of_url_witness :
  detail_identity (py "https://www.bienici.com/annonce/vente/paris" ++ [47] ++ py "ag-1")
    !! py "listing_id" = Some (VStr (py "ag-1"))
  ∧ detail_identity
      (py "https://www.bienici.com/annonce/vente/paris" ++ [47] ++ py "ag-1"
       ++ [63] ++ py "next=" ++ [47] ++ py "b")
      !! py "listing_id" = Some (VStr (py "b"))
  ∧ detail_identity (card_url (py "/annonce/vente/paris/ag-1/?q=x")) !! py "listing_id"
    = Some (VStr (card_listing_id (py "/annonce/vente/paris/ag-1/?q=x")))
  ∧ card_listing_id (py "/annonce/vente/paris/ag-1/?q=x") = py "ag-1".
Proof.
  destruct listing_id_of_url as (_ & Hsegment & _ & Hmoved & _ & Hcard & _).
  split; [|split; [|split]].
  - apply Hsegment; [discriminate|apply (bool_decide_unpack _); vm_compute; exact I..].
  - apply Hmoved; [discriminate|apply (bool_decide_unpack _); vm_compute; exact I..].
  - apply Hcard. vm_compute. discriminate.
  - vm_compute. reflexivity.
Defined.

Lemma pool_needs_workers_witness :
  reconcile (H := latin1) (H0 := dom_bs4 plain_text) (serve plain_page) example_clock
    last_first idle_self three_listings None true []
  = (Raise ValueError, [Log INFO (CollectedUnique 3); Log INFO FetchingDetailPages]).
Proof.
  apply (pool_needs_workers (H := latin1) (H0 := dom_bs4 plain_text) (serve plain_page)
           example_clock last_first idle_self three_listings None []).
  - vm_compute. discriminate.
  - exists (index_record "a"). split; [|vm_compute; reflexivity].
    replace (apply_limit None (dedupe three_listings)) with three_listings
      by (vm_compute; reflexivity).
    by left.
Defined.

Lemma enrichment_keeps_identity_witness :
  ∃ result new,
    _enrich_with_details (H := latin1) (H0 := dom_bs4 plain_text) (serve plain_page)
      last_first example_self three_listings [] = (Ok result, [] ++ new)
    ∧ Forall2 enriched three_listings result
    ∧ Forall (by_scraper example_self) new.
Proof.
  apply (enrichment_keeps_identity (H := latin1) (H0 := dom_bs4 plain_text)).
  - vm_compute. discriminate.
  - repeat constructor; vm_compute; reflexivity.
  - vm_compute. reflexivity.
Defined.

Lemma index_record_keys (id : string) : keys_in Property_field_names (index_record id).
Proof.
  unfold index_record. apply keys_in_insert; [in_keys|].
  apply map_Forall_singleton. in_keys.
Qed.

Lemma no_details_keeps_every_listing_witness :
  ∃ properties,
    reconcile (H := latin1) (H0 := dom_bs4 plain_text) (serve plain_page) example_clock
      last_first example_self (three_listings ++ three_listings) (Some 2%Z) false []
    = (Ok properties,
       [] ++ [Log INFO (CollectedUnique 2); Log INFO (SuccessfullyScraped 2)])
    ∧ Forall2 built_from [index_record "a"; index_record "b"] properties.
Proof.
  apply (no_details_keeps_every_listing (H := latin1) (H0 := dom_bs4 plain_text)
           (serve plain_page) example_clock last_first example_self
           (three_listings ++ three_listings) (Some 2%Z) []).
  apply Forall_app. split;
    repeat (apply List.Forall_cons; [apply index_record_keys|]); apply List.Forall_nil.
Defined.

(** ** What the extractors raise *)

Lemma bind_Raise {A B} (m : result A) (f : A → result B) (e : exn) :
  m ≫= f = Raise e → m = Raise e ∨ ∃ a, m = Ok a ∧ f a = Raise e.
Proof. destruct m as [a|e']; [eauto|]. intros [= ->]. by left. Qed.

Section raises.
Context `{PyRuntime} `{BS4}.

Lemma parse_price_raises (text_ : pystr) (e : exn) : parse_price text_ ≠ Raise e.
Proof. destruct (parse_price_total text_) as [r ->]. done. Qed.

Lemma parse_price_per_sqm_raises (text_ : pystr) (e : exn) :
  parse_price_per_sqm text_ ≠ Raise e.
Proof. destruct (parse_price_per_sqm_returns text_) as [r ->]. done. Qed.

Lemma py_int_raises (s : pystr) (e : exn) : py_int s = Raise e → e = ValueError.
Proof. destruct (py_int_outcome s) as [[z ->]| ->]; congruence. Qed.

Lemma py_float_raises (s : pystr) (e : exn) : py_float s = Raise e → e = ValueError.
Proof. destruct (py_float_outcome s) as [[z ->]| ->]; congruence. Qed.

Lemma price_in_divs_spec (divs : list tag) :
  ∃ r, price_in_divs divs = Ok r
       ∧ ∀ p, r = Some p →
           (1000 < p)%Z
           ∧ ∃ div, div ∈ divs ∧ parse_price (get_text_strip div) = Ok (Some p)
                    ∧ str_in (py "€") (get_text_strip div) = true.
Proof.
  induction divs as [|div more (r & IH & Hr)]; simpl.
  - exists None. by split.
  - assert (∃ r, price_in_divs more = Ok r
       ∧ ∀ p, r = Some p →
           (1000 < p)%Z
           ∧ ∃ d, d ∈ div :: more ∧ parse_price (get_text_strip d) = Ok (Some p)
                  ∧ str_in (py "€") (get_text_strip d) = true) as Hmore.
    { exists r. split; [done|]. intros p Hp. destruct (Hr p Hp) as (? & d & ? & ? & ?).
      split; [done|]. exists d. split; [by right|done]. }
    destruct (str_in (py "€") (get_text_strip div)) eqn:Heuro; simpl; [|exact Hmore].
    destruct (searches digit (get_text_strip div)); simpl; [|exact Hmore].
    destruct (parse_price_total (get_text_strip div)) as [[p|] Hprice]; rewrite Hprice;
      simpl; [|exact Hmore].
    destruct (negb (p =? 0)%Z && (1000 <? p)%Z) eqn:Hbig; [|exact Hmore].
    exists (Some p). split; [done|]. intros ? [= <-].
    apply andb_prop in Hbig as [_ Hbig%Z.ltb_lt]. split; [done|].
    exists div. split; [by left|done].
Qed.

Lemma extract_listing_card_data_raises (article : tag) (e : exn) :
  extract_listing_card_data article = Raise e →
  e = ValueError
  ∧ ∃ h3, find article (py "h3") = Some h3
          ∧ parse_title_text (get_text_strip h3) = Raise ValueError.
Proof.
  unfold extract_listing_card_data.
  destruct (find_href article (py "a") (searches annonce_pattern)) as [link|]; [|done].
  cbv zeta. intros Hcard.
  apply bind_Raise in Hcard as [Htitle|(p1 & _ & Hcard)].
  { destruct (find article (py "h3")) as [h3|]; [|done].
    apply bind_Raise in Htitle as [Htitle|(? & _ & ?)]; [|done].
    pose proof (parse_title_text_raises _ _ Htitle) as ->. eauto. }
  apply bind_Raise in Hcard as [Hprice|(p2 & _ & Hcard)].
  { repeat case_match; try done.
    apply bind_Raise in Hprice as [Hprice|(? & _ & ?)]; [|done].
    by apply parse_price_raises in Hprice. }
  apply bind_Raise in Hcard as [Hdivs|(p3 & _ & Hcard)].
  { destruct (truthy _); [done|].
    destruct (price_in_divs_spec (find_all article [py "div"])) as (r & Hr & _).
    rewrite Hr in Hdivs. simpl in Hdivs. by destruct r. }
  apply bind_Raise in Hcard as [Hsqm|(p4 & _ & Hcard)]; [|done].
  repeat case_match; try done.
  apply bind_Raise in Hsqm as [Hsqm|(? & _ & ?)]; [|done].
  by apply parse_price_per_sqm_raises in Hsqm.
Qed.

Lemma parse_property_detail_raises (html url : pystr) (e : exn) :
  parse_property_detail html url = Raise e → e = ValueError.
Proof.
  unfold parse_property_detail. cbv zeta. intros Hparse.
  apply bind_Raise in Hparse as [Hpass|(p1 & _ & Hparse)].
  { unfold detail_title in Hpass. destruct (find _ _); [|done].
    apply bind_Raise in Hpass as [Hpass|(? & _ & ?)]; [|done].
    by eapply parse_title_text_raises. }
  apply bind_Raise in Hparse as [Hpass|(p2 & _ & Hparse)].
  { unfold detail_price in Hpass. destruct (re_search _ _); [|done].
    apply bind_Raise in Hpass as [Hpass|(? & _ & ?)]; [|done].
    by apply parse_price_raises in Hpass. }
  apply bind_Raise in Hparse as [Hpass|(p3 & _ & Hparse)].
  { unfold detail_price_per_sqm in Hpass. destruct (re_search _ _); [|done].
    apply bind_Raise in Hpass as [Hpass|(? & _ & ?)]; [|done].
    by apply parse_price_per_sqm_raises in Hpass. }
  apply bind_Raise in Hparse as [Hpass|(p4 & _ & Hparse)].
  { unfold detail_fees in Hpass. destruct (re_search _ _); [|done].
    apply bind_Raise in Hpass as [Hpass|(? & _ & ?)]; [|done].
    by eapply py_float_raises. }
  apply bind_Raise in Hparse as [Hpass|(p5 & _ & Hparse)].
  { unfold detail_price_without_fees in Hpass. destruct (re_search _ _); [|done].
    apply bind_Raise in Hpass as [Hpass|(? & _ & ?)]; [|done].
    by apply parse_price_raises in Hpass. }
  apply bind_Raise in Hparse as [Hpass|(p6 & _ & Hparse)].
  { unfold detail_energy in Hpass. repeat case_match; try done.
    apply bind_Raise in Hpass as [Hpass|(? & _ & ?)]; [|done].
    by eapply py_int_raises. }
  apply bind_Raise in Hparse as [Hpass|(p7 & _ & Hparse)].
  { unfold detail_ges in Hpass. destruct (re_search_i _ _); [|done].
    apply bind_Raise in Hpass as [Hpass|(? & _ & ?)]; [|done].
    by eapply py_int_raises. }
  apply bind_Raise in Hparse as [Hpass|(p8 & _ & Hparse)]; [|done].
  unfold detail_energy_bill in Hpass. destruct (re_search _ _); [|done].
  apply bind_Raise in Hpass as [Hpass|(? & _ & Hpass)].
  - by apply parse_price_raises in Hpass.
  - apply bind_Raise in Hpass as [Hpass|(? & _ & ?)]; [|done].
    by apply parse_price_raises in Hpass.
Qed.

Lemma str_lower_all : str_lower (py "all") = py "all".
Proof. rewrite str_lower_ascii; [reflexivity|]. repeat constructor. Qed.

Lemma build_search_url_unknown_type (location contract_type property_type : pystr)
    (page : Z) :
  PROPERTY_TYPES !! str_lower property_type = None →
  _build_search_url location contract_type property_type page =
    _build_search_url location contract_type (py "all") page.
Proof.
  intros Hunknown. unfold _build_search_url. by rewrite Hunknown, str_lower_all.
Qed.

Lemma build_search_url_page (location contract_type property_type : pystr) (page : Z) :
  _build_search_url location contract_type property_type page =
    _build_search_url location contract_type property_type 1
    ++ (if (1 <? page)%Z then py "?page=" ++ str_of_int page else []).
Proof.
  unfold _build_search_url. cbv zeta. change (1 <? 1)%Z with false. cbv iota.
  destruct (1 <? page)%Z; [done|by rewrite app_nil_r].
Qed.

End raises.

(** X20. A property type whose lowercase form is no key of the
    property-type table is treated like "all": it adds no segment to the
    search URL. The URL for a page above 1 is the URL for page 1
    followed by "?page=" and the page number; for a page of 1 or less it
    is the URL for page 1. *)
Theorem search_url_type_and_page `{PyRuntime} :
  dom PROPERTY_TYPES = {[ py "all"; py "apartment"; py "house"; py "land"; py "parking";
                          py "commercial"; py "office" ]}
  ∧ (∀ location contract_type property_type page,
       PROPERTY_TYPES !! str_lower property_type = None →
       _build_search_url location contract_type property_type page =
         _build_search_url location contract_type (py "all") page)
  ∧ (∀ location contract_type property_type page,
       _build_search_url location contract_type property_type page =
         _build_search_url location contract_type property_type 1
         ++ (if (1 <? page)%Z then py "?page=" ++ str_of_int page else [])).
Proof.
  split; [|split].
  - apply leibniz_equiv. unfold PROPERTY_TYPES. rewrite dom_list_to_map. simpl.
    set_solver.
  - apply build_search_url_unknown_type.
  - apply build_search_url_page.
Qed.

Lemma search_url_type_and_page_witness :
  PROPERTY_TYPES !! @str_lower latin1 (py "Castle") = None
  ∧ _build_search_url (H := latin1) (py "lyon") (py "rent") (py "Castle") 3
    = _build_search_url (H := latin1) (py "lyon") (py "rent") (py "all") 3
  ∧ _build_search_url (H := latin1) (py "lyon") (py "rent") (py "Castle") 3
    = py "https://www.bienici.com/recherche/location/lyon-69000?page=3".
Proof.
  assert (PROPERTY_TYPES !! @str_lower latin1 (py "Castle") = None) as Hcastle
    by reflexivity.
  split; [exact Hcastle|]. split; [|vm_compute; reflexivity].
  exact (proj1 (proj2 (search_url_type_and_page (H := latin1)))
           (py "lyon") (py "rent") (py "Castle") 3%Z Hcastle).
Defined.

(** X21. The fallback scan of a card's div blocks never raises, and the
    price it returns is above 1000 and is what [parse_price] reads off
    one of the blocks, whose text holds a euro sign. *)
Theorem fallback_price_above_1000 `{PyRuntime} `{BS4} (divs : list tag) :
  ∃ r, price_in_divs divs = Ok r
       ∧ ∀ p, r = Some p →
           (1000 < p)%Z
           ∧ ∃ div, div ∈ divs ∧ parse_price (get_text_strip div) = Ok (Some p)
                    ∧ str_in (py "€") (get_text_strip div) = true.
Proof. apply price_in_divs_spec. Qed.

(** X22. [extract_listing_card_data] raises nothing but [ValueError],
    and only when [parse_title_text] raises it on the card's h3 title;
    [parse_property_detail] raises nothing but [ValueError]. *)
Theorem extraction_raises_only_ValueError `{PyRuntime} `{BS4} :
  (∀ article e,
     extract_listing_card_data article = Raise e →
     e = ValueError
     ∧ ∃ h3, find article (py "h3") = Some h3
             ∧ parse_title_text (get_text_strip h3) = Raise ValueError)
  ∧ ∀ html url e, parse_property_detail html url = Raise e → e = ValueError.
Proof.
  split.
  - apply extract_listing_card_data_raises.
  - apply parse_property_detail_raises.
Qed.

(** ** The DPE date, from the detail page to the output *)

Lemma odict_get_py_eq {V} (k k' : value) (d : odict V) :
  py_eq k k' = true → odict_get k d = odict_get k' d.
Proof.
  intros Hk. induction d as [|[k1 v1] d IH]; simpl; [done|]. rewrite IH.
  destruct (py_eq k1 k) eqn:H1, (py_eq k1 k') eqn:H2; try done.
  - by rewrite (py_eq_trans _ _ _ H1 Hk) in H2.
  - by rewrite (py_eq_trans _ _ _ H2 (py_eq_sym _ _ Hk)) in H1.
Qed.

Lemma odict_get_set {V} (k k' : value) (v : V) (d : odict V) :
  is_Some (odict_get k' d) →
  odict_get k (odict_set k' v d) = if py_eq k' k then Some v else odict_get k d.
Proof.
  induction d as [|[k1 v1] d IH]; simpl; [by intros [? ?]|].
  destruct (py_eq k1 k') eqn:H1; simpl.
  - intros _. destruct (py_eq k1 k) eqn:H2, (py_eq k' k) eqn:H3; try done.
    + by rewrite (py_eq_trans _ _ _ (py_eq_sym _ _ H1) H2) in H3.
    + by rewrite (py_eq_trans _ _ _ H1 H3) in H2.
  - intros Hsome. rewrite (IH Hsome).
    destruct (py_eq k1 k) eqn:H2, (py_eq k' k) eqn:H3; try done.
    by rewrite (py_eq_trans _ _ _ H2 (py_eq_sym _ _ H3)) in H1.
Qed.

(** Storing under a key that is there keeps the keys. *)
Lemma odict_set_keeps {A V} (f : A → value) (S : A → V → Prop) (k : value) (v v' : V) :
  ∀ (d : odict V) (l : list A),
    Forall2 (λ a kv, kv.1 = f a ∧ S a kv.2) l d → odict_get k d = Some v →
    (∀ a, S a v → S a v') →
    Forall2 (λ a kv, kv.1 = f a ∧ S a kv.2) l (odict_set k v' d).
Proof.
  induction d as [|[k1 v1] d IH]; intros l Hl Hget Hv; [done|].
  simpl in *. apply Forall2_cons_inv_r in Hl as (a & l' & [Hk Ha] & Hl' & ->).
  destruct (py_eq k1 k).
  - injection Hget as ->. constructor; [|done]. split; [done|]. by apply Hv.
  - constructor; [done|]. by apply IH.
Qed.

(** With pairwise different keys, an entry is found under its key. *)
Lemma odict_get_entry {V} (k key : value) (v : V) (d : odict V) :
  distinct_by fst d = true → (k, v) ∈ d → py_eq k key = true →
  odict_get key d = Some v.
Proof.
  induction d as [|[k1 v1] d IH]; simpl; [by intros _ ?%elem_of_nil|].
  intros [Hfresh Hrest]%andb_prop [[= <- <-]|Hin]%elem_of_cons Hk.
  - by rewrite Hk.
  - rewrite forallb_forall in Hfresh.
    pose proof (Hfresh (k, v) (proj1 (list_elem_of_In _ _) Hin)) as Hne.
    apply negb_true_iff in Hne. simpl in Hne.
    destruct (py_eq k1 key) eqn:H1; [|by apply IH].
    by rewrite (py_eq_trans _ _ _ H1 (py_eq_sym _ _ Hk)) in Hne.
Qed.

Lemma distinct_by_same {A} (f : A → value) (l : list A) (a b : A) :
  distinct_by f l = true → a ∈ l → b ∈ l → py_eq (f a) (f b) = true → a = b.
Proof.
  induction l as [|x l IH]; simpl; [by intros _ ?%elem_of_nil|].
  intros [Hfresh Hrest]%andb_prop. rewrite forallb_forall in Hfresh.
  intros [->|Ha]%elem_of_cons [->|Hb]%elem_of_cons Heq; [done| | |by apply IH].
  - pose proof (Hfresh b (proj1 (list_elem_of_In _ _) Hb)) as Hne.
    apply negb_true_iff in Hne. congruence.
  - pose proof (Hfresh a (proj1 (list_elem_of_In _ _) Ha)) as Hne.
    apply negb_true_iff in Hne. rewrite (py_eq_sym _ _ Heq) in Hne. done.
Qed.

(** A loop establishes at an element what every later pass keeps. *)
Lemma for_each_reaches {A S} (I G : S → Prop) (l : list A) (body : A → S → M S) (x : A) :
  (∀ y s tr s' tr', body y s tr = (Ok s', tr') → I s → I s') →
  (∀ y s tr s' tr', body y s tr = (Ok s', tr') → I s → G s → G s') →
  (∀ s tr s' tr', body x s tr = (Ok s', tr') → I s → G s') →
  x ∈ l →
  ∀ s tr s' tr', for_each l body s tr = (Ok s', tr') → I s → G s'.
Proof.
  intros HI HG Hx. induction l as [|y l IH]; [by intros ?%elem_of_nil|].
  intros Hin s tr s' tr'. simpl. unfold mbind, M_bind.
  destruct (body y s tr) as [[s1|e] tr1] eqn:Hy; [|done]. intros Hrest Hs.
  apply elem_of_cons in Hin as [<-|Hin].
  - assert (G s1) as Hg by (by eapply Hx). clear IH.
    assert (I s1) as Hi by (by eapply HI). clear Hy Hs.
    revert s1 tr1 Hrest Hg Hi. induction l as [|z l IH]; intros s1 tr1; simpl.
    + by intros [= <- <-].
    + unfold mbind, M_bind. destruct (body z s1 tr1) as [[s2|e] tr2] eqn:Hz; [|done].
      intros Hrest Hg Hi. eapply IH; [exact Hrest|by eapply HG|by eapply HI].
  - eapply IH; [done|exact Hrest|by eapply HI].
Qed.

Section dpe_run.
Context `{PyRuntime} `{BS4}.
Variable http : list event → value → pystr → Z → option pystr.
Variable clock : list event → pystr.
Variable as_completed : list event → ∀ A : Type, list A → list A.
Variable self : BieniciScraper.
Variables (html url : pystr) (detail : record).

Hypothesis as_completed_perm : ∀ tr A (l : list A), as_completed tr A l ≡ₚ l.
Hypothesis served : ∀ tr key seconds, http tr (VStr url) key seconds = Some html.
Hypothesis html_nonempty : html ≠ [].
Hypothesis parsed : parse_property_detail html url = Ok detail.
Hypothesis dated : truthy (dict_get detail (py "dpe_date")) = true.

Local Abbreviation dpe := (py "dpe_date").

(** The detail task of the URL returns the record of its page. *)
Lemma scrape_detail_served (tr : list event) :
  scrape_detail http self (VStr url) tr =
    (Ok (Some detail),
     tr ++ [Log DEBUG (FetchingDetail (VStr url));
            Request (VStr url) (api_key self) (timeout self)]).
Proof.
  unfold scrape_detail, _fetch_page, MAX_RETRIES, fetch_attempts, mbind, M_bind,
    session_get, log, emit.
  rewrite served. unfold mret, M_ret.
  replace (falsy_html (Some html)) with false by (by destruct html).
  unfold lift. simpl. rewrite parsed. by rewrite <- app_assoc.
Qed.

Lemma enrich_one_dates (d d' : odict record) (tr tr' : list event) :
  is_Some (odict_get (VStr url) d) →
  enrich_one http self (VStr url) d tr = (Ok d', tr') → dated_entry url d'.
Proof.
  intros [index Hindex] Hone.
  assert (detail ≠ ∅) as Hdetail.
  { intros ->. pose proof dated as Hd. unfold dict_get in Hd.
    by rewrite lookup_empty in Hd. }
  rewrite (enrich_one_merges http self (VStr url) d index detail tr _ Hdetail Hindex
             (scrape_detail_served tr)) in Hone.
  injection Hone as <- _. exists (merge_detail index detail). split.
  - rewrite odict_get_set by (by rewrite Hindex).
    by rewrite (proj2 (py_eq_str url (VStr url)) eq_refl).
  - by apply merge_keeps_truthy.
Qed.

Lemma enrich_one_keeps_date (task : value) (d d' : odict record) (tr tr' : list event) :
  enrich_one http self task d tr = (Ok d', tr') → dated_entry url d → dated_entry url d'.
Proof.
  intros Hone (r & Hr & Hdate).
  apply enrich_one_cases in Hone as [->|(index & detail' & Hget & ->)]; [by exists r|].
  unfold dated_entry. rewrite odict_get_set by (by rewrite Hget).
  destruct (py_eq task (VStr url)) eqn:Htask; [|by exists r].
  exists (merge_detail index detail'). split; [done|].
  rewrite (odict_get_py_eq _ _ d Htask), Hr in Hget. injection Hget as <-.
  by apply merge_keeps_index_truthy.
Qed.

Lemma enrich_with_details_dated (properties result : list record) (index : record)
    (tr tr' : list event) :
  Forall has_identity properties →
  distinct_by url_of_record properties = true →
  index ∈ properties → url_of_record index = VStr url →
  _enrich_with_details http as_completed self properties tr = (Ok result, tr') →
  Forall2 (enriched_dated url) properties result.
Proof.
  intros Hid Hdistinct Hindex Hurl. unfold _enrich_with_details. cbv zeta.
  assert (omap (λ p : record,
                  if truthy (dict_get p (py "url")) then Some (dict_get p (py "url"))
                  else None) properties
          = map url_of_record properties) as ->.
  { clear Hdistinct Hindex. induction Hid as [|p l [Hp _] _ IH]; [done|]. csimpl.
    unfold url_of_record in Hp. rewrite Hp. by rewrite IH. }
  destruct (map url_of_record properties) as [|u0 urls] eqn:Hurls.
  { destruct properties; [by apply elem_of_nil in Hindex|done]. }
  rewrite <- Hurls. clear u0 urls Hurls.
  pose proof (index_by_url url_of_record properties [] Hdistinct) as Hby.
  cbn [map app] in Hby. unfold url_of_record in Hby at 1.
  rewrite Hby. clear Hby.
  unfold mbind, M_bind. destruct (thread_pool _ tr) as [[[]|e] tr1]; [|done].
  unfold completion.
  destruct (for_each _ _ _ tr1) as [[d|e] tr2] eqn:Hloop; [|done].
  intros [= <- <-].
  set (I := λ d : odict record,
         Forall2 (λ p kr, kr.1 = url_of_record p ∧ has_identity p ∧ enriched p kr.2)
           properties d).
  assert (I (map (λ p, (url_of_record p, p)) properties)) as Hstart.
  { apply Forall2_fmap_r. apply Forall2_same_length_lookup_2; [done|].
    intros i p q Hp Hq. simplify_eq. simpl. split; [done|]. split; [|apply enriched_refl].
    rewrite list.Forall_forall in Hid. apply Hid. by eapply list_elem_of_lookup_2. }
  assert (∀ task s tr3 s' tr4,
            enrich_one http self task s tr3 = (Ok s', tr4) → I s → I s') as Hstep.
  { intros task s tr3 s' tr4 Hone Hs.
    apply enrich_one_cases in Hone as [->|(current & detail' & Hget & ->)]; [done|].
    eapply (odict_set_keeps url_of_record (λ p r, has_identity p ∧ enriched p r));
      [exact Hs|exact Hget|].
    intros a [Ha Hai]. split; [done|]. by apply enriched_merge. }
  assert (∀ s, I s → is_Some (odict_get (VStr url) s)) as Hthere.
  { intros s Hs. apply list_elem_of_lookup in Hindex as [i Hi].
    destruct (Forall2_lookup_l _ _ _ _ _ Hs Hi) as ([k r] & Hkr & Hk & _).
    simpl in Hk. rewrite Hurl in Hk. subst k.
    assert (distinct_by fst s = true) as Hkeys.
    { rewrite (distinct_by_Forall2 url_of_record fst properties s); [done|].
      eapply Forall2_impl; [exact Hs|]. by intros a b [? _]. }
    rewrite (odict_get_entry (VStr url) (VStr url) r s Hkeys);
      [done|by eapply list_elem_of_lookup_2|by apply py_eq_str]. }
  assert (I d) as Hd by (by eapply (for_each_result I); [exact Hstep|exact Hloop|]).
  assert (dated_entry url d) as (r0 & Hr0 & Hdate0).
  { eapply (for_each_reaches I (dated_entry url)); [exact Hstep| | | |exact Hloop|exact Hstart].
    - intros task s tr3 s' tr4 Hone _. by eapply enrich_one_keeps_date.
    - intros s tr3 s' tr4 Hone Hs. eapply enrich_one_dates; [by apply Hthere|exact Hone].
    - rewrite as_completed_perm. apply list_elem_of_fmap. by exists index. }
  assert (distinct_by fst d = true) as Hkeys.
  { rewrite (distinct_by_Forall2 url_of_record fst properties d); [done|].
    eapply Forall2_impl; [exact Hd|]. by intros a b [? _]. }
  apply Forall2_fmap_r. apply Forall2_same_length_lookup_2; [by eapply Forall2_length|].
  intros i p [k r] Hp Hkr.
  destruct (Forall2_lookup_l _ _ _ _ _ Hd Hp) as (kr' & Hkr' & Hk & Hpid & Hpr).
  rewrite Hkr in Hkr'. injection Hkr' as <-. simpl in *.
  split; [done|]. split; [done|]. intros Hpu.
  assert (odict_get (VStr url) d = Some r) as Hr.
  { apply (odict_get_entry k); [done|by eapply list_elem_of_lookup_2|].
    rewrite Hk, Hpu. by apply py_eq_str. }
  rewrite Hr0 in Hr. injection Hr as <-. unfold dict_get in Hdate0.
  by destruct (r0 !! dpe).
Qed.

End dpe_run.

Section dpe_output.
Context `{PyRuntime} `{BS4}.
Variable http : list event → value → pystr → Z → option pystr.
Variable clock : list event → pystr.
Variable as_completed : list event → ∀ A : Type, list A → list A.
Variable self : BieniciScraper.

(** The conversion loop returns; the records it keeps are those
    [Property] accepts, and each record [Property] rejects with a
    [TypeError] leaves a warning. *)
Lemma build_property_loop_total (l : list record) :
  ∀ acc tr,
    ∃ kept new logged,
      for_each l (build_property clock) acc tr = (Ok (acc ++ new), tr ++ logged)
      ∧ kept `sublist_of` l ∧ Forall2 built_from kept new
      ∧ ∀ r, r ∈ l → (∀ now, Property_new now r = Raise TypeError) →
          Log WARNING (FailedToCreateProperty TypeError) ∈ logged.
Proof.
  induction l as [|p l IH]; intros acc tr; simpl.
  - exists [], [], []. rewrite !app_nil_r. split; [done|]. split; [done|].
    split; [done|]. by intros r ?%elem_of_nil.
  - unfold mbind, M_bind, build_property at 1.
    destruct (Property_new (clock tr) p) as [P|e] eqn:Hnew.
    + destruct (IH (acc ++ [P]) tr) as (kept & new & logged & -> & Hsub & Hbuilt & Hlog).
      exists (p :: kept), (P :: new), logged. rewrite <- app_assoc.
      split; [done|]. split; [by apply sublist_skip|].
      split; [constructor; [by exists (clock tr)|done]|].
      intros r [->|Hr]%elem_of_cons Hraise; [|by apply (Hlog r)].
      rewrite Hraise in Hnew. done.
    + destruct (IH acc (tr ++ [Log WARNING (FailedToCreateProperty e)]))
        as (kept & new & logged & -> & Hsub & Hbuilt & Hlog).
      exists kept, new, (Log WARNING (FailedToCreateProperty e) :: logged).
      rewrite <- app_assoc. split; [done|]. split; [by apply sublist_cons|].
      split; [done|].
      intros r [->|Hr]%elem_of_cons Hraise.
      * rewrite Hraise in Hnew. injection Hnew as <-. by left.
      * right. by apply (Hlog r).
Qed.

Variables (html url : pystr) (detail : record).
Hypothesis as_completed_perm : ∀ tr A (l : list A), as_completed tr A l ≡ₚ l.
Hypothesis served : ∀ tr key seconds, http tr (VStr url) key seconds = Some html.
Hypothesis html_nonempty : html ≠ [].
Hypothesis parsed : parse_property_detail html url = Ok detail.
Hypothesis dated : truthy (dict_get detail (py "dpe_date")) = true.
Hypothesis workers : (1 ≤ max_workers self)%Z.

(** The listing of the URL is not in the output of the reconciliation,
    and its conversion leaves a warning. *)
Lemma reconcile_drops_dated (all_properties : list record) (limit : option Z)
    (index : record) (tr : list event) :
  let unique := apply_limit limit (dedupe all_properties) in
  Forall (λ p, truthy (url_of_record p) = true) unique →
  distinct_by url_of_record unique = true →
  index ∈ unique → url_of_record index = VStr url →
  ∃ properties new,
    reconcile http clock as_completed self all_properties limit true tr
      = (Ok properties, tr ++ new)
    ∧ Forall (λ P, py_eq (property_field (py "listing_id") P) (listing_id_of index) = false
                   ∧ property_field (py "url") P ≠ VStr url) properties
    ∧ Log WARNING (FailedToCreateProperty TypeError) ∈ new.
Proof.
  intros unique Hurls Hdistinct Hindex Hurl.
  assert (unique `sublist_of` dedupe all_properties) as Hsub
    by apply apply_limit_sublist.
  assert (Forall (λ p, truthy (listing_id_of p) = true) unique) as Hids.
  { eapply Forall_sublist; [exact Hsub|]. rewrite dedupe_spec.
    apply first_occurrences_truthy. }
  assert (distinct_by listing_id_of unique = true) as Hdistinct_ids.
  { eapply distinct_by_sublist; [exact Hsub|].
    rewrite dedupe_spec. apply first_occurrences_distinct. }
  assert (Forall has_identity unique) as Hid.
  { apply list.Forall_forall. intros p Hp. rewrite list.Forall_forall in Hurls, Hids.
    split; [by apply Hurls|by apply Hids]. }
  unfold reconcile. cbv zeta. fold unique.
  unfold mbind at 1, M_bind at 1, log at 1, emit.
  unfold mbind at 1, M_bind at 1.
  unfold mbind at 1, M_bind at 1, log at 1, emit.
  destruct (run_ok_enrich http as_completed self unique workers
              ((tr ++ [Log INFO (CollectedUnique (length unique))])
               ++ [Log INFO FetchingDetailPages]))
    as (result & new1 & Henrich & _ & _).
  rewrite Henrich.
  pose proof (enrich_with_details_dated http as_completed self html url detail
                as_completed_perm served html_nonempty parsed dated
                unique result index _ _ Hid Hdistinct Hindex Hurl Henrich) as Hdated.
  destruct (build_property_loop_total result []
              (((tr ++ [Log INFO (CollectedUnique (length unique))])
                ++ [Log INFO FetchingDetailPages]) ++ new1))
    as (kept' & built & logged & Hloop & Hkept' & Hbuilt & Hlogged).
  unfold mbind at 1, M_bind at 1. rewrite Hloop.
  unfold mbind, M_bind, log, emit, mret, M_ret. simpl.
  exists built,
    ([Log INFO (CollectedUnique (length unique)); Log INFO FetchingDetailPages]
     ++ new1 ++ logged ++ [Log INFO (SuccessfullyScraped (length built))]).
  split; [by rewrite <- !app_assoc|]. split.
  - destruct (Forall2_sublist_r _ _ _ _ Hdated Hkept') as (kept & Hkept & Henriched).
    assert (Forall2 (λ p P, p ∈ unique ∧ ∃ r, enriched_dated url p r ∧ built_from r P)
              kept built) as Hsame.
    { apply Forall2_with_l.
      - apply list.Forall_forall. intros p Hp. by eapply elem_of_sublist.
      - eapply Forall2_trans; [|exact Henriched|exact Hbuilt].
        intros p r P Hr HP. by exists r. }
    apply (Forall2_Forall_r _ _ _ _ Hsame). apply list.Forall_forall.
    intros p _ P (Hp & r & (Hpid & Hpr & Hdate) & HP).
    destruct (property_of_identity p P Hpid) as [Hpurl Hlid]; [by exists r|].
    assert (url_of_record p = VStr url → False) as Hother.
    { intros Hpu. destruct HP as [now HP].
      rewrite (Property_new_unknown_key now (py "dpe_date") r dpe_date_not_a_field
                 (Hdate Hpu)) in HP. done. }
    split; [|by rewrite Hpurl].
    destruct (py_eq (property_field (py "listing_id") P) (listing_id_of index)) eqn:Heq;
      [exfalso|done].
    rewrite Hlid in Heq. apply Hother.
    by rewrite (distinct_by_same listing_id_of unique p index Hdistinct_ids Hp Hindex Heq).
  - apply list_elem_of_lookup in Hindex as [i Hi].
    destruct (Forall2_lookup_l _ _ _ _ _ Hdated Hi) as (r & Hr & _ & _ & Hdate).
    rewrite !elem_of_app. right. right. left.
    apply (Hlogged r); [by eapply list_elem_of_lookup_2|].
    intros now. by apply (Property_new_unknown_key now (py "dpe_date")); [apply dpe_date_not_a_field|apply Hdate].
Qed.

(** The same for [scrape], whose index records are those of cards. *)
Lemma scrape_drops_dated (location contract_type property_type : pystr)
    (max_pages limit : option Z) (all_properties : list record) (index : record)
    (tr tr1 : list event) :
  collect_pages http as_completed self location contract_type property_type max_pages tr
    = (Ok (Some all_properties), tr1) →
  index ∈ apply_limit limit (dedupe all_properties) → url_of_record index = VStr url →
  ∃ properties new,
    scrape http clock as_completed self location contract_type property_type
      max_pages limit true tr = (Ok properties, tr1 ++ new)
    ∧ Forall (λ P, py_eq (property_field (py "listing_id") P) (listing_id_of index) = false
                   ∧ property_field (py "url") P ≠ VStr url) properties
    ∧ Log WARNING (FailedToCreateProperty TypeError) ∈ new.
Proof.
  intros Hcollect Hindex Hurl.
  destruct (run_ok_collect_pages_cards http as_completed self location contract_type
              property_type max_pages workers tr)
    as (collected & new1 & Hcollect' & _ & Hcards).
  rewrite Hcollect in Hcollect'. injection Hcollect' as <- _.
  specialize (Hcards all_properties eq_refl).
  set (unique := apply_limit limit (dedupe all_properties)) in *.
  assert (unique `sublist_of` dedupe all_properties) as Hsub
    by apply apply_limit_sublist.
  assert (Forall listing_card unique) as Hunique.
  { eapply Forall_sublist; [|exact Hcards]. etrans; [exact Hsub|apply dedupe_sublist]. }
  assert (Forall (λ p, truthy (listing_id_of p) = true) unique) as Hids.
  { eapply Forall_sublist; [exact Hsub|]. rewrite dedupe_spec.
    apply first_occurrences_truthy. }
  assert (distinct_by listing_id_of unique = true) as Hdistinct.
  { eapply distinct_by_sublist; [exact Hsub|].
    rewrite dedupe_spec. apply first_occurrences_distinct. }
  assert (Forall (λ p, truthy (url_of_record p) = true) unique) as Hurls.
  { eapply list.Forall_impl; [exact Hunique|]. intros p Hp.
    destruct (listing_card_url p Hp) as (u & -> & Hu & _). by destruct u. }
  destruct (reconcile_drops_dated all_properties limit index tr1 Hurls
              (cards_distinct_urls unique Hunique Hids Hdistinct) Hindex Hurl)
    as (properties & new & Hrun & Hout & Hlog).
  exists properties, new. split; [|done].
  unfold scrape, mbind, M_bind. by rewrite Hcollect.
Qed.

End dpe_output.

Section dpe_claim.
Context `{PyRuntime} `{BS4}.


End dpe_claim.

Lemma last_first_perm (tr : list event) (A : Type) (l : list A) : last_first tr A l ≡ₚ l.
Proof. apply reverse_Permutation. Qed.



(** ** The command line *)

Lemma field_lookup_own (row : list (pystr * value)) (d : value) :
  NoDup row.*1 → map (λ key, default d (field_lookup key row)) row.*1 = row.*2.
Proof.
  induction row as [|[k v] row IH]; [done|]. simpl. intros [Hk Hnd]%NoDup_cons.
  rewrite bool_decide_eq_true_2 by done. simpl. f_equal.
  etrans; [|exact (IH Hnd)]. apply map_ext_in. intros k' Hk'%list_elem_of_In.
  rewrite bool_decide_eq_false_2; [done|]. by intros ->.
Qed.

Lemma writerow_declared (P : Property) :
  declared P → writerow Property_field_names (to_dict P) = Ok (to_dict P).*2.
Proof.
  intros HP. unfold declared in HP. unfold writerow.
  replace (forallb _ (to_dict P)) with true.
  - f_equal. rewrite <- HP at 1. apply field_lookup_own. rewrite HP.
    apply Property_fields_NoDup.
  - symmetry. apply forallb_forall. intros [k v] Hin%list_elem_of_In.
    apply bool_decide_eq_true_2. rewrite <- HP. simpl.
    apply list_elem_of_fmap. by exists (k, v).
Qed.

Local Arguments header : simpl never.

Lemma writerows_cons (fs : file_system) (output_path : pystr) (fieldnames : list pystr)
    (rows : list (list value)) (prop : Property) (more : list Property) :
  writerows fs output_path fieldnames rows (prop :: more)
  = (row ← writerow fieldnames (to_dict prop);
     _ ← raising (fs_write fs output_path (header fieldnames :: rows) row);
     writerows fs output_path fieldnames (rows ++ [row]) more).
Proof. reflexivity. Qed.

Local Arguments writerows : simpl never.

Lemma writerows_declared (fs : file_system) (output_path : pystr)
    (properties : list Property) :
  Forall declared properties →
  ∀ rows result,
    writerows fs output_path Property_field_names rows properties = Ok result
    ↔ result = rows ++ map (λ P, (to_dict P).*2) properties
      ∧ ∀ k line, map (λ P, (to_dict P).*2) properties !! k = Some line →
          fs_write fs output_path
            (header Property_field_names
             :: rows ++ take k (map (λ P, (to_dict P).*2) properties)) line = None.
Proof.
  induction 1 as [|P l HP _ IH]; intros rows result.
  - change (writerows fs output_path Property_field_names rows []) with (Ok rows).
    simpl. rewrite app_nil_r. split.
    + intros Hr. apply Ok_inj in Hr. by split.
    + by intros [-> _].
  - rewrite writerows_cons, (writerow_declared P HP). simpl.
    destruct (fs_write fs output_path (header Property_field_names :: rows)
                (to_dict P).*2) as [e|] eqn:Hwrite; simpl.
    + split; [done|]. intros [_ Hall]. specialize (Hall 0%nat _ eq_refl).
      simpl in Hall. rewrite app_nil_r in Hall. congruence.
    + rewrite IH. rewrite <- (app_assoc rows). simpl. split.
      * intros [-> Hall]. split; [done|]. intros [|k] line Hline; simpl in *.
        -- rewrite app_nil_r. congruence.
        -- specialize (Hall k line Hline). by rewrite <- app_assoc in Hall.
      * intros [-> Hall]. split; [done|]. intros k line Hline.
        specialize (Hall (S k) line Hline). simpl in Hall. by rewrite <- app_assoc.
Qed.

(** [export_to_csv] on properties with the declared fields returns when
    the file opens, every line is written and the file closes, and
    raises otherwise. *)
Lemma export_to_csv_declared (fs : file_system) (P : Property) (more : list Property)
    (output_path : pystr) :
  Forall declared (P :: more) →
  (fs_open fs output_path = None ∧ fs_close fs output_path = None
   ∧ writes_succeed fs output_path (csv_lines (P :: more)) →
   export_to_csv fs (P :: more) output_path =
     Ok ([(INFO, Exported (length (P :: more)) output_path)],
         Some {| csv_path := output_path; csv_fieldnames := Property_field_names;
                 csv_rows := map (λ P, (to_dict P).*2) (P :: more) |}))
  ∧ (∀ r, export_to_csv fs (P :: more) output_path = Ok r →
       fs_open fs output_path = None ∧ fs_close fs output_path = None
       ∧ writes_succeed fs output_path (csv_lines (P :: more)))
  ∧ (∀ e, fs_open fs output_path = Some e →
       export_to_csv fs (P :: more) output_path = Raise e)
  ∧ (∀ e, fs_open fs output_path = None → fs_close fs output_path = Some e →
       export_to_csv fs (P :: more) output_path = Raise e).
Proof.
  intros Hall. unfold export_to_csv, with_open. cbv zeta.
  inversion Hall as [|? ? HP _]; subst. unfold declared in HP. rewrite HP.
  pose proof (writerows_declared fs output_path (P :: more) Hall []) as Hrows.
  split; [|split; [|split]].
  - intros (-> & -> & Hwrites). simpl.
    pose proof (Hwrites 0%nat _ eq_refl) as Hhead. simpl in Hhead.
    rewrite Hhead. simpl.
    assert (writerows fs output_path Property_field_names [] (P :: more)
            = Ok (map (λ P, (to_dict P).*2) (P :: more))) as ->; [|done].
    apply Hrows. split; [done|]. intros k line Hline.
    exact (Hwrites (S k) line Hline).
  - intros r. destruct (fs_open fs output_path); [done|]. simpl.
    destruct (fs_close fs output_path); [done|].
    destruct (fs_write fs output_path [] (header Property_field_names)) eqn:Hhead;
      [done|]. simpl.
    destruct (writerows fs output_path Property_field_names [] (P :: more))
      as [rows|] eqn:Hw; [|done].
    intros _. split; [done|]. split; [done|].
    destruct (proj1 (Hrows rows) eq_refl) as [_ Hw']. intros [|k] line Hline.
    + simpl in Hline. by injection Hline as <-.
    + exact (Hw' k line Hline).
  - by intros e ->.
  - by intros e -> ->.
Qed.

Section declared.
Context `{PyRuntime} `{BS4}.
Variable SCRAPINGANT_API_KEY : pystr.
Variable http : list event → value → pystr → Z → option pystr.
Variable clock : list event → pystr.
Variable as_completed : list event → ∀ A : Type, list A → list A.
Variable fs : file_system.

Lemma reconcile_declared (self : BieniciScraper) (all_properties : list record)
    (limit : option Z) (fetch_details : bool) (properties : list Property)
    (tr tr' : list event) :
  reconcile http clock as_completed self all_properties limit fetch_details tr
    = (Ok properties, tr') →
  Forall declared properties.
Proof.
  unfold reconcile. cbv zeta.
  unfold mbind at 1, M_bind at 1, log at 1, emit.
  unfold mbind at 1, M_bind at 1.
  destruct (_ : M (list record)) as [[unique|e] tr1]; [|done].
  unfold mbind at 1, M_bind at 1.
  destruct (for_each _ _ _ tr1) as [[built|e] tr2] eqn:Hloop; [|done].
  unfold mbind, M_bind, log, emit, mret, M_ret. intros [= <- <-].
  apply build_property_loop in Hloop as (kept & new & -> & _ & Hbuilt & _).
  simpl. apply (Forall2_Forall_r _ _ _ _ Hbuilt). apply list.Forall_forall.
  intros p _ P [now HP]. by eapply to_dict_names.
Qed.

Lemma scrape_declared (self : BieniciScraper)
    (location contract_type property_type : pystr) (max_pages limit : option Z)
    (fetch_details : bool) (properties : list Property) (tr tr' : list event) :
  scrape http clock as_completed self location contract_type property_type
    max_pages limit fetch_details tr = (Ok properties, tr') →
  Forall declared properties.
Proof.
  unfold scrape, mbind, M_bind.
  destruct (collect_pages _ _ _ _ _ _ _ tr) as [[[all_properties|]|e] tr1]; [| |done].
  - apply reconcile_declared.
  - by intros [= <- <-].
Qed.


End declared.

